(** * SmartCV: job-posting parser and Notion uploader

    A shallow embedding of [app1_parser.py] (class [SmartJobParser]) and of
    [app2_notion_uploader_v3.py] (fingerprint, property builders and
    [save_to_notion]), with the properties of the specification stated and
    proved over it.

    Python [str] values are sequences of Unicode code points; JSON values are
    a small inductive type; exceptions are results; the record store, the
    inference service and the libraries the modules import are parameters. *)

From Stdlib Require Import String Ascii.
From Stdlib Require Import List NArith ZArith Bool Lia Arith.
From Stdlib Require Import Floats.SpecFloat DecimalString.
Import ListNotations.
Local Open Scope N_scope.
Local Open Scope list_scope.

(* ================================================================== *)
(** ** Python strings *)
(* ================================================================== *)

(** A Python [str]: the list of its code points. *)
Definition str := list N.

(** A literal written in ASCII. *)
Definition ustr (s : string) : str := map N_of_ascii (list_ascii_of_string s).

Fixpoint str_eqb (a b : str) : bool :=
  match a, b with
  | [], [] => true
  | x :: a', y :: b' => (x =? y) && str_eqb a' b'
  | _, _ => false
  end.

(** [old] is a prefix of [s]. *)
Fixpoint starts_with (old s : str) : bool :=
  match old, s with
  | [], _ => true
  | x :: old', y :: s' => (x =? y) && starts_with old' s'
  | _ :: _, [] => false
  end.

(** [needle in s] for two strings. *)
Fixpoint contains (needle s : str) : bool :=
  starts_with needle s ||
  match s with
  | [] => false
  | _ :: s' => contains needle s'
  end.

(** [str.replace(old, new)] for a non-empty [old]: the occurrences are taken
    from the left and do not overlap.  [skip] counts the characters of the
    occurrence just replaced that are still to be passed over. *)
Fixpoint replace_from (old new : str) (skip : nat) (s : str) : str :=
  match s with
  | [] => []
  | c :: s' =>
      match skip with
      | S k => replace_from old new k s'
      | O =>
          if starts_with old s
          then new ++ replace_from old new (length old - 1) s'
          else c :: replace_from old new 0 s'
      end
  end.

(** [str.replace(old, new)]; an empty [old] puts [new] around every
    character. *)
Definition str_replace (old new s : str) : str :=
  match old with
  | [] => new ++ flat_map (fun c => c :: new) s
  | _ :: _ => replace_from old new 0 s
  end.

(** [sep.join(parts)]. *)
Fixpoint str_join (sep : str) (parts : list str) : str :=
  match parts with
  | [] => []
  | [p] => p
  | p :: ps => p ++ sep ++ str_join sep ps
  end.

(** The code points for which [str.isspace()] holds; the regular-expression
    class [\s] and [str.strip()] use the same set. *)
Definition py_isspace (c : N) : bool :=
  ((0x9 <=? c) && (c <=? 0xD)) || ((0x1C <=? c) && (c <=? 0x20)) ||
  (c =? 0x85) || (c =? 0xA0) || (c =? 0x1680) ||
  ((0x2000 <=? c) && (c <=? 0x200A)) ||
  (c =? 0x2028) || (c =? 0x2029) || (c =? 0x202F) || (c =? 0x205F) ||
  (c =? 0x3000).

Fixpoint lstrip (s : str) : str :=
  match s with
  | c :: s' => if py_isspace c then lstrip s' else s
  | [] => []
  end.

(** [rstrip] removes the trailing white space: a character is kept when it
    is not white space or something kept follows it. *)
Fixpoint rstrip (s : str) : str :=
  match s with
  | [] => []
  | c :: s' =>
      match rstrip s' with
      | [] => if py_isspace c then [] else [c]
      | r => c :: r
      end
  end.

(** [str.strip()]. *)
Definition strip (s : str) : str := rstrip (lstrip s).

(* ================================================================== *)
(** ** Exceptions *)
(* ================================================================== *)

(** A raised exception: its class and its message. *)
Inductive exn : Type :=
| Exn (cls : string) (msg : str).

Inductive result (A : Type) : Type :=
| Ok (a : A)
| Raise (e : exn).
Arguments Ok {A} a.
Arguments Raise {A} e.

Definition bind {A B} (m : result A) (k : A -> result B) : result B :=
  match m with
  | Ok a => k a
  | Raise e => Raise e
  end.

Declare Scope result_scope.
Delimit Scope result_scope with result.
Notation "x <- m ;; k" := (bind m (fun x => k))
  (at level 61, m at next level, right associativity) : result_scope.

(** [for x in l: f x], collecting the results until one raises. *)
Fixpoint mapM {A B} (f : A -> result B) (l : list A) : result (list B) :=
  match l with
  | [] => Ok []
  | a :: l' =>
      match f a with
      | Raise e => Raise e
      | Ok b =>
          match mapM f l' with
          | Raise e => Raise e
          | Ok bs => Ok (b :: bs)
          end
      end
  end.

(* ================================================================== *)
(** ** UTF-8 and SHA-256 ([str.encode], [hashlib.sha256]) *)
(* ================================================================== *)

Module Utf8.

Definition is_surrogate (c : N) : bool := (0xD800 <=? c) && (c <=? 0xDFFF).

(** A code point that [encode("utf-8")] accepts. *)
Definition encodable (c : N) : bool :=
  (c <=? 0x10FFFF) && negb (is_surrogate c).

Definition encode_char (c : N) : list N :=
  if c <? 0x80 then [c]
  else if c <? 0x800 then
    [N.lor 0xC0 (N.shiftr c 6); N.lor 0x80 (N.land c 0x3F)]
  else if c <? 0x10000 then
    [N.lor 0xE0 (N.shiftr c 12);
     N.lor 0x80 (N.land (N.shiftr c 6) 0x3F);
     N.lor 0x80 (N.land c 0x3F)]
  else
    [N.lor 0xF0 (N.shiftr c 18);
     N.lor 0x80 (N.land (N.shiftr c 12) 0x3F);
     N.lor 0x80 (N.land (N.shiftr c 6) 0x3F);
     N.lor 0x80 (N.land c 0x3F)].

(** [s.encode("utf-8")]: a lone surrogate raises [UnicodeEncodeError]. *)
Fixpoint encode (s : str) : result (list N) :=
  match s with
  | [] => Ok []
  | c :: s' =>
      if encodable c then
        match encode s' with
        | Ok bs => Ok (encode_char c ++ bs)
        | Raise e => Raise e
        end
      else Raise (Exn "UnicodeEncodeError" (ustr "surrogates not allowed"))
  end.

End Utf8.

Module Sha256.

Definition mask32 (x : N) : N := N.land x 0xFFFFFFFF.
Definition add32 (x y : N) : N := mask32 (x + y).
Definition rotr (n x : N) : N :=
  N.lor (N.shiftr x n) (mask32 (N.shiftl x (32 - n))).

Definition Ch (x y z : N) : N :=
  N.lxor (N.land x y) (N.land (N.lxor x 0xFFFFFFFF) z).
Definition Maj (x y z : N) : N :=
  N.lxor (N.lxor (N.land x y) (N.land x z)) (N.land y z).
Definition Sigma0 (x : N) := N.lxor (N.lxor (rotr 2 x) (rotr 13 x)) (rotr 22 x).
Definition Sigma1 (x : N) := N.lxor (N.lxor (rotr 6 x) (rotr 11 x)) (rotr 25 x).
Definition sigma0 (x : N) := N.lxor (N.lxor (rotr 7 x) (rotr 18 x)) (N.shiftr x 3).
Definition sigma1 (x : N) := N.lxor (N.lxor (rotr 17 x) (rotr 19 x)) (N.shiftr x 10).

(** The primes up to 311: the first 64. *)
Definition is_prime (n : N) : bool :=
  (2 <=? n) &&
  forallb (fun d => negb (n mod N.of_nat d =? 0)) (seq 2 (N.to_nat n - 2)).

Definition primes : list N :=
  Eval vm_compute in filter is_prime (map N.of_nat (seq 2 310)).

(** The integer part of the [k]-th root of [x], bit by bit from [2^bits]
    down. *)
Fixpoint root_bits (k x : N) (bits : nat) (r : N) : N :=
  match bits with
  | O => r
  | S b =>
      let r' := r + 2 ^ N.of_nat b in
      root_bits k x b (if r' ^ k <=? x then r' else r)
  end.

(** The first 32 bits of the fractional part of the [k]-th root of [p]. *)
Definition frac_root (k p : N) : N :=
  mask32 (root_bits k (p * 2 ^ (32 * k)) 36 0).

(** The round constants: from the cube roots of the first 64 primes. *)
Definition K : list N := Eval vm_compute in map (frac_root 3) primes.

(** The eight working words. *)
Record state : Type := mkState {
  ha : N; hb : N; hc : N; hd : N; he : N; hf : N; hg : N; hh : N }.

(** The initial hash value: from the square roots of the first 8 primes. *)
Definition init : state :=
  Eval vm_compute in
    match map (frac_root 2) (firstn 8 primes) with
    | [a; b; c; d; e; f; g; h] => mkState a b c d e f g h
    | _ => mkState 0 0 0 0 0 0 0 0
    end.

(** Big-endian words of a block of bytes. *)
Fixpoint words_of (bs : list N) : list N :=
  match bs with
  | b0 :: b1 :: b2 :: b3 :: bs' =>
      (N.shiftl b0 24 + N.shiftl b1 16 + N.shiftl b2 8 + b3) :: words_of bs'
  | _ => []
  end.

(** The message schedule: [n] more words after the ones in [w]. *)
Fixpoint schedule (n : nat) (w : list N) : list N :=
  match n with
  | O => w
  | S n' =>
      let t := length w in
      let x :=
        add32 (add32 (sigma1 (nth (t - 2) w 0)) (nth (t - 7) w 0))
              (add32 (sigma0 (nth (t - 15) w 0)) (nth (t - 16) w 0)) in
      schedule n' (w ++ [x])
  end.

Definition round (s : state) (kw : N * N) : state :=
  let t1 := add32 (add32 (add32 (hh s) (Sigma1 (he s)))
                         (add32 (Ch (he s) (hf s) (hg s)) (fst kw))) (snd kw) in
  let t2 := add32 (Sigma0 (ha s)) (Maj (ha s) (hb s) (hc s)) in
  mkState (add32 t1 t2) (ha s) (hb s) (hc s) (add32 (hd s) t1) (he s) (hf s) (hg s).

Definition compress (s : state) (block : list N) : state :=
  let w := schedule 48 (words_of block) in
  let r := fold_left round (combine K w) s in
  mkState (add32 (ha s) (ha r)) (add32 (hb s) (hb r)) (add32 (hc s) (hc r))
          (add32 (hd s) (hd r)) (add32 (he s) (he r)) (add32 (hf s) (hf r))
          (add32 (hg s) (hg r)) (add32 (hh s) (hh r)).

(** The message, a one bit, zeros up to 56 modulo 64 bytes, and the bit
    length on eight bytes. *)
Definition pad (msg : list N) : list N :=
  let len := N.of_nat (length msg) in
  let zeros := N.to_nat ((119 - len mod 64) mod 64) in
  let bits := 8 * len in
  msg ++ [0x80] ++ repeat 0 zeros ++
  map (fun i => N.land (N.shiftr bits (8 * i)) 0xFF) [7; 6; 5; 4; 3; 2; 1; 0].

Fixpoint blocks (fuel : nat) (bs : list N) : list (list N) :=
  match fuel with
  | O => []
  | S fuel' =>
      match bs with
      | [] => []
      | _ => firstn 64 bs :: blocks fuel' (skipn 64 bs)
      end
  end.

Definition digest (msg : list N) : state :=
  let p := pad msg in
  fold_left compress (blocks (length p) p) init.

Definition hex_digit (n : N) : N :=
  if n <? 10 then 48 + n else 87 + n.      (* '0'..'9', 'a'..'f' *)

Definition hex_word (x : N) : str :=
  map (fun i => hex_digit (N.land (N.shiftr x (4 * i)) 0xF))
      [7; 6; 5; 4; 3; 2; 1; 0].

(** [hashlib.sha256(msg).hexdigest()]. *)
Definition hexdigest (msg : list N) : str :=
  let s := digest msg in
  flat_map hex_word [ha s; hb s; hc s; hd s; he s; hf s; hg s; hh s].

End Sha256.

(* ================================================================== *)
(** ** Regular expressions ([re]) *)
(* ================================================================== *)

Module Re.

Definition in_range (lo hi c : N) : bool := (lo <=? c) && (c <=? hi).

Definition ascii_word (c : N) : bool :=
  in_range 48 57 c || in_range 65 90 c || (c =? 95) || in_range 97 122 c.

(** The code points from U+0080 on that [\w] matches in a [str] pattern
    (alphanumeric in the Unicode 14.0 database of CPython 3.11), as
    inclusive ranges. *)
Definition word_ranges : list (N * N) :=
  [
   (0xAA, 0xAA); (0xB2, 0xB3); (0xB5, 0xB5); (0xB9, 0xBA); (0xBC, 0xBE);
   (0xC0, 0xD6); (0xD8, 0xF6); (0xF8, 0x2C1); (0x2C6, 0x2D1);
   (0x2E0, 0x2E4); (0x2EC, 0x2EC); (0x2EE, 0x2EE); (0x370, 0x374);
   (0x376, 0x377); (0x37A, 0x37D); (0x37F, 0x37F); (0x386, 0x386);
   (0x388, 0x38A); (0x38C, 0x38C); (0x38E, 0x3A1); (0x3A3, 0x3F5);
   (0x3F7, 0x481); (0x48A, 0x52F); (0x531, 0x556); (0x559, 0x559);
   (0x560, 0x588); (0x5D0, 0x5EA); (0x5EF, 0x5F2); (0x620, 0x64A);
   (0x660, 0x669); (0x66E, 0x66F); (0x671, 0x6D3); (0x6D5, 0x6D5);
   (0x6E5, 0x6E6); (0x6EE, 0x6FC); (0x6FF, 0x6FF); (0x710, 0x710);
   (0x712, 0x72F); (0x74D, 0x7A5); (0x7B1, 0x7B1); (0x7C0, 0x7EA);
   (0x7F4, 0x7F5); (0x7FA, 0x7FA); (0x800, 0x815); (0x81A, 0x81A);
   (0x824, 0x824); (0x828, 0x828); (0x840, 0x858); (0x860, 0x86A);
   (0x870, 0x887); (0x889, 0x88E); (0x8A0, 0x8C9); (0x904, 0x939);
   (0x93D, 0x93D); (0x950, 0x950); (0x958, 0x961); (0x966, 0x96F);
   (0x971, 0x980); (0x985, 0x98C); (0x98F, 0x990); (0x993, 0x9A8);
   (0x9AA, 0x9B0); (0x9B2, 0x9B2); (0x9B6, 0x9B9); (0x9BD, 0x9BD);
   (0x9CE, 0x9CE); (0x9DC, 0x9DD); (0x9DF, 0x9E1); (0x9E6, 0x9F1);
   (0x9F4, 0x9F9); (0x9FC, 0x9FC); (0xA05, 0xA0A); (0xA0F, 0xA10);
   (0xA13, 0xA28); (0xA2A, 0xA30); (0xA32, 0xA33); (0xA35, 0xA36);
   (0xA38, 0xA39); (0xA59, 0xA5C); (0xA5E, 0xA5E); (0xA66, 0xA6F);
   (0xA72, 0xA74); (0xA85, 0xA8D); (0xA8F, 0xA91); (0xA93, 0xAA8);
   (0xAAA, 0xAB0); (0xAB2, 0xAB3); (0xAB5, 0xAB9); (0xABD, 0xABD);
   (0xAD0, 0xAD0); (0xAE0, 0xAE1); (0xAE6, 0xAEF); (0xAF9, 0xAF9);
   (0xB05, 0xB0C); (0xB0F, 0xB10); (0xB13, 0xB28); (0xB2A, 0xB30);
   (0xB32, 0xB33); (0xB35, 0xB39); (0xB3D, 0xB3D); (0xB5C, 0xB5D);
   (0xB5F, 0xB61); (0xB66, 0xB6F); (0xB71, 0xB77); (0xB83, 0xB83);
   (0xB85, 0xB8A); (0xB8E, 0xB90); (0xB92, 0xB95); (0xB99, 0xB9A);
   (0xB9C, 0xB9C); (0xB9E, 0xB9F); (0xBA3, 0xBA4); (0xBA8, 0xBAA);
   (0xBAE, 0xBB9); (0xBD0, 0xBD0); (0xBE6, 0xBF2); (0xC05, 0xC0C);
   (0xC0E, 0xC10); (0xC12, 0xC28); (0xC2A, 0xC39); (0xC3D, 0xC3D);
   (0xC58, 0xC5A); (0xC5D, 0xC5D); (0xC60, 0xC61); (0xC66, 0xC6F);
   (0xC78, 0xC7E); (0xC80, 0xC80); (0xC85, 0xC8C); (0xC8E, 0xC90);
   (0xC92, 0xCA8); (0xCAA, 0xCB3); (0xCB5, 0xCB9); (0xCBD, 0xCBD);
   (0xCDD, 0xCDE); (0xCE0, 0xCE1); (0xCE6, 0xCEF); (0xCF1, 0xCF2);
   (0xD04, 0xD0C); (0xD0E, 0xD10); (0xD12, 0xD3A); (0xD3D, 0xD3D);
   (0xD4E, 0xD4E); (0xD54, 0xD56); (0xD58, 0xD61); (0xD66, 0xD78);
   (0xD7A, 0xD7F); (0xD85, 0xD96); (0xD9A, 0xDB1); (0xDB3, 0xDBB);
   (0xDBD, 0xDBD); (0xDC0, 0xDC6); (0xDE6, 0xDEF); (0xE01, 0xE30);
   (0xE32, 0xE33); (0xE40, 0xE46); (0xE50, 0xE59); (0xE81, 0xE82);
   (0xE84, 0xE84); (0xE86, 0xE8A); (0xE8C, 0xEA3); (0xEA5, 0xEA5);
   (0xEA7, 0xEB0); (0xEB2, 0xEB3); (0xEBD, 0xEBD); (0xEC0, 0xEC4);
   (0xEC6, 0xEC6); (0xED0, 0xED9); (0xEDC, 0xEDF); (0xF00, 0xF00);
   (0xF20, 0xF33); (0xF40, 0xF47); (0xF49, 0xF6C); (0xF88, 0xF8C);
   (0x1000, 0x102A); (0x103F, 0x1049); (0x1050, 0x1055); (0x105A, 0x105D);
   (0x1061, 0x1061); (0x1065, 0x1066); (0x106E, 0x1070); (0x1075, 0x1081);
   (0x108E, 0x108E); (0x1090, 0x1099); (0x10A0, 0x10C5); (0x10C7, 0x10C7);
   (0x10CD, 0x10CD); (0x10D0, 0x10FA); (0x10FC, 0x1248); (0x124A, 0x124D);
   (0x1250, 0x1256); (0x1258, 0x1258); (0x125A, 0x125D); (0x1260, 0x1288);
   (0x128A, 0x128D); (0x1290, 0x12B0); (0x12B2, 0x12B5); (0x12B8, 0x12BE);
   (0x12C0, 0x12C0); (0x12C2, 0x12C5); (0x12C8, 0x12D6); (0x12D8, 0x1310);
   (0x1312, 0x1315); (0x1318, 0x135A); (0x1369, 0x137C); (0x1380, 0x138F);
   (0x13A0, 0x13F5); (0x13F8, 0x13FD); (0x1401, 0x166C); (0x166F, 0x167F);
   (0x1681, 0x169A); (0x16A0, 0x16EA); (0x16EE, 0x16F8); (0x1700, 0x1711);
   (0x171F, 0x1731); (0x1740, 0x1751); (0x1760, 0x176C); (0x176E, 0x1770);
   (0x1780, 0x17B3); (0x17D7, 0x17D7); (0x17DC, 0x17DC); (0x17E0, 0x17E9);
   (0x17F0, 0x17F9); (0x1810, 0x1819); (0x1820, 0x1878); (0x1880, 0x1884);
   (0x1887, 0x18A8); (0x18AA, 0x18AA); (0x18B0, 0x18F5); (0x1900, 0x191E);
   (0x1946, 0x196D); (0x1970, 0x1974); (0x1980, 0x19AB); (0x19B0, 0x19C9);
   (0x19D0, 0x19DA); (0x1A00, 0x1A16); (0x1A20, 0x1A54); (0x1A80, 0x1A89);
   (0x1A90, 0x1A99); (0x1AA7, 0x1AA7); (0x1B05, 0x1B33); (0x1B45, 0x1B4C);
   (0x1B50, 0x1B59); (0x1B83, 0x1BA0); (0x1BAE, 0x1BE5); (0x1C00, 0x1C23);
   (0x1C40, 0x1C49); (0x1C4D, 0x1C7D); (0x1C80, 0x1C88); (0x1C90, 0x1CBA);
   (0x1CBD, 0x1CBF); (0x1CE9, 0x1CEC); (0x1CEE, 0x1CF3); (0x1CF5, 0x1CF6);
   (0x1CFA, 0x1CFA); (0x1D00, 0x1DBF); (0x1E00, 0x1F15); (0x1F18, 0x1F1D);
   (0x1F20, 0x1F45); (0x1F48, 0x1F4D); (0x1F50, 0x1F57); (0x1F59, 0x1F59);
   (0x1F5B, 0x1F5B); (0x1F5D, 0x1F5D); (0x1F5F, 0x1F7D); (0x1F80, 0x1FB4);
   (0x1FB6, 0x1FBC); (0x1FBE, 0x1FBE); (0x1FC2, 0x1FC4); (0x1FC6, 0x1FCC);
   (0x1FD0, 0x1FD3); (0x1FD6, 0x1FDB); (0x1FE0, 0x1FEC); (0x1FF2, 0x1FF4);
   (0x1FF6, 0x1FFC); (0x2070, 0x2071); (0x2074, 0x2079); (0x207F, 0x2089);
   (0x2090, 0x209C); (0x2102, 0x2102); (0x2107, 0x2107); (0x210A, 0x2113);
   (0x2115, 0x2115); (0x2119, 0x211D); (0x2124, 0x2124); (0x2126, 0x2126);
   (0x2128, 0x2128); (0x212A, 0x212D); (0x212F, 0x2139); (0x213C, 0x213F);
   (0x2145, 0x2149); (0x214E, 0x214E); (0x2150, 0x2189); (0x2460, 0x249B);
   (0x24EA, 0x24FF); (0x2776, 0x2793); (0x2C00, 0x2CE4); (0x2CEB, 0x2CEE);
   (0x2CF2, 0x2CF3); (0x2CFD, 0x2CFD); (0x2D00, 0x2D25); (0x2D27, 0x2D27);
   (0x2D2D, 0x2D2D); (0x2D30, 0x2D67); (0x2D6F, 0x2D6F); (0x2D80, 0x2D96);
   (0x2DA0, 0x2DA6); (0x2DA8, 0x2DAE); (0x2DB0, 0x2DB6); (0x2DB8, 0x2DBE);
   (0x2DC0, 0x2DC6); (0x2DC8, 0x2DCE); (0x2DD0, 0x2DD6); (0x2DD8, 0x2DDE);
   (0x2E2F, 0x2E2F); (0x3005, 0x3007); (0x3021, 0x3029); (0x3031, 0x3035);
   (0x3038, 0x303C); (0x3041, 0x3096); (0x309D, 0x309F); (0x30A1, 0x30FA);
   (0x30FC, 0x30FF); (0x3105, 0x312F); (0x3131, 0x318E); (0x3192, 0x3195);
   (0x31A0, 0x31BF); (0x31F0, 0x31FF); (0x3220, 0x3229); (0x3248, 0x324F);
   (0x3251, 0x325F); (0x3280, 0x3289); (0x32B1, 0x32BF); (0x3400, 0x4DBF);
   (0x4E00, 0xA48C); (0xA4D0, 0xA4FD); (0xA500, 0xA60C); (0xA610, 0xA62B);
   (0xA640, 0xA66E); (0xA67F, 0xA69D); (0xA6A0, 0xA6EF); (0xA717, 0xA71F);
   (0xA722, 0xA788); (0xA78B, 0xA7CA); (0xA7D0, 0xA7D1); (0xA7D3, 0xA7D3);
   (0xA7D5, 0xA7D9); (0xA7F2, 0xA801); (0xA803, 0xA805); (0xA807, 0xA80A);
   (0xA80C, 0xA822); (0xA830, 0xA835); (0xA840, 0xA873); (0xA882, 0xA8B3);
   (0xA8D0, 0xA8D9); (0xA8F2, 0xA8F7); (0xA8FB, 0xA8FB); (0xA8FD, 0xA8FE);
   (0xA900, 0xA925); (0xA930, 0xA946); (0xA960, 0xA97C); (0xA984, 0xA9B2);
   (0xA9CF, 0xA9D9); (0xA9E0, 0xA9E4); (0xA9E6, 0xA9FE); (0xAA00, 0xAA28);
   (0xAA40, 0xAA42); (0xAA44, 0xAA4B); (0xAA50, 0xAA59); (0xAA60, 0xAA76);
   (0xAA7A, 0xAA7A); (0xAA7E, 0xAAAF); (0xAAB1, 0xAAB1); (0xAAB5, 0xAAB6);
   (0xAAB9, 0xAABD); (0xAAC0, 0xAAC0); (0xAAC2, 0xAAC2); (0xAADB, 0xAADD);
   (0xAAE0, 0xAAEA); (0xAAF2, 0xAAF4); (0xAB01, 0xAB06); (0xAB09, 0xAB0E);
   (0xAB11, 0xAB16); (0xAB20, 0xAB26); (0xAB28, 0xAB2E); (0xAB30, 0xAB5A);
   (0xAB5C, 0xAB69); (0xAB70, 0xABE2); (0xABF0, 0xABF9); (0xAC00, 0xD7A3);
   (0xD7B0, 0xD7C6); (0xD7CB, 0xD7FB); (0xF900, 0xFA6D); (0xFA70, 0xFAD9);
   (0xFB00, 0xFB06); (0xFB13, 0xFB17); (0xFB1D, 0xFB1D); (0xFB1F, 0xFB28);
   (0xFB2A, 0xFB36); (0xFB38, 0xFB3C); (0xFB3E, 0xFB3E); (0xFB40, 0xFB41);
   (0xFB43, 0xFB44); (0xFB46, 0xFBB1); (0xFBD3, 0xFD3D); (0xFD50, 0xFD8F);
   (0xFD92, 0xFDC7); (0xFDF0, 0xFDFB); (0xFE70, 0xFE74); (0xFE76, 0xFEFC);
   (0xFF10, 0xFF19); (0xFF21, 0xFF3A); (0xFF41, 0xFF5A); (0xFF66, 0xFFBE);
   (0xFFC2, 0xFFC7); (0xFFCA, 0xFFCF); (0xFFD2, 0xFFD7); (0xFFDA, 0xFFDC);
   (0x10000, 0x1000B); (0x1000D, 0x10026); (0x10028, 0x1003A);
   (0x1003C, 0x1003D); (0x1003F, 0x1004D); (0x10050, 0x1005D);
   (0x10080, 0x100FA); (0x10107, 0x10133); (0x10140, 0x10178);
   (0x1018A, 0x1018B); (0x10280, 0x1029C); (0x102A0, 0x102D0);
   (0x102E1, 0x102FB); (0x10300, 0x10323); (0x1032D, 0x1034A);
   (0x10350, 0x10375); (0x10380, 0x1039D); (0x103A0, 0x103C3);
   (0x103C8, 0x103CF); (0x103D1, 0x103D5); (0x10400, 0x1049D);
   (0x104A0, 0x104A9); (0x104B0, 0x104D3); (0x104D8, 0x104FB);
   (0x10500, 0x10527); (0x10530, 0x10563); (0x10570, 0x1057A);
   (0x1057C, 0x1058A); (0x1058C, 0x10592); (0x10594, 0x10595);
   (0x10597, 0x105A1); (0x105A3, 0x105B1); (0x105B3, 0x105B9);
   (0x105BB, 0x105BC); (0x10600, 0x10736); (0x10740, 0x10755);
   (0x10760, 0x10767); (0x10780, 0x10785); (0x10787, 0x107B0);
   (0x107B2, 0x107BA); (0x10800, 0x10805); (0x10808, 0x10808);
   (0x1080A, 0x10835); (0x10837, 0x10838); (0x1083C, 0x1083C);
   (0x1083F, 0x10855); (0x10858, 0x10876); (0x10879, 0x1089E);
   (0x108A7, 0x108AF); (0x108E0, 0x108F2); (0x108F4, 0x108F5);
   (0x108FB, 0x1091B); (0x10920, 0x10939); (0x10980, 0x109B7);
   (0x109BC, 0x109CF); (0x109D2, 0x10A00); (0x10A10, 0x10A13);
   (0x10A15, 0x10A17); (0x10A19, 0x10A35); (0x10A40, 0x10A48);
   (0x10A60, 0x10A7E); (0x10A80, 0x10A9F); (0x10AC0, 0x10AC7);
   (0x10AC9, 0x10AE4); (0x10AEB, 0x10AEF); (0x10B00, 0x10B35);
   (0x10B40, 0x10B55); (0x10B58, 0x10B72); (0x10B78, 0x10B91);
   (0x10BA9, 0x10BAF); (0x10C00, 0x10C48); (0x10C80, 0x10CB2);
   (0x10CC0, 0x10CF2); (0x10CFA, 0x10D23); (0x10D30, 0x10D39);
   (0x10E60, 0x10E7E); (0x10E80, 0x10EA9); (0x10EB0, 0x10EB1);
   (0x10F00, 0x10F27); (0x10F30, 0x10F45); (0x10F51, 0x10F54);
   (0x10F70, 0x10F81); (0x10FB0, 0x10FCB); (0x10FE0, 0x10FF6);
   (0x11003, 0x11037); (0x11052, 0x1106F); (0x11071, 0x11072);
   (0x11075, 0x11075); (0x11083, 0x110AF); (0x110D0, 0x110E8);
   (0x110F0, 0x110F9); (0x11103, 0x11126); (0x11136, 0x1113F);
   (0x11144, 0x11144); (0x11147, 0x11147); (0x11150, 0x11172);
   (0x11176, 0x11176); (0x11183, 0x111B2); (0x111C1, 0x111C4);
   (0x111D0, 0x111DA); (0x111DC, 0x111DC); (0x111E1, 0x111F4);
   (0x11200, 0x11211); (0x11213, 0x1122B); (0x11280, 0x11286);
   (0x11288, 0x11288); (0x1128A, 0x1128D); (0x1128F, 0x1129D);
   (0x1129F, 0x112A8); (0x112B0, 0x112DE); (0x112F0, 0x112F9);
   (0x11305, 0x1130C); (0x1130F, 0x11310); (0x11313, 0x11328);
   (0x1132A, 0x11330); (0x11332, 0x11333); (0x11335, 0x11339);
   (0x1133D, 0x1133D); (0x11350, 0x11350); (0x1135D, 0x11361);
   (0x11400, 0x11434); (0x11447, 0x1144A); (0x11450, 0x11459);
   (0x1145F, 0x11461); (0x11480, 0x114AF); (0x114C4, 0x114C5);
   (0x114C7, 0x114C7); (0x114D0, 0x114D9); (0x11580, 0x115AE);
   (0x115D8, 0x115DB); (0x11600, 0x1162F); (0x11644, 0x11644);
   (0x11650, 0x11659); (0x11680, 0x116AA); (0x116B8, 0x116B8);
   (0x116C0, 0x116C9); (0x11700, 0x1171A); (0x11730, 0x1173B);
   (0x11740, 0x11746); (0x11800, 0x1182B); (0x118A0, 0x118F2);
   (0x118FF, 0x11906); (0x11909, 0x11909); (0x1190C, 0x11913);
   (0x11915, 0x11916); (0x11918, 0x1192F); (0x1193F, 0x1193F);
   (0x11941, 0x11941); (0x11950, 0x11959); (0x119A0, 0x119A7);
   (0x119AA, 0x119D0); (0x119E1, 0x119E1); (0x119E3, 0x119E3);
   (0x11A00, 0x11A00); (0x11A0B, 0x11A32); (0x11A3A, 0x11A3A);
   (0x11A50, 0x11A50); (0x11A5C, 0x11A89); (0x11A9D, 0x11A9D);
   (0x11AB0, 0x11AF8); (0x11C00, 0x11C08); (0x11C0A, 0x11C2E);
   (0x11C40, 0x11C40); (0x11C50, 0x11C6C); (0x11C72, 0x11C8F);
   (0x11D00, 0x11D06); (0x11D08, 0x11D09); (0x11D0B, 0x11D30);
   (0x11D46, 0x11D46); (0x11D50, 0x11D59); (0x11D60, 0x11D65);
   (0x11D67, 0x11D68); (0x11D6A, 0x11D89); (0x11D98, 0x11D98);
   (0x11DA0, 0x11DA9); (0x11EE0, 0x11EF2); (0x11FB0, 0x11FB0);
   (0x11FC0, 0x11FD4); (0x12000, 0x12399); (0x12400, 0x1246E);
   (0x12480, 0x12543); (0x12F90, 0x12FF0); (0x13000, 0x1342E);
   (0x14400, 0x14646); (0x16800, 0x16A38); (0x16A40, 0x16A5E);
   (0x16A60, 0x16A69); (0x16A70, 0x16ABE); (0x16AC0, 0x16AC9);
   (0x16AD0, 0x16AED); (0x16B00, 0x16B2F); (0x16B40, 0x16B43);
   (0x16B50, 0x16B59); (0x16B5B, 0x16B61); (0x16B63, 0x16B77);
   (0x16B7D, 0x16B8F); (0x16E40, 0x16E96); (0x16F00, 0x16F4A);
   (0x16F50, 0x16F50); (0x16F93, 0x16F9F); (0x16FE0, 0x16FE1);
   (0x16FE3, 0x16FE3); (0x17000, 0x187F7); (0x18800, 0x18CD5);
   (0x18D00, 0x18D08); (0x1AFF0, 0x1AFF3); (0x1AFF5, 0x1AFFB);
   (0x1AFFD, 0x1AFFE); (0x1B000, 0x1B122); (0x1B150, 0x1B152);
   (0x1B164, 0x1B167); (0x1B170, 0x1B2FB); (0x1BC00, 0x1BC6A);
   (0x1BC70, 0x1BC7C); (0x1BC80, 0x1BC88); (0x1BC90, 0x1BC99);
   (0x1D2E0, 0x1D2F3); (0x1D360, 0x1D378); (0x1D400, 0x1D454);
   (0x1D456, 0x1D49C); (0x1D49E, 0x1D49F); (0x1D4A2, 0x1D4A2);
   (0x1D4A5, 0x1D4A6); (0x1D4A9, 0x1D4AC); (0x1D4AE, 0x1D4B9);
   (0x1D4BB, 0x1D4BB); (0x1D4BD, 0x1D4C3); (0x1D4C5, 0x1D505);
   (0x1D507, 0x1D50A); (0x1D50D, 0x1D514); (0x1D516, 0x1D51C);
   (0x1D51E, 0x1D539); (0x1D53B, 0x1D53E); (0x1D540, 0x1D544);
   (0x1D546, 0x1D546); (0x1D54A, 0x1D550); (0x1D552, 0x1D6A5);
   (0x1D6A8, 0x1D6C0); (0x1D6C2, 0x1D6DA); (0x1D6DC, 0x1D6FA);
   (0x1D6FC, 0x1D714); (0x1D716, 0x1D734); (0x1D736, 0x1D74E);
   (0x1D750, 0x1D76E); (0x1D770, 0x1D788); (0x1D78A, 0x1D7A8);
   (0x1D7AA, 0x1D7C2); (0x1D7C4, 0x1D7CB); (0x1D7CE, 0x1D7FF);
   (0x1DF00, 0x1DF1E); (0x1E100, 0x1E12C); (0x1E137, 0x1E13D);
   (0x1E140, 0x1E149); (0x1E14E, 0x1E14E); (0x1E290, 0x1E2AD);
   (0x1E2C0, 0x1E2EB); (0x1E2F0, 0x1E2F9); (0x1E7E0, 0x1E7E6);
   (0x1E7E8, 0x1E7EB); (0x1E7ED, 0x1E7EE); (0x1E7F0, 0x1E7FE);
   (0x1E800, 0x1E8C4); (0x1E8C7, 0x1E8CF); (0x1E900, 0x1E943);
   (0x1E94B, 0x1E94B); (0x1E950, 0x1E959); (0x1EC71, 0x1ECAB);
   (0x1ECAD, 0x1ECAF); (0x1ECB1, 0x1ECB4); (0x1ED01, 0x1ED2D);
   (0x1ED2F, 0x1ED3D); (0x1EE00, 0x1EE03); (0x1EE05, 0x1EE1F);
   (0x1EE21, 0x1EE22); (0x1EE24, 0x1EE24); (0x1EE27, 0x1EE27);
   (0x1EE29, 0x1EE32); (0x1EE34, 0x1EE37); (0x1EE39, 0x1EE39);
   (0x1EE3B, 0x1EE3B); (0x1EE42, 0x1EE42); (0x1EE47, 0x1EE47);
   (0x1EE49, 0x1EE49); (0x1EE4B, 0x1EE4B); (0x1EE4D, 0x1EE4F);
   (0x1EE51, 0x1EE52); (0x1EE54, 0x1EE54); (0x1EE57, 0x1EE57);
   (0x1EE59, 0x1EE59); (0x1EE5B, 0x1EE5B); (0x1EE5D, 0x1EE5D);
   (0x1EE5F, 0x1EE5F); (0x1EE61, 0x1EE62); (0x1EE64, 0x1EE64);
   (0x1EE67, 0x1EE6A); (0x1EE6C, 0x1EE72); (0x1EE74, 0x1EE77);
   (0x1EE79, 0x1EE7C); (0x1EE7E, 0x1EE7E); (0x1EE80, 0x1EE89);
   (0x1EE8B, 0x1EE9B); (0x1EEA1, 0x1EEA3); (0x1EEA5, 0x1EEA9);
   (0x1EEAB, 0x1EEBB); (0x1F100, 0x1F10C); (0x1FBF0, 0x1FBF9);
   (0x20000, 0x2A6DF); (0x2A700, 0x2B738); (0x2B740, 0x2B81D);
   (0x2B820, 0x2CEA1); (0x2CEB0, 0x2EBE0); (0x2F800, 0x2FA1D);
   (0x30000, 0x3134A)
  ].

(** [\w]: alphanumeric or underscore. *)
Definition py_isword (c : N) : bool :=
  if c <? 0x80 then ascii_word c
  else existsb (fun r => in_range (fst r) (snd r) c) word_ranges.

Definition ascii_lower (c : N) : N := if in_range 65 90 c then c + 32 else c.
Definition ascii_upper (c : N) : N := if in_range 97 122 c then c - 32 else c.

(** A literal ASCII character [p] of a pattern compiled with [re.I]
    matches [c]: the two agree up to letter case; besides, [i] matches
    U+0130 and U+0131, [k] matches U+212A and [s] matches U+017F. *)
Definition ci_eq (p c : N) : bool :=
  (ascii_lower c =? ascii_lower p) ||
  (if ascii_lower p =? 105 then (c =? 0x130) || (c =? 0x131)
   else if ascii_lower p =? 107 then c =? 0x212A
   else if ascii_lower p =? 115 then c =? 0x17F
   else false).

(** The patterns the two modules use: character classes, sequence,
    ordered alternation, the greedy repetition of a class, a numbered
    group and the word boundary [\b]. *)
Inductive regex : Type :=
| Eps
| Cls (p : N -> bool)
| Seq (r1 r2 : regex)
| Alt (r1 r2 : regex)
| Rep (p : N -> bool)
| Grp (n : nat) (r : regex)
| Bnd.

Definition Plus (p : N -> bool) : regex := Seq (Cls p) (Rep p).
Definition Opt (p : N -> bool) : regex := Alt (Cls p) Eps.

Fixpoint seqs (rs : list regex) : regex :=
  match rs with
  | [] => Eps
  | [r] => r
  | r :: rs' => Seq r (seqs rs')
  end.

Fixpoint alts (rs : list regex) : regex :=
  match rs with
  | [] => Cls (fun _ => false)
  | [r] => r
  | r :: rs' => Alt r (alts rs')
  end.

(** A literal, and a literal under [re.I]. *)
Definition lit (s : str) : regex := seqs (map (fun p => Cls (N.eqb p)) s).
Definition lit_i (s : str) : regex := seqs (map (fun p => Cls (ci_eq p)) s).

(** The captured groups, most recent first. *)
Definition groups := list (nat * str).

Fixpoint group (n : nat) (g : groups) : option str :=
  match g with
  | [] => None
  | (m, s) :: g' => if Nat.eqb m n then Some s else group n g'
  end.

Definition word_before (prev : option N) : bool :=
  match prev with Some c => py_isword c | None => false end.
Definition word_at (s : str) : bool :=
  match s with c :: _ => py_isword c | [] => false end.

(** [\b] holds between [prev] and the head of [s]. *)
Definition boundary (prev : option N) (s : str) : bool :=
  xorb (word_before prev) (word_at s).

(** The backtracking matcher.  [prev] is the character before the
    current position, [s] the text from the current position on; [k]
    continues after a match of [r] and fails ([None]) to make [r] try
    its next choice: the second branch of an alternation, one
    repetition less. *)
Fixpoint rmatch {A : Type} (r : regex) (prev : option N) (s : str)
    (g : groups) (k : option N -> str -> groups -> option A) : option A :=
  match r with
  | Eps => k prev s g
  | Cls p =>
      match s with
      | c :: s' => if p c then k (Some c) s' g else None
      | [] => None
      end
  | Seq r1 r2 =>
      rmatch r1 prev s g (fun prev' s' g' => rmatch r2 prev' s' g' k)
  | Alt r1 r2 =>
      match rmatch r1 prev s g k with
      | Some x => Some x
      | None => rmatch r2 prev s g k
      end
  | Rep p =>
      (fix rep (prev : option N) (s : str) : option A :=
         match s with
         | c :: s' =>
             if p c then
               match rep (Some c) s' with
               | Some x => Some x
               | None => k prev s g
               end
             else k prev s g
         | [] => k prev s g
         end) prev s
  | Grp n r1 =>
      rmatch r1 prev s g
        (fun prev' s' g' =>
           k prev' s' ((n, firstn (length s - length s') s) :: g'))
  | Bnd => if boundary prev s then k prev s g else None
  end.

(** A match at the current position: the text after it and its groups. *)
Definition match_here (r : regex) (prev : option N) (s : str)
  : option (str * groups) :=
  rmatch r prev s [] (fun _ s' g => Some (s', g)).

(** [re.search]: the leftmost position with a match. *)
Fixpoint search_from (r : regex) (prev : option N) (s : str)
  : option (str * groups) :=
  match match_here r prev s with
  | Some m => Some m
  | None =>
      match s with
      | [] => None
      | c :: s' => search_from r (Some c) s'
      end
  end.

Definition search (r : regex) (s : str) : option groups :=
  option_map snd (search_from r None s).

(** [bool(re.search(r, s))]. *)
Definition matches (r : regex) (s : str) : bool :=
  match search r s with Some _ => true | None => false end.

(** [re.sub] with a literal replacement: the matches are taken from the
    left; after a match of [n > 0] characters the scan resumes behind it
    ([skip] counts what is left of it), after an empty match one
    character is copied. *)
Fixpoint sub_from (r : regex) (repl : str) (prev : option N) (skip : nat)
    (s : str) : str :=
  match s with
  | [] =>
      match match_here r prev [] with
      | Some _ => repl
      | None => []
      end
  | c :: s' =>
      match skip with
      | S k => sub_from r repl (Some c) k s'
      | O =>
          match match_here r prev s with
          | Some (rest, _) =>
              match (length s - length rest)%nat with
              | O => repl ++ c :: sub_from r repl (Some c) 0 s'
              | S n => repl ++ sub_from r repl (Some c) n s'
              end
          | None => c :: sub_from r repl (Some c) 0 s'
          end
      end
  end.

Definition sub (r : regex) (repl : str) (s : str) : str :=
  sub_from r repl None 0 s.

End Re.

(* ================================================================== *)
(** ** JSON values and dictionaries *)
(* ================================================================== *)

(** What [json.loads] returns and what the modules build: [None], [bool],
    [int], [float], [str], [list] and [dict] with string keys.  A [dict]
    keeps its entries in insertion order. *)
#[warnings="-register-all"]
Inductive value : Type :=
| VNone
| VBool (b : bool)
| VInt (z : Z)
| VFloat (f : spec_float)
| VStr (s : str)
| VList (l : list value)
| VDict (d : list (str * value)).

Definition pydict := list (str * value).

Section Dict.
Context {V : Type}.

(** [d.get(k)]: the entry under [k]. *)
Fixpoint dict_get (k : str) (d : list (str * V)) : option V :=
  match d with
  | [] => None
  | (k', v) :: d' => if str_eqb k' k then Some v else dict_get k d'
  end.

(** [d[k] = v]: an existing entry keeps its place, a new one goes last. *)
Fixpoint dict_set (k : str) (v : V) (d : list (str * V)) : list (str * V) :=
  match d with
  | [] => [(k, v)]
  | (k', v') :: d' =>
      if str_eqb k' k then (k', v) :: d' else (k', v') :: dict_set k v d'
  end.

(** A dict display [{k1: v1, k2: v2, ...}]. *)
Definition dict_literal (items : list (str * V)) : list (str * V) :=
  fold_left (fun d kv => dict_set (fst kv) (snd kv) d) items [].
End Dict.

Definition str_truthy (s : str) : bool :=
  match s with [] => false | _ :: _ => true end.

(** [bool(v)]. *)
Definition truthy (v : value) : bool :=
  match v with
  | VNone => false
  | VBool b => b
  | VInt z => negb (z =? 0)%Z
  | VFloat f => match f with S754_zero _ => false | _ => true end
  | VStr s => str_truthy s
  | VList l => match l with [] => false | _ :: _ => true end
  | VDict d => match d with [] => false | _ :: _ => true end
  end.

Definition type_error (msg : string) : exn := Exn "TypeError" (ustr msg).

(** [k in v] for a string [k]. *)
Definition py_contains (k : str) (v : value) : result bool :=
  match v with
  | VDict d => Ok (match dict_get k d with Some _ => true | None => false end)
  | VList l =>
      Ok (existsb (fun x => match x with VStr s => str_eqb s k | _ => false end) l)
  | VStr s => Ok (contains k s)
  | _ => Raise (type_error "argument is not iterable")
  end.

(** [v[k]] for a string [k]. *)
Definition py_getitem (v : value) (k : str) : result value :=
  match v with
  | VDict d =>
      match dict_get k d with
      | Some x => Ok x
      | None => Raise (Exn "KeyError" k)
      end
  | VList _ | VStr _ => Raise (type_error "indices must be integers or slices, not str")
  | _ => Raise (type_error "object is not subscriptable")
  end.

(** [v[k] = x] for a string [k]. *)
Definition py_setitem (v : value) (k : str) (x : value) : result value :=
  match v with
  | VDict d => Ok (VDict (dict_set k x d))
  | VList _ => Raise (type_error "list indices must be integers or slices, not str")
  | _ => Raise (type_error "object does not support item assignment")
  end.

(** What Streamlit is asked to display. *)
Inductive st_event : Type :=
| StInfo (msg : str)
| StSuccess (msg : str)
| StWarning (msg : str)
| StError (msg : str).

Definition exn_str (e : exn) : str := match e with Exn _ msg => msg end.

(* ================================================================== *)
(** ** [app1_parser.py]: class [SmartJobParser] *)
(* ================================================================== *)

Module Parser.
Import Re.

Definition chr (a : ascii) : N -> bool := N.eqb (N_of_ascii a).

(** *** [clean_text] *)

Definition bullet : N := 0x2022.

(** The [replacements] display; the last three keys repeat the first
    three. *)
Definition replacements : list (str * str) :=
  dict_literal
    [ ([0x2013], ustr "-"); ([0x2014], ustr "-"); ([bullet], [bullet; 32]);
      ([0xA0], ustr " "); ([0x2022], [bullet; 32]);
      ([0x2013], ustr "-"); ([0x2014], ustr "-") ].

(** [\s+] *)
Definition re_spaces : regex := Plus py_isspace.
(** [\n{2,}] *)
Definition re_newlines : regex := seqs [Cls (N.eqb 10); Cls (N.eqb 10); Rep (N.eqb 10)].

(** [None] stands for an absent text. *)
Definition clean_text (text : option str) : str :=
  match text with
  | None => []
  | Some text =>
      if negb (str_truthy text) then []
      else
        let text :=
          fold_left (fun t on => str_replace (fst on) (snd on) t)
                    replacements text in
        let text := sub re_spaces (ustr " ") text in
        let text := sub re_newlines [10; 10] text in
        strip text
  end.

(** *** [detect_format] *)

Definition html_patterns : list regex :=
  map lit_i [ustr "<div"; ustr "<p"; ustr "<ul"; ustr "<li"; ustr "<br"].

Definition dot (c : N) : bool := negb (c =? 10).

Definition markdown_patterns : list regex :=
  [ seqs [Plus (chr "#"); Cls py_isspace];
    seqs [lit (ustr "**"); Plus dot; lit (ustr "**")];
    seqs [Cls (chr "["); Plus dot; lit (ustr "]("); Plus dot; Cls (chr ")")] ].

Definition detect_format (text : str) : str :=
  if existsb (fun p => matches p text) html_patterns then ustr "html"
  else if existsb (fun p => matches p text) markdown_patterns then ustr "markdown"
  else ustr "plain".

(** *** [convert_to_markdown] *)

(** [(?i)\b(k1|k2|...)\b] *)
Definition keyword_re (kws : list string) : regex :=
  seqs [Bnd; Grp 1 (alts (map (fun k => lit_i (ustr k)) kws)); Bnd].

Definition mapping : list (list string * str) :=
  [ (["job description"; "overview"; "summary"], ustr "## Job Description");
    (["responsibilities"; "duties"; "tasks"], ustr "## Responsibilities");
    (["qualifications"; "required skills"; "requirements"], ustr "## Qualifications");
    (["preferred"; "nice to have"], ustr "## Preferred Qualifications");
    (["education"], ustr "## Education");
    (["experience"], ustr "## Experience");
    (["salary"; "compensation"; "pay"], ustr "## Compensation");
    (["location"; "work location"], ustr "## Location");
    (["about us"; "company overview"], ustr "## About Us");
    (["benefits"; "perks"; "what we offer"], ustr "## Benefits") ]%string.

Section Markdownify.
(** [markdownify(text, heading_style="ATX", bullets="•")], a library. *)
Variable md : str -> str.

Definition convert_to_markdown (text : str) : str :=
  let fmt := detect_format text in
  let text := if str_eqb fmt (ustr "html") then md text else text in
  let text :=
    fold_left (fun t pr => sub (keyword_re (fst pr)) (snd pr) t)
              mapping text in
  strip text.
End Markdownify.

(** *** [heuristic_extract] *)

Definition digit (c : N) : bool := in_range 48 57 c.
Definition digit_or_comma (c : N) : bool := digit c || (c =? 44).
Definition upper (c : N) : bool := in_range 65 90 c.
Definition lower (c : N) : bool := in_range 97 122 c.

(** [\$([0-9,]+)\s*-\s*\$?([0-9,]+)] *)
Definition re_salary : regex :=
  seqs [Cls (chr "$"); Grp 1 (Plus digit_or_comma); Rep py_isspace;
        Cls (chr "-"); Rep py_isspace; Opt (chr "$");
        Grp 2 (Plus digit_or_comma)].

(** [([A-Z][a-z]+,\s*[A-Z]{2})] *)
Definition re_location : regex :=
  Grp 1 (seqs [Cls upper; Plus lower; Cls (chr ","); Rep py_isspace;
               Cls upper; Cls upper]).

(** [(?i)(no sponsorship|not offer sponsorship|OPT|CPT)] *)
Definition re_visa : regex :=
  Grp 1 (alts (map lit_i [ustr "no sponsorship"; ustr "not offer sponsorship";
                          ustr "OPT"; ustr "CPT"])).

(** [(?i)(remote|hybrid|on-site)] *)
Definition re_remote : regex :=
  Grp 1 (alts (map lit_i [ustr "remote"; ustr "hybrid"; ustr "on-site"])).

Definition group_or_empty (n : nat) (g : groups) : str :=
  match group n g with Some s => s | None => [] end.

Definition int_of_digits (s : str) : Z :=
  fold_left (fun acc c => (10 * acc + (Z.of_N c - 48))%Z) s 0%Z.

(** [int(s)] for the strings it is given here, which hold nothing but the
    digits [0]..[9]: the empty string is refused, and so is one of more
    than 4300 digits (the interpreter's limit on conversions). *)
Definition py_int (s : str) : result Z :=
  match s with
  | [] => Raise (Exn "ValueError" (ustr "invalid literal for int() with base 10: ''"))
  | _ :: _ =>
      if negb (forallb digit s) then
        Raise (Exn "ValueError" (ustr "invalid literal for int() with base 10"))
      else if (4300 <? length s)%nat then
        Raise (Exn "ValueError"
                   (ustr "Exceeds the limit (4300 digits) for integer string conversion"))
      else Ok (int_of_digits s)
  end.

(** Lower case of one character: exact on ASCII and on the three other
    letters a match of [re_remote] can hold (U+0130 becomes [i] and a
    combining dot, U+0131 and U+017F are lower case already). *)
Definition lower_char (c : N) : str :=
  if c =? 0x130 then [105; 0x307] else [ascii_lower c].

(** [s.capitalize()] on such strings. *)
Definition capitalize (s : str) : str :=
  match s with
  | [] => []
  | c :: s' => ascii_upper c :: flat_map lower_char s'
  end.

Definition heuristic_extract (text : str) : result pydict :=
  let info : pydict := [] in
  (info <-
     match search re_salary text with
     | Some salary =>
         lo <- py_int (str_replace (ustr ",") [] (group_or_empty 1 salary)) ;;
         let info := dict_set (ustr "salary_min") (VInt lo) info in
         hi <- py_int (str_replace (ustr ",") [] (group_or_empty 2 salary)) ;;
         let info := dict_set (ustr "salary_max") (VInt hi) info in
         Ok (dict_set (ustr "currency") (VStr (ustr "USD")) info)
     | None => Ok info
     end ;;
   let info :=
     match search re_location text with
     | Some loc => dict_set (ustr "location") (VStr (group_or_empty 1 loc)) info
     | None => info
     end in
   let visa := search re_visa text in
   let info :=
     dict_set (ustr "visa_sponsorship")
              (VBool (negb (match visa with Some _ => true | None => false end)))
              info in
   let info :=
     match search re_remote text with
     | Some remote =>
         dict_set (ustr "remote_hybrid")
                  (VStr (capitalize (group_or_empty 1 remote))) info
     | None => info
     end in
   Ok info)%result.

(** *** [parse_with_gpt5] and [run] *)

(** A chat completion: the [message.content] of each of its [choices],
    [None] for a null content. *)
Record response : Type := { choices : list (option str) }.

(** What [parse_with_gpt5] does to the outside: a request to a model, a
    Streamlit message. *)
Inductive event : Type :=
| EvChat (model system_msg user_msg : str)
| EvSt (e : st_event).

Definition schema : value :=
  let s := VStr (ustr "string") in
  let n := VStr (ustr "number") in
  let b := VStr (ustr "boolean") in
  VDict
    [ (ustr "position_title", s);
      (ustr "company", s);
      (ustr "location",
        VDict [(ustr "regions", VList [s]); (ustr "remote_hybrid", s)]);
      (ustr "salary",
        VDict [(ustr "min", n); (ustr "max", n); (ustr "currency", s)]);
      (ustr "employment_type", s);
      (ustr "responsibilities", VList [s]);
      (ustr "required_qualifications",
        VDict [(ustr "education", s); (ustr "experience", s);
               (ustr "core_skills", VList [s]);
               (ustr "technical_tools", VList [s]);
               (ustr "soft_skills", VList [s])]);
      (ustr "preferred_qualifications",
        VDict [(ustr "skills", VList [s]); (ustr "experience", s)]);
      (ustr "application_deadline", s);
      (ustr "start_date", s);
      (ustr "visa_sponsorship", b);
      (ustr "relocation_assistance", b);
      (ustr "industry_keywords", VList [s]) ].

(** [for k, v in heuristics.items(): if k not in parsed or not parsed[k]:
    parsed[k] = v], one entry. *)
Definition merge_entry (parsed : value) (kv : str * value) : result value :=
  (present <- py_contains (fst kv) parsed ;;
   if negb present then py_setitem parsed (fst kv) (snd kv)
   else
     item <- py_getitem parsed (fst kv) ;;
     if negb (truthy item) then py_setitem parsed (fst kv) (snd kv)
     else Ok parsed)%result.

Fixpoint merge_heuristics (parsed : value) (items : pydict) : result value :=
  match items with
  | [] => Ok parsed
  | kv :: rest =>
      match merge_entry parsed kv with
      | Ok parsed' => merge_heuristics parsed' rest
      | Raise e => Raise e
      end
  end.

Section Inference.
(** [markdownify(text, heading_style="ATX", bullets="•")]. *)
Variable md : str -> str.
(** [json.dumps(v, indent=2)] and [json.loads]. *)
Variable json_dumps_indent : value -> str.
Variable json_loads : str -> result value.
(** [client.chat.completions.create] for a model, a system message
    and a user message. *)
Variable chat_create : str -> str -> str -> result response.

Definition system_msg : str :=
  ustr "You are a precise AI parser. Extract structured job information and return a single valid JSON matching this schema:"
  ++ [10] ++ json_dumps_indent schema.

Definition user_msg (markdown_text : str) (heuristics : pydict) : str :=
  [10] ++ ustr "Heuristic pre-extracted info:" ++ [10]
  ++ json_dumps_indent (VDict heuristics) ++ [10; 10]
  ++ ustr "Job Description (Markdown):" ++ [10] ++ markdown_text ++ [10].

(** The body of the [try]: [Ok None] is the [continue] on an empty
    content, [Raise] whatever the [except] clause catches. *)
Definition attempt (model user : str) : result (option value) :=
  (rsp <- chat_create model system_msg user ;;
   content <-
     match choices rsp with
     | [] => Raise (Exn "IndexError" (ustr "list index out of range"))
     | None :: _ =>
         Raise (Exn "AttributeError"
                    (ustr "'NoneType' object has no attribute 'strip'"))
     | Some c :: _ => Ok (strip c)
     end ;;
   if negb (str_truthy content) then Ok None
   else
     parsed <- json_loads content ;;
     Ok (Some parsed))%result.

(** [for model in models: ...], then the final [st.error] and [{}]. *)
Fixpoint try_models (models : list str) (user : str) : value * list event :=
  match models with
  | [] =>
      (VDict [],
       [EvSt (StError ([0x274C; 32] ++ ustr "No valid response from GPT models."))])
  | model :: rest =>
      let call := EvChat model system_msg user in
      match attempt model user with
      | Ok (Some parsed) =>
          (parsed,
           [call; EvSt (StInfo ([0x2705; 32] ++ ustr "Parsed using " ++ model))])
      | Ok None =>
          let '(v, l) := try_models rest user in (v, call :: l)
      | Raise e =>
          let '(v, l) := try_models rest user in
          (v, call :: EvSt (StWarning (model ++ ustr " failed: " ++ exn_str e)) :: l)
      end
  end.

Definition models : list str := [ustr "gpt-5"; ustr "gpt-4o"].

Definition parse_with_gpt5 (markdown_text : str) (heuristics : pydict)
  : value * list event :=
  try_models models (user_msg markdown_text heuristics).

Definition run (jd_text : str) : result (value * str) * list event :=
  let cleaned := clean_text (Some jd_text) in
  let md_text := convert_to_markdown md cleaned in
  match heuristic_extract cleaned with
  | Raise e => (Raise e, [])
  | Ok heuristics =>
      let '(parsed, log) := parse_with_gpt5 md_text heuristics in
      match merge_heuristics parsed heuristics with
      | Ok merged => (Ok (merged, md_text), log)
      | Raise e => (Raise e, log)
      end
  end.
End Inference.

End Parser.

(* ================================================================== *)
(** ** [app2_notion_uploader_v3.py] *)
(* ================================================================== *)

(** Decimal notation of an integer. *)
Definition str_of_Z (z : Z) : str := ustr (NilZero.string_of_int (Z.to_int z)).

(** *** What the uploader asks of a value *)

Definition attribute_error (msg : string) : exn := Exn "AttributeError" (ustr msg).

(** [v.get(k, default)]: only a [dict] has the method. *)
Definition py_get (v : value) (k : str) (default : value) : result value :=
  match v with
  | VDict d => Ok (match dict_get k d with Some x => x | None => default end)
  | _ => Raise (attribute_error "object has no attribute 'get'")
  end.

(** [v[:n]]. *)
Definition py_slice (v : value) (n : nat) : result value :=
  match v with
  | VStr s => Ok (VStr (firstn n s))
  | VList l => Ok (VList (firstn n l))
  | _ => Raise (type_error "object is not subscriptable")
  end.

(** [v[0]]. *)
Definition py_first (v : value) : result value :=
  match v with
  | VList (x :: _) => Ok x
  | VList [] => Raise (Exn "IndexError" (ustr "list index out of range"))
  | VStr (c :: _) => Ok (VStr [c])
  | VStr [] => Raise (Exn "IndexError" (ustr "string index out of range"))
  | VDict _ => Raise (Exn "KeyError" (ustr "0"))
  | _ => Raise (type_error "object is not subscriptable")
  end.

(** [for x in v]: the elements of a list, the characters of a string, the
    keys of a dict. *)
Definition py_iter (v : value) : result (list value) :=
  match v with
  | VList l => Ok l
  | VStr s => Ok (map (fun c => VStr [c]) s)
  | VDict d => Ok (map (fun kv => VStr (fst kv)) d)
  | _ => Raise (type_error "object is not iterable")
  end.

Definition as_str (v : value) : result str :=
  match v with
  | VStr s => Ok s
  | _ => Raise (type_error "sequence item: expected str instance")
  end.

(** [sep.join(v)]. *)
Definition py_join (sep : str) (v : value) : result str :=
  (items <- py_iter v ;;
   parts <- mapM as_str items ;;
   Ok (str_join sep parts))%result.

(** [r.replace(',', '')]: only a [str] has the method here. *)
Definition py_drop_commas (r : value) : result value :=
  match r with
  | VStr s => Ok (VStr (str_replace (ustr ",") [] s))
  | _ => Raise (attribute_error "object has no attribute 'replace'")
  end.

Module Uploader.

(** [hash_job_text(text, company)] for two strings. *)
Definition hash_job_text (text company : str) : result str :=
  let base := company ++ ustr "_" ++ text in
  (bytes <- Utf8.encode base ;;
   Ok (firstn 16 (Sha256.hexdigest bytes)))%result.

(** [get_first_page_id(query_result)] *)
Definition get_first_page_id (query_result : value) : result value :=
  if negb (truthy query_result) then Ok VNone
  else
    (has <- py_contains (ustr "results") query_result ;;
     if negb has then Ok VNone
     else
       results <- py_getitem query_result (ustr "results") ;;
       if negb (truthy results) then Ok VNone
       else
         first <- py_first results ;;
         py_getitem first (ustr "id"))%result.

(** [{kind: [{"text": {"content": content}}]}] *)
Definition text_prop (kind : string) (content : value) : value :=
  VDict [(ustr kind,
          VList [VDict [(ustr "text", VDict [(ustr "content", content)])]])].

(** [{"multi_select": [{"name": x} for x in xs]}] *)
Definition multi_select (xs : list value) : value :=
  VDict [(ustr "multi_select",
          VList (map (fun x => VDict [(ustr "name", x)]) xs))].

(** [{"relation": [{"id": page_id}]}] *)
Definition relation (page_id : value) : value :=
  VDict [(ustr "relation", VList [VDict [(ustr "id", page_id)]])].

(** The name of the property that holds the fingerprint. *)
Definition fingerprint_key : str := ustr "Hash / Fingerprint".

(** What [save_to_notion] does to the outside, in order. *)
Inductive event : Type :=
| EvQuery (db_id : str) (filter_obj : value)
| EvUpdate (page_id properties : value)
| EvCreate (parent properties : value)
| EvSt (e : st_event).

Definition is_write (ev : event) : bool :=
  match ev with
  | EvUpdate _ _ | EvCreate _ _ => true
  | EvQuery _ _ | EvSt _ => false
  end.

(** The three ways [save_to_notion] ends: the bare [return] after the
    duplicate warning, the [return] of the new job's id, the exception
    raised again by the [except] clause. *)
Inductive outcome : Type :=
| Duplicate
| Saved (job_id : value)
| Failed (e : exn).

(** The answer to a [requests.post]. *)
Record http_response : Type := {
  status_code : Z;
  text : str;
  json : result value }.

Section Notion.
(** The environment: the token and the three database ids. *)
Variables NOTION_API_KEY DB_JOBS DB_ROLE_TEMPLATE DB_COMPANIES : str.
(** [str(v)] for a value that is not a string, and
    [json.dumps(v, ensure_ascii=False)]. *)
Variable py_str : value -> str.
Variable json_dumps : value -> str.

(** The record store and the clock, as the state [World] of everything
    outside the program:
    [requests.post(f"https://api.notion.com/v1/databases/{db_id}/query",
    headers=headers, json=body)], [notion.pages.update],
    [notion.pages.create], and [datetime.datetime.utcnow()] formatted
    with [strftime("%Y-%m-%d")] and with [isoformat()]. *)
Variable World : Type.
Variable requests_post_query :
  str -> value -> value -> World -> result http_response * World.
Variable pages_update : value -> value -> World -> result unit * World.
Variable pages_create : value -> value -> World -> result value * World.
Variable utcnow_date : World -> str.
Variable utcnow_iso : World -> str.

(** [f"{v}"] *)
Definition format_value (v : value) : str :=
  match v with
  | VStr s => s
  | _ => py_str v
  end.

(** The state threaded through the program: the world and the trace of
    what was done to it. *)
Definition state : Type := World * list event.

Definition M (A : Type) : Type := state -> result A * state.

Definition ret {A} (a : A) : M A := fun s => (Ok a, s).
Definition lift {A} (r : result A) : M A := fun s => (r, s).
Definition bindM {A B} (m : M A) (k : A -> M B) : M B :=
  fun s =>
    match m s with
    | (Ok a, s') => k a s'
    | (Raise e, s') => (Raise e, s')
    end.
Definition emit (ev : event) : M unit :=
  fun s => (Ok tt, (fst s, snd s ++ [ev])).
Definition clock (read : World -> str) : M str :=
  fun s => (Ok (read (fst s)), s).

Notation "x <- m ;; k" := (bindM m (fun x => k))
  (at level 61, m at next level, right associativity).
Notation "m ;;; k" := (bindM m (fun _ => k))
  (at level 61, right associativity).

Definition query_headers : value :=
  VDict [(ustr "Authorization", VStr (ustr "Bearer " ++ NOTION_API_KEY));
         (ustr "Notion-Version", VStr (ustr "2022-06-28"));
         (ustr "Content-Type", VStr (ustr "application/json"))].

Definition query_body (filter_obj : value) : value :=
  VDict [(ustr "filter", filter_obj)].

(** [notion_query(db_id, filter_obj)] *)
Definition notion_query (db_id : str) (filter_obj : value) : M value :=
  let headers := query_headers in
  let body := query_body filter_obj in
  emit (EvQuery db_id filter_obj) ;;;
  res <- (fun s =>
            let '(r, w) := requests_post_query db_id headers body (fst s) in
            (r, (w, snd s))) ;;
  if negb (status_code res =? 200)%Z then
    lift (Raise (Exn "RuntimeError"
            ([0x274C; 32] ++ ustr "Notion query failed: "
             ++ str_of_Z (status_code res) ++ [32; 0x2014; 32] ++ text res)))
  else lift (json res).

Definition update_page (page_id properties : value) : M unit :=
  emit (EvUpdate page_id properties) ;;;
  (fun s =>
     let '(r, w) := pages_update page_id properties (fst s) in
     (r, (w, snd s))).

Definition create_page (database_id : str) (properties : value) : M value :=
  let parent := VDict [(ustr "database_id", VStr database_id)] in
  emit (EvCreate parent properties) ;;;
  (fun s =>
     let '(r, w) := pages_create parent properties (fst s) in
     (r, (w, snd s))).

Definition st (e : st_event) : M unit := emit (EvSt e).

(** [json.dumps(parsed, ensure_ascii=False)[:1900]] *)
Definition snapshot (parsed : value) : value :=
  VStr (firstn 1900 (json_dumps parsed)).

Definition bullets (v : value) : result value :=
  (joined <- py_join [10; 0x2022; 32] v ;;
   Ok (VStr ([10; 0x2022; 32] ++ joined)))%result.

(** [build_job_props(parsed, jd_text, source_url, job_hash)] *)
Definition build_job_props (parsed : value) (jd_text source_url job_hash : str)
  : M value :=
  title <- lift (py_get parsed (ustr "position_title") (VStr (ustr "Untitled Job"))) ;;
  company <- lift (py_get parsed (ustr "company") (VStr (ustr "Unknown Company"))) ;;
  today <- clock utcnow_date ;;
  ret (VDict
    [ (ustr "Job Title", text_prop "title" title);
      (ustr "Company", text_prop "rich_text" company);
      (ustr "Job Description", text_prop "rich_text" (VStr (firstn 1900 jd_text)));
      (ustr "Parsed Snapshot", text_prop "rich_text" (snapshot parsed));
      (ustr "Source URL",
        VDict [(ustr "url",
                if str_truthy source_url then VStr source_url else VNone)]);
      (fingerprint_key, text_prop "rich_text" (VStr job_hash));
      (ustr "Date Collected",
        VDict [(ustr "date", VDict [(ustr "start", VStr today)])]);
      (ustr "Status",
        VDict [(ustr "select", VDict [(ustr "name", VStr (ustr "Parsed"))])]) ]).

(** [build_role_props(parsed)] *)
Definition build_role_props (parsed : value) : M value :=
  skills <- lift (py_get parsed (ustr "required_preferred_skills") (VDict [])) ;;
  title <- lift (py_get parsed (ustr "position_title") (VStr (ustr "Untitled Role"))) ;;
  func <- lift (py_get parsed (ustr "function") (VStr [])) ;;
  core <- lift (x <- py_get skills (ustr "core_competencies") (VList []) ;; bullets x)%result ;;
  resp <- lift (x <- py_get parsed (ustr "responsibilities") (VList []) ;; bullets x)%result ;;
  level <- lift (py_get parsed (ustr "experience_level") (VStr [])) ;;
  tools <- lift (x <- py_get skills (ustr "tools_technologies") (VList []) ;; bullets x)%result ;;
  industry <- lift (x <- py_get parsed (ustr "industry_keywords") (VList []) ;;
                    j <- py_join (ustr ", ") x ;; Ok (VStr j))%result ;;
  ats <- lift (x <- py_get parsed (ustr "ats_triggers") (VList []) ;; py_iter x)%result ;;
  regions <- lift (loc <- py_get parsed (ustr "location") (VDict []) ;;
                   x <- py_get loc (ustr "regions") (VList [VStr (ustr "Global")]) ;;
                   rs <- py_iter x ;;
                   mapM py_drop_commas rs)%result ;;
  soft <- lift (x <- py_get skills (ustr "soft") (VList []) ;; py_iter x)%result ;;
  company <- lift (py_get parsed (ustr "company") (VStr (ustr "Unknown Company"))) ;;
  now <- clock utcnow_iso ;;
  ret (VDict
    [ (ustr "Role Title", text_prop "title" title);
      (ustr "Function", text_prop "rich_text" func);
      (ustr "Core Competencies", text_prop "rich_text" core);
      (ustr "Responsibility", text_prop "rich_text" resp);
      (ustr "Role Requirements", text_prop "rich_text" level);
      (ustr "Technical Tools", text_prop "rich_text" tools);
      (ustr "Industry ID", text_prop "rich_text" industry);
      (ustr "ATS Keywords", multi_select ats);
      (ustr "Regions", multi_select regions);
      (ustr "Soft Skills", multi_select soft);
      (ustr "Target Companies", multi_select [company]);
      (ustr "last_parsed_date",
        VDict [(ustr "date", VDict [(ustr "start", VStr now)])]);
      (ustr "parsed_json", text_prop "rich_text" (snapshot parsed)) ]).

(** [build_company_props(parsed)] *)
Definition build_company_props (parsed : value) : M value :=
  name <- lift (py_get parsed (ustr "company") (VStr (ustr "Unknown Company"))) ;;
  industry <- lift (x <- py_get parsed (ustr "industry_keywords") (VList []) ;; py_iter x)%result ;;
  visa <- lift (py_get parsed (ustr "visa_citizenship_notes") (VStr [])) ;;
  culture <- lift (py_get parsed (ustr "culture") (VStr [])) ;;
  focus <- lift (py_get parsed (ustr "company_focus") (VStr [])) ;;
  now <- clock utcnow_iso ;;
  ret (VDict
    [ (ustr "Name", text_prop "title" name);
      (ustr "Industry", multi_select industry);
      (ustr "Visa Policy", text_prop "rich_text" visa);
      (ustr "Culture / Values", text_prop "rich_text" culture);
      (ustr "Hiring Focus", text_prop "rich_text" focus);
      (ustr "Last Parsed Date",
        VDict [(ustr "date", VDict [(ustr "start", VStr now)])]);
      (ustr "parsed_json", text_prop "rich_text" (snapshot parsed)) ]).

Definition fingerprint_filter (job_hash : str) : value :=
  VDict [(ustr "property", VStr fingerprint_key);
         (ustr "rich_text", VDict [(ustr "equals", VStr job_hash)])].

Definition title_filter (property : string) (needle : value) : value :=
  VDict [(ustr "property", VStr (ustr property));
         (ustr "title", VDict [(ustr "contains", needle)])].

Definition duplicate_warning : st_event :=
  StWarning (ustr "Warning: Duplicate detected. Job already exists in Notion.").

(** The body of the [try]: [None] is the bare [return], [Some id] the
    [return new_job["id"]]. *)
Definition save_body (parsed : value) (jd_text source_url : str)
  : M (option value) :=
  company <- lift (py_get parsed (ustr "company") (VStr (ustr "Unknown Company"))) ;;
  job_hash <- lift (hash_job_text jd_text (format_value company)) ;;
  (* Deduplication *)
  q <- notion_query DB_JOBS (fingerprint_filter job_hash) ;;
  results <- lift (py_get q (ustr "results") VNone) ;;
  if truthy results then
    st duplicate_warning ;;;
    ret None
  else
    (* Company *)
    needle <- lift (py_slice company 60) ;;
    q_company <- notion_query DB_COMPANIES (title_filter "Name" needle) ;;
    company_props <- build_company_props parsed ;;
    company_page_id <- lift (get_first_page_id q_company) ;;
    company_page_id <-
      (if truthy company_page_id then
         update_page company_page_id company_props ;;;
         st (StInfo ([0x1F501; 32] ++ ustr "Updated company record: "
                     ++ format_value company)) ;;;
         ret company_page_id
       else
         new_company <- create_page DB_COMPANIES company_props ;;
         id <- lift (py_getitem new_company (ustr "id")) ;;
         st (StSuccess ([0x2705; 32] ++ ustr "Created new company record: "
                        ++ format_value company)) ;;;
         ret id) ;;
    (* Role Template *)
    title <- lift (py_get parsed (ustr "position_title") (VStr [])) ;;
    needle <- lift (py_slice title 60) ;;
    q_role <- notion_query DB_ROLE_TEMPLATE (title_filter "Role Title" needle) ;;
    role_props <- build_role_props parsed ;;
    role_props <- lift (py_setitem role_props (ustr "Parsed Company")
                                   (relation company_page_id)) ;;
    role_page_id <- lift (get_first_page_id q_role) ;;
    role_page_id <-
      (if truthy role_page_id then
         update_page role_page_id role_props ;;;
         shown <- lift (py_get parsed (ustr "position_title") VNone) ;;
         st (StInfo ([0x1F501; 32] ++ ustr "Updated role template: "
                     ++ format_value shown)) ;;;
         ret role_page_id
       else
         new_role <- create_page DB_ROLE_TEMPLATE role_props ;;
         id <- lift (py_getitem new_role (ustr "id")) ;;
         shown <- lift (py_get parsed (ustr "position_title") VNone) ;;
         st (StSuccess ([0x2705; 32] ++ ustr "Created new role template: "
                        ++ format_value shown)) ;;;
         ret id) ;;
    (* JOB Entry *)
    job_props <- build_job_props parsed jd_text source_url job_hash ;;
    job_props <- lift (py_setitem job_props (ustr "Parsed Role Template")
                                  (relation role_page_id)) ;;
    job_props <- lift (py_setitem job_props (ustr "Parsed Company")
                                  (relation company_page_id)) ;;
    new_job <- create_page DB_JOBS job_props ;;
    st (StSuccess ([0x1F9E0; 32] ++ ustr "Job successfully saved to Notion.")) ;;;
    id <- lift (py_getitem new_job (ustr "id")) ;;
    ret (Some id).

(** [save_to_notion(parsed, jd_text, source_url)]: the [except] clause
    reports the exception and raises it again. *)
Definition save_to_notion (parsed : value) (jd_text source_url : str)
  (s : state) : outcome * state :=
  match save_body parsed jd_text source_url s with
  | (Ok None, s') => (Duplicate, s')
  | (Ok (Some id), s') => (Saved id, s')
  | (Raise e, s') =>
      (Failed e,
       (fst s', snd s' ++
          [EvSt (StError ([0x274C; 32] ++ ustr "Save failed: " ++ exn_str e))]))
  end.

(** A step that leaves the fingerprints of the store alone: a query, a
    write whose properties hold no fingerprint, a message. *)
Inductive quiet_step : state -> state -> Prop :=
| quiet_query s db_id filter_obj r w :
    requests_post_query db_id query_headers (query_body filter_obj) (fst s) = (r, w) ->
    quiet_step s (w, snd s ++ [EvQuery db_id filter_obj])
| quiet_update s page_id d w :
    dict_get fingerprint_key d = None ->
    pages_update page_id (VDict d) (fst s) = (Ok tt, w) ->
    quiet_step s (w, snd s ++ [EvUpdate page_id (VDict d)])
| quiet_create s parent d page w :
    dict_get fingerprint_key d = None ->
    pages_create parent (VDict d) (fst s) = (Ok page, w) ->
    quiet_step s (w, snd s ++ [EvCreate parent (VDict d)])
| quiet_st s e :
    quiet_step s (fst s, snd s ++ [EvSt e]).

Inductive quiet : state -> state -> Prop :=
| quiet_nil s : quiet s s
| quiet_cons s1 s2 s3 : quiet_step s1 s2 -> quiet s2 s3 -> quiet s1 s3.

End Notion.

End Uploader.

(* ================================================================== *)
(** ** A reference record store *)
(* ================================================================== *)

Module RefStore.
Import Uploader.

(** Modelled from the spec: the record store is an external service, of
    which the specification (section 6) fixes the interface: collections of
    records that get their identifier when they are created, a query that
    returns the records of a collection matching a filter (exact match on a
    rich-text field, substring on a title field), [create] and [update].
    A record here is a page with the database it belongs to and its
    properties. *)
Record page : Type := {
  page_id : str;
  page_parent : str;
  page_props : pydict }.

Record store : Type := {
  pages : list page;
  next_id : nat }.

(** [props[name][kind][0]["text"]["content"]], when it is a string. *)
Definition prop_content (kind : string) (props : pydict) (name : str)
  : option str :=
  match dict_get name props with
  | Some (VDict p) =>
      match dict_get (ustr kind) p with
      | Some (VList (VDict item :: _)) =>
          match dict_get (ustr "text") item with
          | Some (VDict t) =>
              match dict_get (ustr "content") t with
              | Some (VStr c) => Some c
              | _ => None
              end
          | _ => None
          end
      | _ => None
      end
  | _ => None
  end.

(** A filter [{"property": name, "rich_text": {"equals": x}}] or
    [{"property": name, "title": {"contains": x}}] as a test on
    properties; [None] for anything else. *)
Definition filter_test (filter_obj : value) : option (pydict -> bool) :=
  match filter_obj with
  | VDict f =>
      match dict_get (ustr "property") f with
      | Some (VStr name) =>
          match dict_get (ustr "rich_text") f, dict_get (ustr "title") f with
          | Some (VDict c), _ =>
              match dict_get (ustr "equals") c with
              | Some (VStr x) =>
                  Some (fun props =>
                          match prop_content "rich_text" props name with
                          | Some c => str_eqb c x
                          | None => false
                          end)
              | _ => None
              end
          | None, Some (VDict c) =>
              match dict_get (ustr "contains") c with
              | Some (VStr x) =>
                  Some (fun props =>
                          match prop_content "title" props name with
                          | Some c => contains x c
                          | None => false
                          end)
              | _ => None
              end
          | _, _ => None
          end
      | _ => None
      end
  | _ => None
  end.

Definition page_json (p : page) : value :=
  VDict [(ustr "id", VStr (page_id p)); (ustr "properties", VDict (page_props p))].

(** Modelled from the spec: [query(collection, filter)], the list of the
    matching records; a filter that is not understood is answered with
    status 400. *)
Definition requests_post_query (db_id : str) (headers body : value) (s : store)
  : result http_response * store :=
  let bad :=
    {| status_code := 400; text := ustr "validation_error";
       json := Ok (VDict [(ustr "object", VStr (ustr "error"))]) |} in
  match body with
  | VDict b =>
      match dict_get (ustr "filter") b with
      | Some f =>
          match filter_test f with
          | Some test =>
              let found :=
                filter (fun p => str_eqb (page_parent p) db_id && test (page_props p))
                       (pages s) in
              (Ok {| status_code := 200; text := [];
                     json := Ok (VDict [(ustr "results", VList (map page_json found))]) |},
               s)
          | None => (Ok bad, s)
          end
      | None => (Ok bad, s)
      end
  | _ => (Ok bad, s)
  end.

Definition fresh_id (n : nat) : str :=
  ustr "page-" ++ ustr (NilZero.string_of_uint (Nat.to_uint n)).

Definition api_error : exn := Exn "APIResponseError" (ustr "validation_error").

(** Modelled from the spec: [create(collection, parent, properties)], which
    assigns the identifier of the new record. *)
Definition pages_create (parent properties : value) (s : store)
  : result value * store :=
  match parent, properties with
  | VDict [(key, VStr db)], VDict props =>
      if str_eqb key (ustr "database_id") then
        let p := {| page_id := fresh_id (next_id s); page_parent := db;
                    page_props := props |} in
        (Ok (page_json p), {| pages := pages s ++ [p]; next_id := S (next_id s) |})
      else (Raise api_error, s)
  | _, _ => (Raise api_error, s)
  end.

Definition set_props (props : pydict) (p : page) : page :=
  {| page_id := page_id p; page_parent := page_parent p;
     page_props := fold_left (fun d kv => dict_set (fst kv) (snd kv) d)
                             props (page_props p) |}.

(** Modelled from the spec: [update(record_id, properties)], which sets
    the given properties of the record and leaves its other ones. *)
Definition pages_update (id properties : value) (s : store)
  : result unit * store :=
  match id, properties with
  | VStr i, VDict props =>
      if existsb (fun p => str_eqb (page_id p) i) (pages s) then
        (Ok tt,
         {| pages := map (fun p => if str_eqb (page_id p) i then set_props props p else p)
                         (pages s);
            next_id := next_id s |})
      else (Raise api_error, s)
  | _, _ => (Raise api_error, s)
  end.

Definition utcnow_date (_ : store) : str := ustr "1970-01-01".
Definition utcnow_iso (_ : store) : str := ustr "1970-01-01T00:00:00".

(** The page is a Job record that carries the fingerprint [h]. *)
Definition carries (db_jobs h : str) (p : page) : bool :=
  str_eqb (page_parent p) db_jobs &&
  match prop_content "rich_text" (page_props p) fingerprint_key with
  | Some c => str_eqb c h
  | None => false
  end.

(** The Job records of the store that carry the fingerprint [h]. *)
Definition jobs_with (db_jobs h : str) (s : store) : list page :=
  filter (carries db_jobs h) (pages s).

(** [save_to_notion] against the reference store. *)
Definition save (key db_jobs db_roles db_companies : str)
    (py_str json_dumps : value -> str) :=
  save_to_notion key db_jobs db_roles db_companies py_str json_dumps
                 store requests_post_query pages_update pages_create
                 utcnow_date utcnow_iso.

End RefStore.

(* ================================================================== *)
(** ** What the properties are stated with *)
(* ================================================================== *)

Module Canon.
Import Re Parser.

(** One white-space run becomes one space. *)
Fixpoint collapse (inrun : bool) (s : str) : str :=
  match s with
  | [] => []
  | c :: s' =>
      if py_isspace c then
        if inrun then collapse true s' else 32 :: collapse true s'
      else c :: collapse false s'
  end.

Inductive pending : Type := Start | Pend | NoPend.

Definition after_space (q : pending) : pending :=
  match q with Start => Start | _ => Pend end.
Definition space_of (q : pending) : str :=
  match q with Pend => [32] | _ => [] end.

(** The words of [s], one space between two of them. *)
Fixpoint wcanon (q : pending) (s : str) : str :=
  match s with
  | [] => []
  | c :: s' =>
      if py_isspace c then wcanon (after_space q) s'
      else space_of q ++ c :: wcanon NoPend s'
  end.

Definition fold_char (c : N) : N :=
  if (c =? 0x2013) || (c =? 0x2014) then 45 else c.

(** The same on the text before the replacements. *)
Fixpoint canon (q : pending) (s : str) : str :=
  match s with
  | [] => []
  | c :: s' =>
      if py_isspace c then canon (after_space q) s'
      else space_of q ++ fold_char c
             :: canon (if c =? bullet then Pend else NoPend) s'
  end.

(** What the replacements make of one character. *)
Definition replace_char (c : N) : str :=
  if (c =? 0x2013) || (c =? 0x2014) then [45]
  else if c =? bullet then [bullet; 32]
  else if c =? 0xA0 then [32]
  else [c].

(** The states in which [canon] can read again what it wrote in state [q]. *)
Definition compatible (q q' : pending) : Prop :=
  match q with
  | Start => q' = Start
  | NoPend => q' = NoPend
  | Pend => q' <> Start
  end.
End Canon.

Module Keywords.
Import Re Parser.

(** The character before the position reached after [s], when [prev] was
    the one before [s]. *)
Definition last_opt (prev : option N) (s : str) : option N :=
  fold_left (fun _ c => Some c) s prev.

(** [kw], a literal under [re.I], matches a prefix of [s]. *)
Fixpoint ci_prefix (kw s : str) : bool :=
  match kw, s with
  | [], _ => true
  | p :: kw', c :: s' => ci_eq p c && ci_prefix kw' s'
  | _ :: _, [] => false
  end.

(** The first of the keywords that matches at the head of [s] and ends on a
    word boundary: its length. *)
Fixpoint find_kw (kws : list str) (prev : option N) (s : str) : option nat :=
  match kws with
  | [] => None
  | kw :: kws' =>
      if ci_prefix kw s &&
         boundary (last_opt prev (firstn (length kw) s)) (skipn (length kw) s)
      then Some (length kw)
      else find_kw kws' prev s
  end.

(** The length of the match of [\b(k1|k2|...)\b] at the head of [s]. *)
Definition kw_len (kws : list str) (prev : option N) (s : str) : option nat :=
  if boundary prev s then find_kw kws prev s else None.

(** The length of the match of [r] at the head of [s]. *)
Definition match_len (r : regex) (prev : option N) (s : str) : option nat :=
  option_map (fun m => (length s - length (fst m))%nat) (match_here r prev s).

(** [r] matches at no position of [z], the text going on with [v]. *)
Fixpoint no_match_from (r : regex) (prev : option N) (z v : str) : Prop :=
  match z with
  | [] => True
  | c :: z' => match_len r prev (z ++ v) = None /\ no_match_from r (Some c) z' v
  end.

(** The word [kw], in any letter case, stands at the head of [s] between
    two word boundaries. *)
Definition word_at_i (kw : str) (prev : option N) (s : str) : bool :=
  boundary prev s && ci_prefix kw s &&
  boundary (last_opt prev (firstn (length kw) s)) (skipn (length kw) s).

(** ... somewhere in [s]. *)
Fixpoint has_word_i (kw : str) (prev : option N) (s : str) : bool :=
  word_at_i kw prev s ||
  match s with
  | [] => false
  | c :: s' => has_word_i kw (Some c) s'
  end.

(** [kw] occurs in [s], in any letter case. *)
Fixpoint contains_i (kw s : str) : bool :=
  ci_prefix kw s ||
  match s with
  | [] => false
  | _ :: s' => contains_i kw s'
  end.

Definition letter (p : N) : bool := in_range 97 122 (ascii_lower p).

(** A match of [kw] could run over a character that is not a word character
    and go on with a character that matches [r]. *)
Fixpoint crossable (r : N) (kw : str) : bool :=
  match kw with
  | [] => false
  | p :: kw' =>
      (negb (letter p) &&
       match kw' with
       | [] => true
       | q :: _ => ascii_lower q =? ascii_lower r
       end) || crossable r kw'
  end.

Definition starts_like (r : N) (kw : str) : bool :=
  match kw with
  | [] => true
  | q :: _ => ascii_lower q =? ascii_lower r
  end.

Definition keywords (kws : list string) : list str := map ustr kws.


(** No match that starts in [u] reaches [z]. *)
Definition no_cross (r : regex) (u z v : str) : Prop :=
  forall (x y : str) (prev : option N) (n : nat),
    u = y ++ x ->
    match_len r prev (x ++ z ++ v) = Some n -> (0 < n <= length x)%nat.

(** The patterns, the word and the heading of the second entry of [mapping]. *)
Definition nonempty (kw : str) : bool := match kw with [] => false | _ :: _ => true end.

Definition heading : str := ustr "## Responsibilities".

Definition the_word : str := ustr "responsibilities".

Definition first_keywords : list string := ["job description"; "overview"; "summary"]%string.

(** The text the substitutions are applied to. *)
Definition converted (md : str -> str) (text : str) : str :=
  if str_eqb (detect_format text) (ustr "html") then md text else text.

End Keywords.

Module Outcomes.
Import Parser.

(** An attempt that gave no parsed record: the request or [json.loads]
    raised, or the content was empty. *)
Definition attempt_fails (r : result (option value)) : Prop :=
  match r with
  | Ok (Some _) => False
  | Ok None | Raise _ => True
  end.

(** The models that were asked, in order. *)
Fixpoint calls (log : list event) : list str :=
  match log with
  | [] => []
  | EvChat model _ _ :: log' => model :: calls log'
  | EvSt _ :: log' => calls log'
  end.

(** One entry of the heuristics merged into a record. *)
Definition merged (h : str * value) (d : pydict) : pydict :=
  match dict_get (fst h) d with
  | None => dict_set (fst h) (snd h) d
  | Some x => if truthy x then d else dict_set (fst h) (snd h) d
  end.

End Outcomes.

Module MatchSem.
Import Re Keywords.

(** [bool(re.search(r, s))] from a position on. *)
Definition found (r : regex) (prev : option N) (s : str) : bool :=
  match search_from r prev s with Some _ => true | None => false end.

(** A match of [r]: from the position after [prev], in front of [s], with
    the groups [g], to the position after [prev'], in front of [s'], with
    the groups [g']. *)
Inductive derives : regex -> option N -> str -> groups ->
                    option N -> str -> groups -> Prop :=
| d_eps prev s g : derives Eps prev s g prev s g
| d_cls p prev c s g : p c = true -> derives (Cls p) prev (c :: s) g (Some c) s g
| d_seq r1 r2 prev s g prev1 s1 g1 prev2 s2 g2 :
    derives r1 prev s g prev1 s1 g1 -> derives r2 prev1 s1 g1 prev2 s2 g2 ->
    derives (Seq r1 r2) prev s g prev2 s2 g2
| d_alt_l r1 r2 prev s g prev' s' g' :
    derives r1 prev s g prev' s' g' -> derives (Alt r1 r2) prev s g prev' s' g'
| d_alt_r r1 r2 prev s g prev' s' g' :
    derives r2 prev s g prev' s' g' -> derives (Alt r1 r2) prev s g prev' s' g'
| d_rep p prev w s' g :
    forallb p w = true -> derives (Rep p) prev (w ++ s') g (last_opt prev w) s' g
| d_grp n r prev s g prev' s' g' :
    derives r prev s g prev' s' g' ->
    derives (Grp n r) prev s g prev' s' ((n, firstn (length s - length s') s) :: g')
| d_bnd prev s g : boundary prev s = true -> derives Bnd prev s g prev s g.

End MatchSem.

Module Fields.
Import Re.

(** The characters a Markdown pattern starts with: [#], [*] and [[]. *)
Definition md_first (c : N) : bool := (c =? 35) || (c =? 42) || (c =? 91).

(** A salary bound without its commas. *)
Definition no_commas (w : str) : str := flat_map (fun c => if c =? 44 then [] else [c]) w.

(** The phrases of the visa pattern and the words of the remote pattern. *)
Definition visa_phrases : list string :=
  ["no sponsorship"; "not offer sponsorship"; "OPT"; "CPT"]%string.

Definition remote_words : list str := [ustr "remote"; ustr "hybrid"; ustr "on-site"].

Definition is_ascii (c : N) : bool := c <? 128.

(** A digit of [hexdigest()]: [0]..[9], [a]..[f]. *)
Definition is_hex (c : N) : bool :=
  ((48 <=? c) && (c <=? 57)) || ((97 <=? c) && (c <=? 102)).

End Fields.

Module Protocol.
Import Uploader.

(** [{"database_id": db}] *)
Definition parent (db : str) : value := VDict [(ustr "database_id", VStr db)].

Section Store.
Variable NOTION_API_KEY : str.
Variable World : Type.
Variable requests_post_query :
  str -> value -> value -> World -> result http_response * World.
Variable pages_create : value -> value -> World -> result value * World.

(** The query of [db] with [filter_obj] was answered 200 with the body [q]. *)
Definition answered (db : str) (filter_obj q : value) : Prop :=
  exists res w0 w1,
    requests_post_query db (query_headers NOTION_API_KEY) (query_body filter_obj) w0
      = (Ok res, w1) /\
    status_code res = 200%Z /\ json res = Ok q.

(** The write of the company step or of the role step: the page that was
    found is updated, or, none being found, a page is created and its id
    read. *)
Definition upsert (db : str) (found page_id props : value) (w : event) : Prop :=
  (truthy found = true /\ page_id = found /\ w = EvUpdate found props) \/
  (truthy found = false /\ w = EvCreate (parent db) props /\
   exists page w0 w1,
     pages_create (parent db) props w0 = (Ok page, w1) /\
     py_getitem page (ustr "id") = Ok page_id).

(** The program [m] leaves the trace it finds and writes after it. *)
Definition appends {A} (m : M World A) : Prop :=
  forall s, exists l, snd (snd (m s)) = snd s ++ l.
End Store.

End Protocol.

Module Page.
Import Parser.

(** What the page of [app1_parser.py] does when its button is pressed:
    the spinner, what [run] does, the displays; [UiWrite] is the opening of
    a file for writing, with the text [json.dump] is to put there. *)
Inductive ui_event : Type :=
| UiSpinner (msg : str)
| UiParser (e : Parser.event)
| UiSubheader (msg : str)
| UiMarkdown (body : str)
| UiJson (v : value)
| UiSt (e : st_event)
| UiWrite (path content : str).

Definition output_path : str := ustr "parsed_output.json".

Definition no_json_error : ui_event :=
  UiSt (StError ([0x274C; 32] ++ ustr "No valid JSON extracted.")).

Definition shows_no_json (ev : ui_event) : bool :=
  match ev with
  | UiSt (StError msg) => str_eqb msg ([0x274C; 32] ++ ustr "No valid JSON extracted.")
  | _ => false
  end.

Definition is_file_write (ev : ui_event) : bool :=
  match ev with
  | UiWrite _ _ => true
  | _ => false
  end.

Section Button.
Variable md : str -> str.
Variable json_dumps_indent : value -> str.
Variable json_loads : str -> result value.
Variable chat_create : str -> str -> str -> result response.
(** [json.dump(v, f, ensure_ascii=False, indent=2)]: the text of the file;
    [open(path, "w", encoding="utf-8")] with the writing of that text. *)
Variable json_dump_text : value -> str.
Variable write_file : str -> str -> result unit.

(** The body of [if st.button("Parse with GPT-5"):] for the text
    [jd_text] of the text area or of the uploaded file. *)
Definition parse_clicked (jd_text : str) : result unit * list ui_event :=
  if negb (str_truthy (strip jd_text)) then
    (Ok tt, [UiSt (StError (ustr "Please provide a job description first."))])
  else
    let spinner := UiSpinner (ustr "Parsing via GPT-5 / GPT-4o...") in
    match run md json_dumps_indent json_loads chat_create jd_text with
    | (Raise e, log) => (Raise e, spinner :: map UiParser log)
    | (Ok (result, md_text), log) =>
        let shown :=
          spinner :: map UiParser log
          ++ [UiSubheader ([0x1F9E9; 32] ++ ustr "Normalized Markdown");
              UiMarkdown md_text] in
        if truthy result then
          let content := json_dump_text result in
          let shown :=
            shown ++ [UiSt (StSuccess ([0x2705; 32] ++ ustr "Parsed successfully!"));
                      UiJson result; UiWrite output_path content] in
          match write_file output_path content with
          | Ok _ =>
              (Ok tt,
               shown ++ [UiSt (StInfo ([0x1F4BE; 32] ++ ustr "Saved as parsed_output.json"))])
          | Raise e => (Raise e, shown)
          end
        else (Ok tt, shown ++ [no_json_error])
    end.
End Button.

End Page.

(* ================================================================== *)
(** * Properties *)
(* ================================================================== *)

(** ** Strings and dictionaries *)

(** String equality *)
Lemma str_eqb_eq (a b : str) : str_eqb a b = true <-> a = b.
Proof.
  revert b. induction a as [|x a IH]; intros [|y b]; simpl; split; try congruence; try discriminate.
  - intros H. apply andb_true_iff in H as [Hx Ha]. apply N.eqb_eq in Hx. apply IH in Ha. congruence.
  - intros H. injection H as -> ->. rewrite N.eqb_refl. apply IH. reflexivity.
Qed.

Lemma str_eqb_refl (a : str) : str_eqb a a = true.
Proof. apply str_eqb_eq. reflexivity. Qed.

Lemma str_eqb_neq (a b : str) : a <> b -> str_eqb a b = false.
Proof. intros H. apply not_true_iff_false. intros E. apply str_eqb_eq in E. contradiction. Qed.

Section DictFacts.
Context {V : Type}.
Implicit Types (d : list (str * V)) (k : str) (v : V).

Lemma dict_get_set_same d k v : dict_get k (dict_set k v d) = Some v.
Proof.
  induction d as [|[k' v'] d IH]; simpl.
  - rewrite str_eqb_refl. reflexivity.
  - destruct (str_eqb k' k) eqn:E; simpl; rewrite E; [reflexivity|exact IH].
Qed.

Lemma dict_get_set_other d k k' v : k' <> k -> dict_get k' (dict_set k v d) = dict_get k' d.
Proof.
  intros Hne. induction d as [|[k0 v0] d IH]; simpl.
  - rewrite str_eqb_neq by congruence. reflexivity.
  - destruct (str_eqb k0 k) eqn:E; simpl.
    + apply str_eqb_eq in E. subst k0. rewrite str_eqb_neq by congruence. reflexivity.
    + destruct (str_eqb k0 k'); [reflexivity|exact IH].
Qed.
End DictFacts.


(** ** The fingerprint *)

Module FingerprintFacts.
Import Uploader.

(** The digest on the test vectors of the standard. *)
Lemma hexdigest_test_vectors :
  Sha256.hexdigest (ustr "abc") =
  ustr "ba7816bf8f01cfea414140de5dae2223b00361a396177a9cb410ff61f20015ad" /\
  Sha256.hexdigest [] =
  ustr "e3b0c44298fc1c149afbf4c8996fb92427ae41e4649b934ca495991b7852b855" /\
  Sha256.hexdigest (ustr "abcdbcdecdefdefgefghfghighijhijkijkljklmklmnlmnomnopnopq") =
  ustr "248d6a61d20638b8e5c026930c3e6039a33ce45964ff2167f6ecedd419db06c1".
Proof. vm_compute. repeat split. Qed.

Lemma hexdigest_length (msg : list N) :
  length (Sha256.hexdigest msg) = 64%nat.
Proof.
  unfold Sha256.hexdigest.
  destruct (Sha256.digest msg) as [a b c d e f g h].
  reflexivity.
Qed.

Lemma encode_total (s : str) :
  forallb Utf8.encodable s = true -> exists bs, Utf8.encode s = Ok bs.
Proof.
  induction s as [|c s IH]; simpl.
  - intros _. now exists [].
  - intros H. apply andb_true_iff in H as [Hc Hs].
    rewrite Hc. destruct (IH Hs) as [bs ->]. eauto.
Qed.

Lemma hash_job_text_total (text company : str) :
  forallb Utf8.encodable company = true ->
  forallb Utf8.encodable text = true ->
  exists h, hash_job_text text company = Ok h /\ length h = 16%nat.
Proof.
  intros Hc Ht. unfold hash_job_text.
  destruct (encode_total (company ++ ustr "_" ++ text)) as [bs Hbs].
  { rewrite !forallb_app, Hc, Ht. reflexivity. }
  rewrite Hbs. unfold bind. eexists. split; [reflexivity|].
  rewrite length_firstn, hexdigest_length. reflexivity.
Qed.

(** The fingerprint depends on the two strings through their
    concatenation only. *)
Lemma hash_job_text_base (text company text' company' : str) :
  company ++ ustr "_" ++ text = company' ++ ustr "_" ++ text' ->
  hash_job_text text company = hash_job_text text' company'.
Proof. unfold hash_job_text. intros ->. reflexivity. Qed.

(** C2. The fingerprint is deterministic and of fixed length: for all
    strings [company] and [text] that UTF-8 can encode (all but those with
    a lone surrogate), [hash_job_text] returns a value of 16 characters, the
    same at every call with the same arguments; whatever it returns has 16
    characters; and the fingerprints of ("Acme", "X") and of ("Acme2", "X")
    differ. *)
Theorem hash_job_text_deterministic_fixed_length :
  (forall text company : str,
      forallb Utf8.encodable company = true ->
      forallb Utf8.encodable text = true ->
      exists h : str,
        length h = 16%nat /\
        forall text' company' : str,
          text' = text -> company' = company ->
          hash_job_text text' company' = Ok h) /\
  (forall text company h : str,
      hash_job_text text company = Ok h -> length h = 16%nat) /\
  hash_job_text (ustr "X") (ustr "Acme") = Ok (ustr "580a0fccab5f9a17") /\
  hash_job_text (ustr "X") (ustr "Acme2") = Ok (ustr "65078d90e2b2112f") /\
  hash_job_text (ustr "X") (ustr "Acme") <> hash_job_text (ustr "X") (ustr "Acme2").
Proof.
  split; [|split; [|split; [|split]]].
  - intros text company Hc Ht.
    destruct (hash_job_text_total text company Hc Ht) as [h [Hh Hlen]].
    exists h. split; [exact Hlen|]. intros text' company' -> ->. exact Hh.
  - intros text company h. unfold hash_job_text.
    destruct (Utf8.encode (company ++ ustr "_" ++ text)) as [bs|e]; [|discriminate].
    unfold bind. generalize (Sha256.hexdigest bs) (hexdigest_length bs).
    intros digest Hlen H. assert (E : h = firstn 16 digest) by congruence.
    rewrite E, length_firstn, Hlen. reflexivity.
  - vm_compute. reflexivity.
  - vm_compute. reflexivity.
  - vm_compute. discriminate.
Qed.

Lemma hash_job_text_deterministic_fixed_length_witness :
  exists h : str,
    length h = 16%nat /\
    forall text' company' : str,
      text' = ustr "X" -> company' = ustr "Acme" ->
      hash_job_text text' company' = Ok h.
Proof.
  apply (proj1 hash_job_text_deterministic_fixed_length (ustr "X") (ustr "Acme"));
    reflexivity.
Defined.

(** C10. Distinct (company, text) pairs can have the same fingerprint:
    the pairs ("A", "B_C") and ("A_B", "C") are hashed through the same
    string "A_B_C", and so are (a, b_c) and (a_b, c) in general. *)
Theorem hash_job_text_collision :
  (ustr "A", ustr "B_C") <> (ustr "A_B", ustr "C") /\
  hash_job_text (ustr "B_C") (ustr "A") = Ok (ustr "13adb6a099cb06c4") /\
  hash_job_text (ustr "C") (ustr "A_B") = Ok (ustr "13adb6a099cb06c4") /\
  (forall a b c : str,
      hash_job_text (b ++ ustr "_" ++ c) a = hash_job_text c (a ++ ustr "_" ++ b)).
Proof.
  split; [|split; [|split]].
  - vm_compute. discriminate.
  - vm_compute. reflexivity.
  - vm_compute. reflexivity.
  - intros a b c. apply hash_job_text_base.
    rewrite <- !app_assoc. reflexivity.
Qed.

End FingerprintFacts.


(** ** The parser *)

Module ParserFacts.
Import Re Parser Canon Keywords Outcomes.

(** *** [clean_text] in one pass *)

Lemma rep_spaces_total (s : str) (prev : option N) (g : groups) :
  rmatch (Rep py_isspace) prev s g (fun _ s' g' => Some (s', g')) = Some (lstrip s, g).
Proof.
  revert prev. induction s as [|c s IH]; intros prev; simpl.
  - reflexivity.
  - destruct (py_isspace c); [|reflexivity].
    simpl in IH. rewrite IH. reflexivity.
Qed.

Lemma match_spaces (prev : option N) (s : str) :
  match_here re_spaces prev s =
  match s with
  | c :: s' => if py_isspace c then Some (lstrip s', []) else None
  | [] => None
  end.
Proof.
  unfold match_here, re_spaces, Plus.
  destruct s as [|c s]; [reflexivity|].
  cbn [rmatch]. destruct (py_isspace c); [|reflexivity].
  apply (rep_spaces_total s (Some c) []).
Qed.

Lemma lstrip_length (s : str) : (length (lstrip s) <= length s)%nat.
Proof. induction s as [|c s IH]; simpl; [lia|]. destruct (py_isspace c); simpl; lia. Qed.

Lemma sub_spaces_collapse (s : str) :
  forall prev,
    sub_from re_spaces (ustr " ") prev 0 s = collapse false s /\
    sub_from re_spaces (ustr " ") prev (length s - length (lstrip s)) s = collapse true s.
Proof.
  induction s as [|c s IH]; intros prev.
  - split; reflexivity.
  - assert (A : sub_from re_spaces (ustr " ") prev 0 (c :: s) = collapse false (c :: s)).
    { cbn [sub_from]. rewrite match_spaces. cbn [collapse].
      destruct (py_isspace c).
      - pose proof (lstrip_length s).
        replace (length (c :: s) - length (lstrip s))%nat
          with (S (length s - length (lstrip s))) by (cbn [length]; lia).
        rewrite (proj2 (IH (Some c))). reflexivity.
      - rewrite (proj1 (IH (Some c))). reflexivity. }
    split; [exact A|].
    cbn [lstrip collapse]. destruct (py_isspace c) eqn:E.
    + pose proof (lstrip_length s).
      replace (length (c :: s) - length (lstrip s))%nat
        with (S (length s - length (lstrip s))) by (cbn [length]; lia).
      cbn [sub_from]. apply IH.
    + rewrite Nat.sub_diag. rewrite A. cbn [collapse]. rewrite E. reflexivity.
Qed.

Lemma match_newlines_none (prev : option N) (s : str) :
  match s with c :: _ => c =? 10 | [] => false end = false ->
  match_here re_newlines prev s = None.
Proof.
  unfold match_here, re_newlines. destruct s as [|c s]; intros H.
  - reflexivity.
  - cbn [seqs rmatch]. rewrite N.eqb_sym, H. reflexivity.
Qed.

Lemma sub_newlines_id (repl s : str) :
  forallb (fun c => negb (c =? 10)) s = true ->
  forall prev, sub_from re_newlines repl prev 0 s = s.
Proof.
  induction s as [|c s IH]; intros H prev; cbn [sub_from].
  - rewrite match_newlines_none; reflexivity.
  - simpl in H. apply andb_true_iff in H as [Hc Hs].
    rewrite match_newlines_none by (now apply negb_true_iff in Hc).
    rewrite IH by assumption. reflexivity.
Qed.

Lemma replace_one_char (a : N) (new s : str) :
  str_replace [a] new s = flat_map (fun c => if c =? a then new else [c]) s.
Proof.
  unfold str_replace. induction s as [|c s IH]; [reflexivity|].
  cbn [replace_from flat_map starts_with length Nat.sub].
  rewrite N.eqb_sym, andb_true_r.
  destruct (c =? a); rewrite IH; reflexivity.
Qed.

Lemma replacements_eq :
  replacements =
  [([0x2013], ustr "-"); ([0x2014], ustr "-"); ([bullet], [bullet; 32]); ([0xA0], ustr " ")].
Proof. reflexivity. Qed.

Lemma flat_map_flat_map {A B C} (f : B -> list C) (g : A -> list B) (l : list A) :
  flat_map f (flat_map g l) = flat_map (fun a => flat_map f (g a)) l.
Proof.
  induction l as [|a l IH]; simpl; [reflexivity|].
  rewrite flat_map_app, IH. reflexivity.
Qed.

Lemma replacements_flat_map (t : str) :
  fold_left (fun t on => str_replace (fst on) (snd on) t) replacements t =
  flat_map replace_char t.
Proof.
  rewrite replacements_eq. cbn [fold_left fst snd].
  rewrite !replace_one_char, !flat_map_flat_map.
  apply flat_map_ext. intros c. unfold replace_char, bullet.
  destruct (c =? 0x2013) eqn:E1.
  { apply N.eqb_eq in E1. subst c. reflexivity. }
  destruct (c =? 0x2014) eqn:E2.
  { apply N.eqb_eq in E2. subst c. reflexivity. }
  cbn [flat_map app orb]. rewrite E2. cbn [flat_map app].
  destruct (c =? 0x2022) eqn:E3.
  { apply N.eqb_eq in E3. subst c. reflexivity. }
  cbn [flat_map app]. destruct (c =? 0xA0); reflexivity.
Qed.

Lemma lstrip_collapse (s : str) :
  lstrip (collapse false s) = collapse true s /\
  lstrip (collapse true s) = collapse true s.
Proof.
  induction s as [|c s [IH1 IH2]]; [split; reflexivity|].
  cbn [collapse]. destruct (py_isspace c) eqn:E.
  - split; [|exact IH2]. cbn [lstrip].
    change (py_isspace 32) with true. cbv iota. exact IH2.
  - cbn [lstrip]. rewrite E. split; reflexivity.
Qed.

Lemma wcanon_pend (s : str) :
  wcanon Pend s = match wcanon Start s with [] => [] | r => 32 :: r end.
Proof.
  induction s as [|c s IH]; [reflexivity|].
  cbn [wcanon after_space]. destruct (py_isspace c); [exact IH|reflexivity].
Qed.

Lemma rstrip_collapse (s : str) :
  rstrip (collapse true s) = wcanon Start s /\
  rstrip (collapse false s) = wcanon NoPend s.
Proof.
  induction s as [|c s [IH1 IH2]]; [split; reflexivity|].
  cbn [collapse wcanon after_space space_of app]. destruct (py_isspace c) eqn:E.
  - split; [exact IH1|].
    cbn [rstrip]. rewrite IH1, wcanon_pend.
    change (py_isspace 32) with true. reflexivity.
  - cbn [rstrip]. rewrite IH2, E.
    destruct (wcanon NoPend s); split; reflexivity.
Qed.

Lemma strip_collapse (s : str) : strip (collapse false s) = wcanon Start s.
Proof.
  unfold strip. rewrite (proj1 (lstrip_collapse s)). apply rstrip_collapse.
Qed.

Lemma isspace_nbsp : py_isspace 0xA0 = true.
Proof. reflexivity. Qed.

Lemma wcanon_canon (t : str) :
  forall q, wcanon q (flat_map replace_char t) = canon q t.
Proof.
  induction t as [|c t IH]; intros q; [reflexivity|].
  cbn [flat_map canon]. unfold replace_char at 1, fold_char, bullet.
  destruct (c =? 0x2013) eqn:E1.
  { apply N.eqb_eq in E1. subst c. cbn. rewrite IH. reflexivity. }
  destruct (c =? 0x2014) eqn:E2.
  { apply N.eqb_eq in E2. subst c. cbn. rewrite IH. reflexivity. }
  destruct (c =? 0x2022) eqn:E3.
  { apply N.eqb_eq in E3. subst c. cbn. rewrite IH. reflexivity. }
  destruct (c =? 0xA0) eqn:E4.
  { apply N.eqb_eq in E4. subst c. cbn. rewrite IH. reflexivity. }
  cbn [orb app wcanon]. destruct (py_isspace c); rewrite IH; reflexivity.
Qed.

Lemma collapse_no_newline (b : bool) (s : str) :
  forallb (fun c => negb (c =? 10)) (collapse b s) = true.
Proof.
  revert b. induction s as [|c s IH]; intros b; [reflexivity|].
  cbn [collapse]. destruct (py_isspace c) eqn:E.
  - destruct b; cbn [forallb]; rewrite ?IH; reflexivity.
  - cbn [forallb]. rewrite IH, andb_true_r.
    destruct (c =? 10) eqn:E10; [|reflexivity].
    apply N.eqb_eq in E10. subst c. discriminate E.
Qed.

(** [clean_text] in one pass. *)
Lemma clean_text_canon (t : str) : clean_text (Some t) = canon Start t.
Proof.
  unfold clean_text. destruct t as [|c t]; [reflexivity|].
  cbn [str_truthy negb]. cbv iota.
  rewrite replacements_flat_map. unfold sub.
  rewrite (proj1 (sub_spaces_collapse _ None)).
  rewrite sub_newlines_id by apply collapse_no_newline.
  rewrite strip_collapse. apply wcanon_canon.
Qed.


Lemma fold_char_not_space (c : N) : py_isspace c = false -> py_isspace (fold_char c) = false.
Proof.
  unfold fold_char. intros H.
  destruct ((c =? 0x2013) || (c =? 0x2014)); [reflexivity|exact H].
Qed.

Lemma fold_char_fold_char (c : N) : fold_char (fold_char c) = fold_char c.
Proof.
  unfold fold_char.
  destruct ((c =? 0x2013) || (c =? 0x2014)) eqn:E; [reflexivity|]. rewrite E. reflexivity.
Qed.

Lemma fold_char_bullet (c : N) : (fold_char c =? bullet) = (c =? bullet).
Proof.
  unfold fold_char, bullet.
  destruct (c =? 0x2013) eqn:E1.
  { apply N.eqb_eq in E1. subst c. reflexivity. }
  destruct (c =? 0x2014) eqn:E2.
  { apply N.eqb_eq in E2. subst c. reflexivity. }
  reflexivity.
Qed.

Lemma canon_space (q : pending) (c : N) (s : str) :
  py_isspace c = true -> canon q (c :: s) = canon (after_space q) s.
Proof. intros H. cbn [canon]. rewrite H. reflexivity. Qed.

Lemma canon_char (q : pending) (c : N) (s : str) :
  py_isspace c = false ->
  canon q (c :: s) =
  space_of q ++ fold_char c :: canon (if c =? bullet then Pend else NoPend) s.
Proof. intros H. cbn [canon]. rewrite H. reflexivity. Qed.

Lemma canon_canon (t : str) :
  forall q q', compatible q q' -> canon q' (canon q t) = canon q t.
Proof.
  induction t as [|c t IH]; intros q q' Hq; [reflexivity|].
  destruct (py_isspace c) eqn:E.
  - rewrite (canon_space q c t E). apply IH. destruct q; cbn in *; congruence.
  - rewrite (canon_char q c t E).
    assert (Hstep : forall p,
               canon p (fold_char c :: canon (if c =? bullet then Pend else NoPend) t)
               = space_of p ++ fold_char c :: canon (if c =? bullet then Pend else NoPend) t).
    { intros p. rewrite canon_char by (apply fold_char_not_space, E).
      rewrite fold_char_fold_char, fold_char_bullet.
      rewrite IH; [reflexivity|]. destruct (c =? bullet); cbn; congruence. }
    destruct q; cbn [space_of app].
    + cbn in Hq. subst q'. apply Hstep.
    + rewrite canon_space by reflexivity. rewrite Hstep.
      destruct q'; [cbn in Hq; congruence| |]; reflexivity.
    + cbn in Hq. subst q'. apply Hstep.
Qed.

Lemma canon_no_newline (t : str) :
  forall q, forallb (fun c => negb (c =? 10)) (canon q t) = true.
Proof.
  induction t as [|c t IH]; intros q; [reflexivity|].
  destruct (py_isspace c) eqn:E.
  - rewrite (canon_space q c t E). apply IH.
  - rewrite (canon_char q c t E). rewrite forallb_app. cbn [forallb].
    rewrite IH, andb_true_r.
    assert (Hc : (fold_char c =? 10) = false).
    { destruct (fold_char c =? 10) eqn:E10; [|reflexivity].
      apply N.eqb_eq in E10. pose proof (fold_char_not_space c E) as Hs.
      rewrite E10 in Hs. discriminate Hs. }
    rewrite Hc. destruct q; reflexivity.
Qed.

(** C7. [clean_text] is idempotent: cleaning a cleaned text, or the empty
    string an absent text is cleaned to, gives it back unchanged. *)
Theorem clean_text_idempotent (text : option str) :
  clean_text (Some (clean_text text)) = clean_text text.
Proof.
  destruct text as [t|]; [|reflexivity].
  rewrite !clean_text_canon. apply canon_canon. reflexivity.
Qed.

(** C5. The claim asks for a run of three or more newlines to come out as
    two newlines; [clean_text] has already turned every white-space run,
    newlines included, into one space when its newline substitution runs:
    "a\n\n\nb" is cleaned to "a b", and no cleaned text holds a newline. *)
Theorem clean_text_drops_newlines :
  clean_text (Some [97; 10; 10; 10; 98]) = [97; 32; 98] /\
  forall text : option str,
    forallb (fun c => negb (c =? 10)) (clean_text text) = true.
Proof.
  split; [vm_compute; reflexivity|].
  intros [t|]; [|reflexivity].
  rewrite clean_text_canon. apply canon_no_newline.
Qed.

(** *** [detect_format] and [heuristic_extract] *)

(** C6. A text in which one of the HTML patterns matches, in any letter
    case, is classified "html", whatever the Markdown patterns do; the
    Markdown patterns decide only when no HTML pattern matches, and "plain"
    is the answer when none of either matches. *)
Theorem detect_format_html_first (text : str) :
  ((exists p, In p html_patterns /\ matches p text = true) ->
   detect_format text = ustr "html") /\
  ((forall p, In p html_patterns -> matches p text = false) ->
   (exists p, In p markdown_patterns /\ matches p text = true) ->
   detect_format text = ustr "markdown") /\
  ((forall p, In p html_patterns -> matches p text = false) ->
   (forall p, In p markdown_patterns -> matches p text = false) ->
   detect_format text = ustr "plain").
Proof.
  unfold detect_format. split; [|split].
  - intros H. apply existsb_exists in H. rewrite H. reflexivity.
  - intros Hh Hm.
    replace (existsb (fun p => matches p text) html_patterns) with false.
    + apply existsb_exists in Hm. rewrite Hm. reflexivity.
    + symmetry. apply not_true_iff_false. intros H.
      apply existsb_exists in H as [p [Hin Hp]]. rewrite (Hh p Hin) in Hp. discriminate.
  - intros Hh Hm.
    replace (existsb (fun p => matches p text) html_patterns) with false.
    + replace (existsb (fun p => matches p text) markdown_patterns) with false; [reflexivity|].
      symmetry. apply not_true_iff_false. intros H.
      apply existsb_exists in H as [p [Hin Hp]]. rewrite (Hm p Hin) in Hp. discriminate.
    + symmetry. apply not_true_iff_false. intros H.
      apply existsb_exists in H as [p [Hin Hp]]. rewrite (Hh p Hin) in Hp. discriminate.
Qed.

Lemma detect_format_html_first_witness :
  matches (lit_i (ustr "<p")) (ustr "<P>## Duties **x**") = true /\
  existsb (fun p => matches p (ustr "<P>## Duties **x**")) markdown_patterns = true /\
  detect_format (ustr "<P>## Duties **x**") = ustr "html".
Proof.
  split; [reflexivity|]. split; [reflexivity|].
  apply (proj1 (detect_format_html_first (ustr "<P>## Duties **x**"))).
  exists (lit_i (ustr "<p")). split; [|reflexivity].
  right. left. reflexivity.
Defined.

(** C4. The claim asks [heuristic_extract] to return a mapping for every
    string; on "$,-," the salary pattern matches with the two bounds "," and
    ",", and [int] of the empty string that is left of them raises. *)
Theorem heuristic_extract_raises :
  heuristic_extract (ustr "$,-,") =
  Raise (Exn "ValueError" (ustr "invalid literal for int() with base 10: ''")).
Proof. vm_compute. reflexivity. Qed.

Lemma heuristic_extract_salary :
  heuristic_extract (ustr "$80,000 - $95,000") =
  Ok [(ustr "salary_min", VInt 80000); (ustr "salary_max", VInt 95000);
      (ustr "currency", VStr (ustr "USD")); (ustr "visa_sponsorship", VBool true)].
Proof. vm_compute. reflexivity. Qed.

(** *** The matcher on keyword patterns *)

Lemma last_opt_cons (prev : option N) (c : N) (s : str) :
  last_opt prev (c :: s) = last_opt (Some c) s.
Proof. reflexivity. Qed.

Lemma last_opt_app (prev : option N) (a b : str) :
  last_opt prev (a ++ b) = last_opt (last_opt prev a) b.
Proof. unfold last_opt. apply fold_left_app. Qed.

Lemma rmatch_lit_i {A} (kw : str) :
  forall (prev : option N) (s : str) (g : groups) (k : option N -> str -> groups -> option A),
    rmatch (lit_i kw) prev s g k =
    if ci_prefix kw s
    then k (last_opt prev (firstn (length kw) s)) (skipn (length kw) s) g
    else None.
Proof.
  unfold lit_i. induction kw as [|p kw IH]; intros prev s g k.
  - reflexivity.
  - destruct kw as [|q kw].
    + cbn [map seqs rmatch ci_prefix length firstn skipn].
      destruct s as [|c s]; [reflexivity|].
      rewrite andb_true_r. destruct (ci_eq p c); reflexivity.
    + change (seqs (map (fun p => Cls (ci_eq p)) (p :: q :: kw)))
        with (Seq (Cls (ci_eq p)) (seqs (map (fun p => Cls (ci_eq p)) (q :: kw)))).
      cbn [rmatch]. destruct s as [|c s]; [reflexivity|].
      cbn [ci_prefix]. destruct (ci_eq p c); [|reflexivity].
      rewrite IH. reflexivity.
Qed.

Lemma rmatch_alts {A} (rs : list regex) (prev : option N) (s : str) (g : groups)
    (k : option N -> str -> groups -> option A) :
  rmatch (alts rs) prev s g k =
  match rs with
  | [] => None
  | r :: rs' =>
      match rmatch r prev s g k with
      | Some x => Some x
      | None => rmatch (alts rs') prev s g k
      end
  end.
Proof.
  destruct rs as [|r [|r' rs]].
  - cbn. destruct s; reflexivity.
  - cbn [alts]. destruct (rmatch r prev s g k); [reflexivity|].
    cbn. destruct s; reflexivity.
  - reflexivity.
Qed.

Lemma ci_prefix_length (kw s : str) :
  ci_prefix kw s = true -> (length kw <= length s)%nat.
Proof.
  revert s. induction kw as [|p kw IH]; intros [|c s] H; cbn in *; try lia; try discriminate.
  apply andb_true_iff in H as [_ H]. apply IH in H. lia.
Qed.

Lemma match_len_keywords (kws : list string) (prev : option N) (s : str) :
  match_len (keyword_re kws) prev s = kw_len (keywords kws) prev s.
Proof.
  unfold match_len, match_here, keyword_re, kw_len.
  cbn [seqs rmatch]. destruct (boundary prev s); [|reflexivity].
  unfold keywords. rewrite <- (map_map ustr lit_i).
  induction (map ustr kws) as [|kw l IH].
  - cbn. destruct s; reflexivity.
  - rewrite rmatch_alts. cbn [map]. rewrite rmatch_lit_i. cbn [find_kw].
    destruct (ci_prefix kw s) eqn:E; cbn [andb].
    + destruct (boundary _ _); cbn [option_map fst].
      * f_equal. apply ci_prefix_length in E. rewrite length_skipn. lia.
      * exact IH.
    + exact IH.
Qed.

(** *** The scan of [re.sub] *)

Lemma sub_from_cons (r : regex) (repl : str) (prev : option N) (c : N) (s : str) :
  sub_from r repl prev 0 (c :: s) =
  match match_len r prev (c :: s) with
  | Some O => repl ++ c :: sub_from r repl (Some c) 0 s
  | Some (S n) => repl ++ sub_from r repl (Some c) n s
  | None => c :: sub_from r repl (Some c) 0 s
  end.
Proof.
  cbn [sub_from]. unfold match_len.
  destruct (match_here r prev (c :: s)) as [[rest g]|]; reflexivity.
Qed.

Lemma sub_from_inside (r : regex) (repl : str) (z v : str) :
  forall prev,
    no_match_from r prev z v ->
    sub_from r repl prev 0 (z ++ v) = z ++ sub_from r repl (last_opt prev z) 0 v.
Proof.
  induction z as [|c z IH]; intros prev H; [reflexivity|].
  destruct H as [H0 H]. cbn [app]. rewrite sub_from_cons.
  change (c :: z ++ v) with ((c :: z) ++ v). rewrite H0.
  rewrite (IH _ H). reflexivity.
Qed.

Lemma no_cross_tail (r : regex) (c : N) (u z v : str) :
  no_cross r (c :: u) z v -> no_cross r u z v.
Proof.
  intros H x y prev n -> Hm. apply (H x (c :: y) prev n); [reflexivity|exact Hm].
Qed.

(** The part [z] of a text is left as it is by a substitution whose matches
    neither reach it from the left nor start inside it. *)
Lemma sub_from_frame (r : regex) (repl : str) (c : N) (z v : str) (u : str) :
  no_cross r u (c :: z) v ->
  no_match_from r (Some c) z v ->
  forall (prev : option N) (skip : nat),
    (skip <= length u)%nat ->
    exists u',
      sub_from r repl prev skip (u ++ (c :: z) ++ v) =
      u' ++ (c :: z) ++ sub_from r repl (last_opt (Some c) z) 0 v.
Proof.
  intros Hcross Hin. induction u as [|b u IH]; intros prev skip Hskip.
  - exists []. cbn [length] in Hskip. replace skip with 0%nat by lia.
    cbn [app]. rewrite sub_from_cons.
    destruct (match_len r prev (c :: z ++ v)) as [n|] eqn:E.
    + apply (Hcross [] [] prev n eq_refl) in E. cbn in E. lia.
    + rewrite (sub_from_inside r repl z v _ Hin). reflexivity.
  - specialize (IH (no_cross_tail _ _ _ _ _ Hcross)).
    change ((b :: u) ++ (c :: z) ++ v) with (b :: u ++ (c :: z) ++ v).
    destruct skip as [|k].
    + rewrite sub_from_cons.
      destruct (match_len r prev (b :: u ++ (c :: z) ++ v)) as [n|] eqn:E.
      * apply (Hcross (b :: u) [] prev n eq_refl) in E. cbn [length] in E.
        destruct n as [|n]; [lia|].
        destruct (IH (Some b) n ltac:(lia)) as [u' Hu']. rewrite Hu'.
        exists (repl ++ u'). rewrite <- app_assoc. reflexivity.
      * destruct (IH (Some b) 0%nat ltac:(lia)) as [u' Hu']. rewrite Hu'.
        exists (b :: u'). reflexivity.
    + cbn [sub_from]. cbn [length] in Hskip.
      destruct (IH (Some b) k ltac:(lia)) as [u' Hu']. rewrite Hu'.
      exists u'. reflexivity.
Qed.

(** *** Containment *)

Lemma starts_with_app (n s : str) : starts_with n (n ++ s) = true.
Proof. induction n as [|c n IH]; [reflexivity|]. cbn. rewrite N.eqb_refl. exact IH. Qed.

Lemma contains_app (n u v : str) : contains n (u ++ n ++ v) = true.
Proof.
  induction u as [|c u IH].
  - cbn [app]. destruct (n ++ v) eqn:E; cbn [contains]; rewrite <- ?E, starts_with_app; reflexivity.
  - cbn [app contains]. rewrite IH. apply orb_true_r.
Qed.

Lemma starts_with_split (n s : str) :
  starts_with n s = true -> exists v, s = n ++ v.
Proof.
  revert s. induction n as [|c n IH]; intros s H.
  - exists s. reflexivity.
  - destruct s as [|d s]; [discriminate H|]. cbn in H.
    apply andb_true_iff in H as [Hc H]. apply N.eqb_eq in Hc. subst d.
    destruct (IH s H) as [v ->]. exists v. reflexivity.
Qed.

Lemma contains_split (n s : str) :
  contains n s = true -> exists u v, s = u ++ n ++ v.
Proof.
  induction s as [|c s IH]; cbn [contains]; intros H.
  - rewrite orb_false_r in H. apply starts_with_split in H as [v ->]. exists [], v. reflexivity.
  - apply orb_true_iff in H as [H|H].
    + apply starts_with_split in H as [v ->]. exists [], v. reflexivity.
    + destruct (IH H) as (u & v & ->). exists (c :: u), v. reflexivity.
Qed.

Lemma rstrip_keeps (x : str) (c : N) (y : str) :
  py_isspace c = false -> rstrip (x ++ c :: y) = x ++ c :: rstrip y.
Proof.
  intros Hc. induction x as [|b x IH].
  - cbn [app rstrip]. rewrite Hc. destruct (rstrip y); reflexivity.
  - cbn [app rstrip]. rewrite IH. destruct x; reflexivity.
Qed.

Lemma lstrip_keeps (n s : str) (c : N) :
  py_isspace c = false ->
  contains (c :: n) s = true -> contains (c :: n) (lstrip s) = true.
Proof.
  intros Hc. induction s as [|b s IH]; intros H; [exact H|].
  cbn [lstrip]. destruct (py_isspace b) eqn:Eb; [|exact H].
  apply IH. cbn [contains starts_with] in H.
  destruct (c =? b) eqn:E.
  - apply N.eqb_eq in E. subst b. congruence.
  - cbn [andb orb] in H. exact H.
Qed.

Lemma strip_keeps (n : str) (c d : N) (s : str) :
  py_isspace c = false -> py_isspace d = false ->
  contains (c :: n ++ [d]) s = true -> contains (c :: n ++ [d]) (strip s) = true.
Proof.
  intros Hc Hd H. unfold strip.
  apply (lstrip_keeps _ _ _ Hc) in H.
  apply contains_split in H as (u & v & E). rewrite E.
  change (u ++ (c :: n ++ [d]) ++ v) with (u ++ ((c :: n) ++ [d]) ++ v).
  rewrite <- !app_assoc. cbn [app].
  replace (u ++ c :: n ++ d :: v) with ((u ++ c :: n) ++ d :: v)
    by (rewrite <- app_assoc; reflexivity).
  rewrite (rstrip_keeps _ d v Hd).
  replace ((u ++ c :: n) ++ d :: rstrip v) with (u ++ (c :: n ++ [d]) ++ rstrip v)
    by (rewrite <- !app_assoc; cbn [app]; rewrite <- app_assoc; reflexivity).
  apply contains_app.
Qed.

(** *** Keywords and the heading *)

Lemma find_kw_some (kws : list str) (prev : option N) (s : str) (n : nat) :
  find_kw kws prev s = Some n ->
  exists kw, In kw kws /\ n = length kw /\ ci_prefix kw s = true /\
             boundary (last_opt prev (firstn n s)) (skipn n s) = true.
Proof.
  induction kws as [|kw kws IH]; cbn [find_kw]; intros H; [discriminate H|].
  destruct (ci_prefix kw s && boundary _ _) eqn:E.
  - injection H as <-. apply andb_true_iff in E as [E1 E2].
    exists kw. repeat split; try assumption. left. reflexivity.
  - destruct (IH H) as (kw' & Hin & Hrest). exists kw'. split; [right; exact Hin|exact Hrest].
Qed.

Lemma kw_len_some (kws : list str) (prev : option N) (s : str) (n : nat) :
  kw_len kws prev s = Some n ->
  exists kw, In kw kws /\ n = length kw /\ ci_prefix kw s = true /\
             boundary prev s = true /\
             boundary (last_opt prev (firstn n s)) (skipn n s) = true.
Proof.
  unfold kw_len. destruct (boundary prev s) eqn:B; [|discriminate].
  intros H. apply find_kw_some in H as (kw & H1 & H2 & H3 & H4).
  exists kw. repeat split; assumption.
Qed.

Lemma ci_prefix_hits (kw x : str) (c : N) (y : str) :
  ci_prefix kw (x ++ c :: y) = true -> (length x < length kw)%nat ->
  exists p, In p kw /\ ci_eq p c = true.
Proof.
  revert x. induction kw as [|p kw IH]; intros x H Hlen; [cbn in Hlen; lia|].
  destruct x as [|b x]; cbn in H; apply andb_true_iff in H as [H1 H2].
  - exists p. split; [left; reflexivity|exact H1].
  - cbn in Hlen. destruct (IH x H2 ltac:(lia)) as (q & Hin & Hq).
    exists q. split; [right; exact Hin|exact Hq].
Qed.

Lemma heading_no_cross (kws : list string) (u z v : str) :
  forallb nonempty (keywords kws) = true ->
  forallb (forallb (fun p => negb (ci_eq p 35))) (keywords kws) = true ->
  no_cross (keyword_re kws) u (35 :: z) v.
Proof.
  intros Hne Hhash x y prev n _ Hm.
  rewrite match_len_keywords in Hm.
  apply kw_len_some in Hm as (kw & Hin & -> & Hpre & _).
  rewrite forallb_forall in Hne, Hhash.
  specialize (Hne kw Hin). specialize (Hhash kw Hin).
  split.
  - destruct kw; [discriminate Hne|cbn; lia].
  - destruct (Nat.le_gt_cases (length kw) (length x)) as [Hle|Hgt]; [exact Hle|].
    change (x ++ (35 :: z) ++ v) with (x ++ 35 :: z ++ v) in Hpre.
    destruct (ci_prefix_hits kw x 35 (z ++ v) Hpre Hgt) as (p & Hp & Hci).
    rewrite forallb_forall in Hhash. specialize (Hhash p Hp).
    rewrite Hci in Hhash. discriminate Hhash.
Qed.

Lemma heading_kept (kws : list string) (repl : str) :
  forallb nonempty (keywords kws) = true ->
  forallb (forallb (fun p => negb (ci_eq p 35))) (keywords kws) = true ->
  (forall v, no_match_from (keyword_re kws) (Some 35) (ustr "# Responsibilities") v) ->
  forall t, contains heading t = true ->
            contains heading (sub (keyword_re kws) repl t) = true.
Proof.
  intros Hne Hhash Hin t Ht.
  apply contains_split in Ht as (u & v & ->).
  destruct (sub_from_frame (keyword_re kws) repl 35 (ustr "# Responsibilities") v u
              (heading_no_cross kws u _ v Hne Hhash) (Hin v) None 0%nat ltac:(lia))
    as [u' Hu'].
  unfold sub. change heading with (35 :: ustr "# Responsibilities").
  rewrite Hu'. apply contains_app.
Qed.

(** *** Case-insensitive characters *)

Lemma ci_eq_r (c : N) : ci_eq 114 c = true -> c = 114 \/ c = 82.
Proof.
  unfold ci_eq. change (ascii_lower 114) with 114. cbn [N.eqb orb].
  rewrite orb_false_r. unfold ascii_lower, in_range. intros H.
  destruct ((65 <=? c) && (c <=? 90)) eqn:E.
  - apply N.eqb_eq in H. right. lia.
  - apply N.eqb_eq in H. left. exact H.
Qed.

Lemma ci_eq_like_r (q c : N) :
  ci_eq 114 c = true -> ci_eq q c = true -> (ascii_lower q =? ascii_lower 114) = true.
Proof.
  intros Hr Hq. apply ci_eq_r in Hr as [-> | ->]; unfold ci_eq in Hq.
  - change (ascii_lower 114) with 114 in *.
    destruct (ascii_lower q =? 105); [|destruct (ascii_lower q =? 107)];
      [| |destruct (ascii_lower q =? 115)]; cbn in Hq; rewrite ?orb_false_r in Hq;
      rewrite N.eqb_sym; exact Hq.
  - change (ascii_lower 82) with 114 in *. change (ascii_lower 114) with 114.
    destruct (ascii_lower q =? 105); [|destruct (ascii_lower q =? 107)];
      [| |destruct (ascii_lower q =? 115)]; cbn in Hq; rewrite ?orb_false_r in Hq;
      rewrite N.eqb_sym; exact Hq.
Qed.

Lemma letter_word (c : N) : letter c = true -> py_isword c = true.
Proof.
  unfold letter, ascii_lower, in_range, py_isword, ascii_word, in_range. intros H.
  destruct ((65 <=? c) && (c <=? 90)) eqn:E.
  - apply andb_true_iff in E as [E1 E2]. apply N.leb_le in E1, E2.
    replace (c <? 128) with true by (symmetry; apply N.ltb_lt; lia).
    replace (65 <=? c) with true by (symmetry; apply N.leb_le; lia).
    replace (c <=? 90) with true by (symmetry; apply N.leb_le; lia).
    cbn [andb]. destruct ((48 <=? c) && (c <=? 57)), (c =? 95); reflexivity.
  - apply andb_true_iff in H as [H1 H2]. apply N.leb_le in H1, H2.
    replace (c <? 128) with true by (symmetry; apply N.ltb_lt; lia).
    replace (97 <=? c) with true by (symmetry; apply N.leb_le; lia).
    replace (c <=? 122) with true by (symmetry; apply N.leb_le; lia).
    cbn [andb]. rewrite !orb_true_r. reflexivity.
Qed.

Lemma letter_lower (c p : N) :
  letter p = true -> ascii_lower c = ascii_lower p -> letter c = true.
Proof. unfold letter. intros H ->. exact H. Qed.

(** What matches a letter is a word character. *)
Lemma ci_eq_word (p c : N) : letter p = true -> ci_eq p c = true -> py_isword c = true.
Proof.
  intros Hp H. unfold ci_eq in H. apply orb_true_iff in H as [H|H].
  - apply N.eqb_eq in H. apply letter_word. apply (letter_lower c p Hp H).
  - destruct (ascii_lower p =? 105).
    { apply orb_true_iff in H as [H|H]; apply N.eqb_eq in H; subst c; reflexivity. }
    destruct (ascii_lower p =? 107).
    { apply N.eqb_eq in H; subst c; reflexivity. }
    destruct (ascii_lower p =? 115); [|discriminate H].
    apply N.eqb_eq in H; subst c; reflexivity.
Qed.

Lemma ci_prefix_words (kw s : str) :
  forallb letter kw = true -> ci_prefix kw s = true ->
  forallb py_isword (firstn (length kw) s) = true.
Proof.
  revert s. induction kw as [|p kw IH]; intros s Hl H; [reflexivity|].
  destruct s as [|c s]; [discriminate H|].
  cbn in Hl, H. apply andb_true_iff in Hl as [Hp Hl]. apply andb_true_iff in H as [Hc H].
  cbn [length firstn forallb]. rewrite (ci_eq_word p c Hp Hc), (IH s Hl H). reflexivity.
Qed.

Lemma ci_prefix_app_eq (kw w v v' : str) :
  length w = length kw -> ci_prefix kw (w ++ v) = ci_prefix kw (w ++ v').
Proof.
  revert w. induction kw as [|p kw IH]; intros w Hlen; [reflexivity|].
  destruct w as [|c w]; [discriminate Hlen|]. cbn in Hlen. cbn [app ci_prefix].
  rewrite (IH w) by lia. reflexivity.
Qed.

Lemma crossable_sound (kw x : str) (a c0 : N) (rest : str) :
  ci_prefix kw (x ++ a :: c0 :: rest) = true ->
  (length x < length kw)%nat ->
  py_isword a = false -> ci_eq 114 c0 = true ->
  crossable 114 kw = true.
Proof.
  revert x. induction kw as [|p kw IH]; intros x H Hlen Ha Hc; [cbn in Hlen; lia|].
  destruct x as [|b x]; cbn [app ci_prefix] in H; apply andb_true_iff in H as [H1 H2].
  - cbn [crossable]. apply orb_true_iff. left.
    assert (Hp : letter p = false).
    { destruct (letter p) eqn:E; [|reflexivity].
      rewrite (ci_eq_word p a E H1) in Ha. discriminate Ha. }
    rewrite Hp. cbn [negb andb].
    destruct kw as [|q kw]; [reflexivity|].
    cbn [ci_prefix] in H2. apply andb_true_iff in H2 as [Hq _].
    apply (ci_eq_like_r q c0 Hc Hq).
  - cbn [crossable]. apply orb_true_iff. right.
    apply (IH x H2); [cbn in Hlen; lia|assumption|assumption].
Qed.

Lemma starts_like_sound (kw : str) (c0 : N) (rest : str) :
  ci_prefix kw (c0 :: rest) = true -> ci_eq 114 c0 = true -> starts_like 114 kw = true.
Proof.
  destruct kw as [|q kw]; [reflexivity|]. cbn [ci_prefix starts_like].
  intros H Hc. apply andb_true_iff in H as [Hq _]. apply (ci_eq_like_r q c0 Hc Hq).
Qed.

(** *** The word and the first two substitutions *)

Lemma has_word_split (kw : str) (s : str) :
  forall prev,
    has_word_i kw prev s = true ->
    exists u s2, s = u ++ s2 /\ word_at_i kw (last_opt prev u) s2 = true.
Proof.
  induction s as [|c s IH]; intros prev H; cbn [has_word_i] in H.
  - rewrite orb_false_r in H. exists [], []. split; [reflexivity|exact H].
  - apply orb_true_iff in H as [H|H].
    + exists [], (c :: s). split; [reflexivity|exact H].
    + destruct (IH _ H) as (u & s2 & -> & Hw). exists (c :: u), s2. split; [reflexivity|exact Hw].
Qed.

Lemma has_word_at (kw : str) (u s2 : str) :
  forall prev,
    word_at_i kw (last_opt prev u) s2 = true -> has_word_i kw prev (u ++ s2) = true.
Proof.
  induction u as [|c u IH]; intros prev H.
  - cbn [app]. destruct s2; cbn [has_word_i]; cbn [last_opt fold_left] in H; rewrite H; reflexivity.
  - cbn [app has_word_i]. rewrite (IH (Some c) H). apply orb_true_r.
Qed.

(** The second substitution writes the heading where the word stands. *)
Lemma word_replaced (s : str) :
  forall prev,
    has_word_i the_word prev s = true ->
    contains heading
      (sub_from (keyword_re ["responsibilities"; "duties"; "tasks"]%string)
                heading prev 0 s) = true.
Proof.
  induction s as [|c s IH]; intros prev H.
  - cbn [has_word_i] in H. unfold word_at_i in H.
    change (ci_prefix the_word []) with false in H.
    rewrite andb_false_r in H. discriminate H.
  - rewrite sub_from_cons.
    destruct (match_len _ prev (c :: s)) as [[|n]|] eqn:E.
    + apply (contains_app heading []).
    + apply (contains_app heading []).
    + cbn [has_word_i] in H. apply orb_true_iff in H as [H|H].
      * exfalso. rewrite match_len_keywords in E. unfold kw_len in E.
        unfold word_at_i in H. apply andb_true_iff in H as [H H3].
        apply andb_true_iff in H as [H1 H2]. rewrite H1 in E.
        cbn [keywords map find_kw] in E. fold the_word in E.
        rewrite H2, H3 in E. discriminate E.
      * cbn [contains]. rewrite (IH _ H). apply orb_true_r.
Qed.

Lemma no_match_in_word (kws : list string) (z v : str) :
  forall c,
    py_isword c = true -> forallb py_isword z = true ->
    no_match_from (keyword_re kws) (Some c) z v.
Proof.
  induction z as [|d z IH]; intros c Hc Hz; [exact I|].
  cbn [forallb] in Hz. apply andb_true_iff in Hz as [Hd Hz].
  split; [|apply IH; assumption].
  rewrite match_len_keywords. unfold kw_len, boundary. cbn [word_before app word_at].
  rewrite Hc, Hd. reflexivity.
Qed.

Lemma sub_head_nonword (r : regex) (h : N) (repl v : str) (prev : option N) :
  py_isword h = false -> word_at v = false ->
  word_at (sub_from r (h :: repl) prev 0 v) = false.
Proof.
  intros Hh Hv. destruct v as [|c v].
  - cbn [sub_from]. destruct (match_here r prev []); [exact Hh|reflexivity].
  - rewrite sub_from_cons. destruct (match_len r prev (c :: v)) as [[|n]|]; [exact Hh|exact Hh|exact Hv].
Qed.

Lemma first_no_start (prev : option N) (c0 : N) (rest : str) :
  ci_eq 114 c0 = true ->
  match_len (keyword_re first_keywords) prev (c0 :: rest) = None.
Proof.
  intros Hc. rewrite match_len_keywords.
  destruct (kw_len _ prev (c0 :: rest)) as [n|] eqn:E; [|reflexivity].
  apply kw_len_some in E as (kw & Hin & _ & Hpre & _).
  pose proof (starts_like_sound kw c0 rest Hpre Hc) as Hs.
  assert (Hall : forallb (fun kw => negb (starts_like 114 kw)) (keywords first_keywords) = true)
    by reflexivity.
  rewrite forallb_forall in Hall. specialize (Hall kw Hin). rewrite Hs in Hall. discriminate Hall.
Qed.

Lemma first_no_cross (u0 : str) (a c0 : N) (w' v : str) :
  py_isword a = false -> ci_eq 114 c0 = true ->
  no_cross (keyword_re first_keywords) u0 (a :: c0 :: w') v.
Proof.
  intros Ha Hc x y prev n _ Hm.
  rewrite match_len_keywords in Hm.
  apply kw_len_some in Hm as (kw & Hin & -> & Hpre & _).
  split.
  - assert (Hall : forallb nonempty (keywords first_keywords) = true) by reflexivity.
    rewrite forallb_forall in Hall. specialize (Hall kw Hin).
    destruct kw; [discriminate Hall|cbn; lia].
  - destruct (Nat.le_gt_cases (length kw) (length x)) as [Hle|Hgt]; [exact Hle|].
    change (x ++ (a :: c0 :: w') ++ v) with (x ++ a :: c0 :: w' ++ v) in Hpre.
    pose proof (crossable_sound kw x a c0 _ Hpre Hgt Ha Hc) as Hx.
    assert (Hall : forallb (fun kw => negb (crossable 114 kw)) (keywords first_keywords) = true)
      by reflexivity.
    rewrite forallb_forall in Hall. specialize (Hall kw Hin). rewrite Hx in Hall. discriminate Hall.
Qed.

Lemma exists_last_or_nil {A} (l : list A) :
  l = [] \/ exists l' a, l = l' ++ [a].
Proof.
  induction l as [|b l IH]; [left; reflexivity|right].
  destruct IH as [-> | (l' & a & ->)].
  - exists [], b. reflexivity.
  - exists (b :: l'), a. reflexivity.
Qed.

Lemma last_opt_word (w : str) (prev : option N) :
  w <> [] -> forallb py_isword w = true -> word_before (last_opt prev w) = true.
Proof.
  revert prev. induction w as [|c w IH]; intros prev Hne Hw; [contradiction|].
  cbn [forallb] in Hw. apply andb_true_iff in Hw as [Hc Hw].
  rewrite last_opt_cons. destruct w as [|d w]; [exact Hc|].
  apply IH; [discriminate|exact Hw].
Qed.

(** The first substitution leaves the word where it stands, between its
    boundaries. *)
Lemma word_kept (t : str) :
  has_word_i the_word None t = true ->
  has_word_i the_word None
    (sub (keyword_re first_keywords) (ustr "## Job Description") t) = true.
Proof.
  intros H. apply has_word_split in H as (u & s2 & -> & H).
  unfold word_at_i in H. apply andb_true_iff in H as [H H3].
  apply andb_true_iff in H as [H1 H2].
  pose proof (ci_prefix_length _ _ H2) as Hlen.
  pose proof (ci_prefix_words the_word s2 eq_refl H2) as Hwords.
  rewrite <- (firstn_skipn (length the_word) s2) in H1, H2 |- *.
  set (w := firstn (length the_word) s2) in *.
  set (v := skipn (length the_word) s2) in *.
  assert (Hw : length w = length the_word) by (apply firstn_length_le; exact Hlen).
  destruct w as [|c0 w'] eqn:Ew; [discriminate Hw|].
  assert (Hc0 : ci_eq 114 c0 = true).
  { cbn in H2. apply andb_true_iff in H2 as [H2 _]. exact H2. }
  assert (Hlast : word_before (last_opt (last_opt None u) (c0 :: w')) = true)
    by (apply last_opt_word; [discriminate|exact Hwords]).
  assert (Hv : word_at v = false).
  { unfold boundary in H3. rewrite Hlast in H3. destruct (word_at v); [discriminate H3|reflexivity]. }
  assert (Hu : word_before (last_opt None u) = false).
  { unfold boundary in H1. cbn [app word_at] in H1.
    cbn [forallb] in Hwords. apply andb_true_iff in Hwords as [Hc _]. rewrite Hc in H1.
    destruct (word_before (last_opt None u)); [discriminate H1|reflexivity]. }
  pose proof Hwords as Hwords'. cbn [forallb] in Hwords'.
  apply andb_true_iff in Hwords' as [Hc0w Hw'].
  set (R := ustr "## Job Description").
  set (v' := sub_from (keyword_re first_keywords) R (last_opt (Some c0) w') 0 v).
  assert (Hv' : word_at v' = false).
  { apply (sub_head_nonword _ 35 (ustr "# Job Description")); [reflexivity|exact Hv]. }
  assert (Hout : forall pre,
             word_before (last_opt None pre) = false ->
             has_word_i the_word None (pre ++ (c0 :: w') ++ v') = true).
  { intros pre Hpre. apply has_word_at. unfold word_at_i.
    rewrite (ci_prefix_app_eq the_word (c0 :: w') v' v Hw), H2.
    replace (firstn (length the_word) ((c0 :: w') ++ v')) with (c0 :: w')
      by (rewrite <- Hw, firstn_app, Nat.sub_diag, firstn_all; cbn [firstn]; rewrite app_nil_r; reflexivity).
    replace (skipn (length the_word) ((c0 :: w') ++ v')) with v'
      by (rewrite <- Hw, skipn_app, Nat.sub_diag, skipn_all; reflexivity).
    unfold boundary. cbn [app word_at]. rewrite Hpre, Hc0w.
    rewrite (last_opt_word (c0 :: w') _ ltac:(discriminate) Hwords), Hv'. reflexivity. }
  destruct (exists_last_or_nil u) as [-> | (u0 & a & ->)].
  - (* the word opens the text *)
    unfold sub. cbn [app]. rewrite sub_from_cons.
    rewrite (first_no_start None c0 (w' ++ v) Hc0).
    rewrite (sub_from_inside _ R w' v _ (no_match_in_word _ w' v c0 Hc0w Hw')).
    apply (Hout []). reflexivity.
  - (* a character that is not a word character stands before it *)
    rewrite last_opt_app in Hu. cbn in Hu.
    assert (Ha : py_isword a = false) by exact Hu.
    destruct (sub_from_frame (keyword_re first_keywords) R a (c0 :: w') v u0
                (first_no_cross u0 a c0 w' v Ha Hc0)
                (conj (first_no_start (Some a) c0 (w' ++ v) Hc0)
                      (no_match_in_word _ w' v c0 Hc0w Hw'))
                None 0%nat ltac:(lia)) as [u' Hu'].
    unfold sub. rewrite <- app_assoc. cbn [app] in Hu' |- *. rewrite Hu'.
    rewrite last_opt_cons. fold v'.
    replace (u' ++ a :: c0 :: w' ++ v') with ((u' ++ [a]) ++ (c0 :: w') ++ v')
      by (rewrite <- app_assoc; reflexivity).
    apply Hout. rewrite last_opt_app. exact Ha.
Qed.

Ltac no_match :=
  intros v;
  cbv [no_match_from ustr list_ascii_of_string map N_of_ascii N_of_digits];
  repeat split; vm_compute; reflexivity.

(** The heading survives each of the later substitutions. *)
Lemma later_substitutions_keep (t : str) :
  contains heading t = true ->
  contains heading
    (fold_left (fun t pr => sub (keyword_re (fst pr)) (snd pr) t)
               (skipn 2 mapping) t) = true.
Proof.
  intros H. cbn [skipn mapping fold_left fst snd].
  repeat (apply heading_kept; [reflexivity|reflexivity|no_match|]).
  exact H.
Qed.

(** C8, as amended. When the text the substitutions are applied to (the
    document, or what the HTML conversion makes of it) holds the word
    "responsibilities", in any letter case, between two word boundaries, the
    output of [convert_to_markdown] contains the heading
    "## Responsibilities". *)
Theorem convert_to_markdown_heading (md : str -> str) (text : str) :
  has_word_i the_word None (converted md text) = true ->
  contains heading (convert_to_markdown md text) = true.
Proof.
  intros H. unfold convert_to_markdown. fold (converted md text).
  apply (strip_keeps (ustr "# Responsibilitie") 35 115); [reflexivity|reflexivity|].
  change mapping with (firstn 2 mapping ++ skipn 2 mapping).
  rewrite fold_left_app. apply later_substitutions_keep.
  cbn [firstn mapping fold_left fst snd].
  apply word_replaced. apply word_kept. exact H.
Qed.

Lemma convert_to_markdown_heading_witness :
  has_word_i the_word None (ustr "Key Responsibilities: ship") = true /\
  contains heading
    (convert_to_markdown (fun s => s) (ustr "Key Responsibilities: ship")) = true.
Proof.
  split; [reflexivity|].
  apply (convert_to_markdown_heading (fun s => s) (ustr "Key Responsibilities: ship")).
  reflexivity.
Defined.

(** C8, as stated, fails: "Coresponsibilities" holds the substring, is plain
    text, and comes out unchanged, since no word boundary stands before the
    substring. *)
Lemma convert_to_markdown_substring :
  contains_i (ustr "Responsibilities") (ustr "Coresponsibilities") = true /\
  detect_format (ustr "Coresponsibilities") = ustr "plain" /\
  forall md : str -> str,
    convert_to_markdown md (ustr "Coresponsibilities") = ustr "Coresponsibilities" /\
    contains heading (convert_to_markdown md (ustr "Coresponsibilities")) = false.
Proof.
  split; [reflexivity|]. split; [reflexivity|].
  intros md. split; vm_compute; reflexivity.
Qed.

(** *** The inference client and the merge *)

Section InferenceFacts.
Variable json_dumps_indent : value -> str.
Variable json_loads : str -> result value.
Variable chat_create : str -> str -> str -> result response.

Let attempt := attempt json_dumps_indent json_loads chat_create.
Let parse_with_gpt5 := parse_with_gpt5 json_dumps_indent json_loads chat_create.
Let system_msg := system_msg json_dumps_indent.

Lemma attempt_failure_modes (model user : str) :
  (exists e, chat_create model system_msg user = Raise e) \/
  (exists rsp, chat_create model system_msg user = Ok rsp /\
               (choices rsp = [] \/ exists l, choices rsp = None :: l)) \/
  (exists rsp c l, chat_create model system_msg user = Ok rsp /\
                   choices rsp = Some c :: l /\
                   (strip c = [] \/ exists e, json_loads (strip c) = Raise e)) ->
  attempt_fails (attempt model user).
Proof.
  unfold attempt, Parser.attempt, system_msg.
  intros [[e H] | [[rsp [H Hc]] | [rsp [c [l [H [Hc Hs]]]]]]]; rewrite H; cbn [bind].
  - exact I.
  - destruct Hc as [-> | [l ->]]; exact I.
  - rewrite Hc. cbn [bind]. destruct Hs as [-> | [e He]]; [exact I|].
    destruct (str_truthy (strip c)); cbn [negb]; [|exact I].
    rewrite He. exact I.
Qed.

Lemma parse_fallback_section (markdown_text : str) (heuristics : pydict) :
  let user := user_msg json_dumps_indent markdown_text heuristics in
  let out := parse_with_gpt5 markdown_text heuristics in
  attempt_fails (attempt (ustr "gpt-5") user) ->
  (attempt_fails (attempt (ustr "gpt-4o") user) ->
     fst out = VDict [] /\
     calls (snd out) = [ustr "gpt-5"; ustr "gpt-4o"] /\
     exists msg, last (snd out) (EvSt (StInfo [])) = EvSt (StError msg)) /\
  (forall parsed,
     attempt (ustr "gpt-4o") user = Ok (Some parsed) ->
     fst out = parsed /\
     calls (snd out) = [ustr "gpt-5"; ustr "gpt-4o"]).
Proof.
  intros user out H1. subst out.
  unfold parse_with_gpt5, Parser.parse_with_gpt5, models.
  fold user. cbn [try_models]. fold attempt.
  split.
  - intros H2.
    destruct (attempt (ustr "gpt-5") user) as [[p|]|e1]; [destruct H1| |];
      destruct (attempt (ustr "gpt-4o") user) as [[p|]|e2]; try destruct H2;
      cbn; (split; [reflexivity|split; [reflexivity|eexists; reflexivity]]).
  - intros parsed H2. rewrite H2.
    destruct (attempt (ustr "gpt-5") user) as [[p|]|e1]; [destruct H1| |];
      cbn; split; reflexivity.
Qed.
End InferenceFacts.


(** C9. When the attempt with the primary model and the attempt with the
    fallback model both fail (the request or [json.loads] raises, or the
    content is empty), [parse_with_gpt5] returns the empty record after
    asking each model once; when the fallback succeeds, its parsed result is
    returned and nothing else is asked. *)
Theorem parse_with_gpt5_fallback (json_dumps_indent : value -> str)
    (json_loads : str -> result value)
    (chat_create : str -> str -> str -> result response)
    (markdown_text : str) (heuristics : pydict) :
  let attempt := attempt json_dumps_indent json_loads chat_create in
  let user := user_msg json_dumps_indent markdown_text heuristics in
  let out := parse_with_gpt5 json_dumps_indent json_loads chat_create
                             markdown_text heuristics in
  attempt_fails (attempt (ustr "gpt-5") user) ->
  (attempt_fails (attempt (ustr "gpt-4o") user) ->
     fst out = VDict [] /\
     calls (snd out) = [ustr "gpt-5"; ustr "gpt-4o"] /\
     exists msg, last (snd out) (EvSt (StInfo [])) = EvSt (StError msg)) /\
  (forall parsed,
     attempt (ustr "gpt-4o") user = Ok (Some parsed) ->
     fst out = parsed /\
     calls (snd out) = [ustr "gpt-5"; ustr "gpt-4o"]).
Proof.
  exact (parse_fallback_section json_dumps_indent json_loads chat_create
                                markdown_text heuristics).
Qed.

Lemma parse_with_gpt5_fallback_witness :
  let down : str -> str -> str -> result response :=
    fun _ _ _ => Raise (Exn "APIConnectionError" (ustr "Connection error.")) in
  let loads : str -> result value :=
    fun _ => Raise (Exn "JSONDecodeError" (ustr "Expecting value")) in
  fst (parse_with_gpt5 (fun _ => []) loads down [] []) = VDict [] /\
  calls (snd (parse_with_gpt5 (fun _ => []) loads down [] []))
  = [ustr "gpt-5"; ustr "gpt-4o"].
Proof.
  intros down loads.
  destruct (parse_with_gpt5_fallback (fun _ => []) loads down [] [] I) as [H _].
  destruct (H I) as (H1 & H2 & _). split; [exact H1|exact H2].
Defined.

Lemma merge_entry_dict (d : pydict) (h : str * value) :
  merge_entry (VDict d) h = Ok (VDict (merged h d)).
Proof.
  unfold merge_entry, merged. cbn [py_contains bind].
  destruct (dict_get (fst h) d) as [x|] eqn:E; cbn [negb py_setitem py_getitem].
  - rewrite E. cbn [bind]. destruct (truthy x); reflexivity.
  - reflexivity.
Qed.

Lemma merge_heuristics_dict (h : pydict) :
  forall d, merge_heuristics (VDict d) h = Ok (VDict (fold_left (fun d e => merged e d) h d)).
Proof.
  induction h as [|e h IH]; intros d; cbn [merge_heuristics fold_left]; [reflexivity|].
  rewrite merge_entry_dict. apply IH.
Qed.

Lemma merged_other (e : str * value) (d : pydict) (k : str) :
  k <> fst e -> dict_get k (merged e d) = dict_get k d.
Proof.
  intros Hne. unfold merged.
  destruct (dict_get (fst e) d) as [x|]; [destruct (truthy x)|];
    try reflexivity; apply dict_get_set_other; exact Hne.
Qed.

Lemma fold_merged_other (h : pydict) (k : str) :
  ~ In k (map fst h) ->
  forall d, dict_get k (fold_left (fun d e => merged e d) h d) = dict_get k d.
Proof.
  induction h as [|e h IH]; intros Hk d; cbn [fold_left]; [reflexivity|].
  cbn [map] in Hk. rewrite IH by (intros H; apply Hk; right; exact H).
  apply merged_other. intros ->. apply Hk. left. reflexivity.
Qed.

Lemma fold_merged_entry (h : pydict) (k : str) (v : value) :
  NoDup (map fst h) -> In (k, v) h ->
  forall d,
    dict_get k (fold_left (fun d e => merged e d) h d) =
    match dict_get k d with
    | None => Some v
    | Some x => if truthy x then Some x else Some v
    end.
Proof.
  induction h as [|e h IH]; intros Hnd Hin d; [destruct Hin|].
  cbn [map] in Hnd. inversion Hnd as [|? ? Hnotin Hnd']; subst.
  cbn [fold_left]. destruct Hin as [-> | Hin].
  - rewrite fold_merged_other by exact Hnotin.
    unfold merged. cbn [fst snd].
    destruct (dict_get k d) as [x|] eqn:E.
    + destruct (truthy x); [exact E|apply dict_get_set_same].
    + apply dict_get_set_same.
  - rewrite (IH Hnd' Hin). rewrite merged_other; [reflexivity|].
    intros ->. apply Hnotin. apply (in_map fst _ _ Hin).
Qed.

(** C3. For an inference result that is a JSON object and heuristics with
    one entry per key, the merge sets every heuristic key that is absent from
    the result, or whose value there is falsy, to the heuristic value; it
    leaves a truthy value, and every key the heuristics do not have, as they
    are: [responsibilities = []] stays [[]] when the heuristics have no such
    key. *)
Theorem merge_heuristics_fills (d h : pydict) :
  NoDup (map fst h) ->
  exists d',
    merge_heuristics (VDict d) h = Ok (VDict d') /\
    (forall k v, In (k, v) h ->
       dict_get k d = None \/ (exists x, dict_get k d = Some x /\ truthy x = false) ->
       dict_get k d' = Some v) /\
    (forall k v x, In (k, v) h ->
       dict_get k d = Some x -> truthy x = true -> dict_get k d' = Some x) /\
    (forall k, ~ In k (map fst h) -> dict_get k d' = dict_get k d) /\
    (dict_get (ustr "responsibilities") d = Some (VList []) ->
     ~ In (ustr "responsibilities") (map fst h) ->
     dict_get (ustr "responsibilities") d' = Some (VList [])).
Proof.
  intros Hnd. eexists. split; [apply merge_heuristics_dict|].
  split; [|split; [|split]].
  - intros k v Hin Hd. rewrite (fold_merged_entry h k v Hnd Hin).
    destruct Hd as [-> | [x [-> Hx]]]; [reflexivity|]. rewrite Hx. reflexivity.
  - intros k v x Hin Hd Hx. rewrite (fold_merged_entry h k v Hnd Hin), Hd, Hx. reflexivity.
  - intros k Hk. apply fold_merged_other. exact Hk.
  - intros Hd Hk. rewrite fold_merged_other by exact Hk. exact Hd.
Qed.

Lemma merge_heuristics_fills_witness :
  exists d',
    merge_heuristics (VDict [(ustr "responsibilities", VList [])])
                     [(ustr "visa_sponsorship", VBool true)] = Ok (VDict d') /\
    dict_get (ustr "visa_sponsorship") d' = Some (VBool true) /\
    dict_get (ustr "responsibilities") d' = Some (VList []).
Proof.
  destruct (merge_heuristics_fills [(ustr "responsibilities", VList [])]
                                   [(ustr "visa_sponsorship", VBool true)])
    as (d' & Hm & Hfill & _ & _ & Hresp).
  - repeat constructor. simpl. intuition.
  - exists d'. split; [exact Hm|]. split.
    + apply (Hfill _ (VBool true)); [left|left]; reflexivity.
    + apply Hresp; [reflexivity|]. simpl. intros [H|[]]. discriminate H.
Defined.

End ParserFacts.

(** ** The uploader *)

Module UploaderFacts.
Import Uploader.

Section NotionFacts.
Variables NOTION_API_KEY DB_JOBS DB_ROLE_TEMPLATE DB_COMPANIES : str.
Variable py_str : value -> str.
Variable json_dumps : value -> str.
Variable World : Type.
Variable requests_post_query :
  str -> value -> value -> World -> result http_response * World.
Variable pages_update : value -> value -> World -> result unit * World.
Variable pages_create : value -> value -> World -> result value * World.
Variable utcnow_date : World -> str.
Variable utcnow_iso : World -> str.

Local Abbreviation state := (state World).
Local Abbreviation M := (M World).
Local Abbreviation bindM := (bindM World).
Local Abbreviation lift := (lift World).
Local Abbreviation ret := (ret World).
Local Abbreviation emit := (emit World).
Local Abbreviation clock := (clock World).
Local Abbreviation st := (st World).
Local Abbreviation notion_query := (notion_query NOTION_API_KEY World requests_post_query).
Local Abbreviation update_page := (update_page World pages_update).
Local Abbreviation create_page := (create_page World pages_create).
Local Abbreviation build_company_props := (build_company_props json_dumps World utcnow_iso).
Local Abbreviation build_role_props := (build_role_props json_dumps World utcnow_iso).
Local Abbreviation build_job_props := (build_job_props json_dumps World utcnow_date).
Local Abbreviation save_body :=
  (save_body NOTION_API_KEY DB_JOBS DB_ROLE_TEMPLATE DB_COMPANIES py_str json_dumps
             World requests_post_query pages_update pages_create utcnow_date utcnow_iso).
Local Abbreviation save_to_notion :=
  (save_to_notion NOTION_API_KEY DB_JOBS DB_ROLE_TEMPLATE DB_COMPANIES py_str json_dumps
             World requests_post_query pages_update pages_create utcnow_date utcnow_iso).
Local Abbreviation quiet := (quiet NOTION_API_KEY World requests_post_query pages_update pages_create).
Local Abbreviation quiet_step := (quiet_step NOTION_API_KEY World requests_post_query pages_update pages_create).
Local Abbreviation query_headers := (query_headers NOTION_API_KEY).

Lemma bindM_ok {A B} (m : M A) (k : A -> M B) (s s2 : state) (b : B) :
  bindM m k s = (Ok b, s2) ->
  exists a s1, m s = (Ok a, s1) /\ k a s1 = (Ok b, s2).
Proof.
  unfold Uploader.bindM. destruct (m s) as [[a|e] s1]; intros H.
  - exists a, s1. split; [reflexivity|exact H].
  - discriminate H.
Qed.

Lemma lift_ok {A} (r : result A) (s s1 : state) (a : A) :
  lift r s = (Ok a, s1) -> r = Ok a /\ s1 = s.
Proof. unfold Uploader.lift. intros H. injection H as -> ->. split; reflexivity. Qed.

Lemma ret_ok {A} (a b : A) (s s1 : state) :
  ret a s = (Ok b, s1) -> b = a /\ s1 = s.
Proof. unfold Uploader.ret. intros H. injection H as -> ->. split; reflexivity. Qed.

Lemma emit_ok (ev : event) (s s1 : state) (u : unit) :
  emit ev s = (Ok u, s1) -> s1 = (fst s, snd s ++ [ev]).
Proof. unfold Uploader.emit. intros H. injection H as _ <-. reflexivity. Qed.

Lemma clock_ok (read : World -> str) (s s1 : state) (a : str) :
  clock read s = (Ok a, s1) -> a = read (fst s) /\ s1 = s.
Proof. unfold Uploader.clock. intros H. injection H as <- <-. split; reflexivity. Qed.

Lemma notion_query_ok (db_id : str) (filter_obj q : value) (s s1 : state) :
  notion_query db_id filter_obj s = (Ok q, s1) ->
  exists res,
    requests_post_query db_id query_headers (query_body filter_obj) (fst s)
      = (Ok res, fst s1) /\
    status_code res = 200%Z /\ json res = Ok q /\
    snd s1 = snd s ++ [EvQuery db_id filter_obj].
Proof.
  unfold Uploader.notion_query. intros H.
  apply bindM_ok in H as (u & s0 & H0 & H). apply emit_ok in H0. subst s0.
  apply bindM_ok in H as (res & s2 & H0 & H). cbn [fst snd] in H0.
  destruct (requests_post_query db_id query_headers (query_body filter_obj) (fst s))
    as [r w] eqn:E.
  injection H0 as -> <-.
  destruct (status_code res =? 200)%Z eqn:Es; cbn [negb] in H.
  - apply lift_ok in H as [Hj ->]. exists res. cbn [fst snd].
    apply Z.eqb_eq in Es. repeat split; assumption || reflexivity.
  - apply lift_ok in H as [Hj _]. discriminate Hj.
Qed.

Lemma update_page_ok (page_id properties : value) (s s1 : state) (u : unit) :
  update_page page_id properties s = (Ok u, s1) ->
  pages_update page_id properties (fst s) = (Ok tt, fst s1) /\
  snd s1 = snd s ++ [EvUpdate page_id properties].
Proof.
  unfold Uploader.update_page. intros H.
  apply bindM_ok in H as (u0 & s0 & H0 & H). apply emit_ok in H0. subst s0.
  cbn [fst snd] in H.
  destruct (pages_update page_id properties (fst s)) as [r w].
  injection H as -> <-. destruct u. split; reflexivity.
Qed.

Lemma create_page_ok (db : str) (properties page : value) (s s1 : state) :
  create_page db properties s = (Ok page, s1) ->
  let parent := VDict [(ustr "database_id", VStr db)] in
  pages_create parent properties (fst s) = (Ok page, fst s1) /\
  snd s1 = snd s ++ [EvCreate parent properties].
Proof.
  unfold Uploader.create_page. intros H.
  apply bindM_ok in H as (u0 & s0 & H0 & H). apply emit_ok in H0. subst s0.
  cbn [fst snd] in H.
  destruct (pages_create _ properties (fst s)) as [r w].
  injection H as -> <-. split; reflexivity.
Qed.

(** One step of the walk along a run that did not raise. *)
Ltac walk1 H :=
  let a := fresh "a" in
  let s := fresh "s" in
  let H1 := fresh "H" in
  apply bindM_ok in H as (a & s & H1 & H);
  first
    [ apply lift_ok in H1 as [H1 ->]
    | apply clock_ok in H1 as [-> ->]
    | apply emit_ok in H1; subst s
    | idtac ].

Lemma build_company_props_ok (parsed v : value) (s s1 : state) :
  build_company_props parsed s = (Ok v, s1) ->
  s1 = s /\ exists d, v = VDict d /\ dict_get fingerprint_key d = None.
Proof.
  unfold Uploader.build_company_props. intros H.
  repeat walk1 H. apply ret_ok in H as [-> ->].
  split; [reflexivity|]. eexists. split; reflexivity.
Qed.

Lemma build_role_props_ok (parsed v : value) (s s1 : state) :
  build_role_props parsed s = (Ok v, s1) ->
  s1 = s /\ exists d, v = VDict d /\ dict_get fingerprint_key d = None.
Proof.
  unfold Uploader.build_role_props. intros H.
  repeat walk1 H. apply ret_ok in H as [-> ->].
  split; [reflexivity|]. eexists. split; reflexivity.
Qed.

Lemma build_job_props_ok (parsed v : value) (jd_text source_url job_hash : str)
    (s s1 : state) :
  build_job_props parsed jd_text source_url job_hash s = (Ok v, s1) ->
  s1 = s /\
  exists d, v = VDict d /\
            dict_get fingerprint_key d = Some (text_prop "rich_text" (VStr job_hash)).
Proof.
  unfold Uploader.build_job_props. intros H.
  repeat walk1 H. apply ret_ok in H as [-> ->].
  split; [reflexivity|]. eexists. split; reflexivity.
Qed.

Lemma quiet_one (s1 s2 : state) : quiet_step s1 s2 -> quiet s1 s2.
Proof. intros H. eapply quiet_cons; [exact H|apply quiet_nil]. Qed.

Lemma quiet_trans (s1 s2 s3 : state) : quiet s1 s2 -> quiet s2 s3 -> quiet s1 s3.
Proof.
  induction 1 as [|a b c Hab Hbc IH]; intros H; [exact H|].
  eapply quiet_cons; [exact Hab|apply IH, H].
Qed.

Lemma quiet_snoc (s1 s2 s3 : state) : quiet s1 s2 -> quiet_step s2 s3 -> quiet s1 s3.
Proof. intros H12 H23. eapply quiet_trans; [exact H12|apply quiet_one, H23]. Qed.

Lemma state_eta (s : state) (w : World) (tr : list event) :
  fst s = w -> snd s = tr -> s = (w, tr).
Proof. destruct s. cbn. congruence. Qed.

(** A query is a quiet step. *)
Lemma notion_query_quiet (db_id : str) (filter_obj q : value) (s s1 : state) :
  notion_query db_id filter_obj s = (Ok q, s1) -> quiet_step s s1.
Proof.
  intros H. apply notion_query_ok in H as (res & Hq & _ & _ & Htr).
  rewrite (state_eta s1 _ _ eq_refl Htr). eapply quiet_query. exact Hq.
Qed.

Lemma update_page_quiet (page_id : value) (d : pydict) (s s1 : state) (u : unit) :
  dict_get fingerprint_key d = None ->
  update_page page_id (VDict d) s = (Ok u, s1) -> quiet_step s s1.
Proof.
  intros Hd H. apply update_page_ok in H as [Hu Htr].
  rewrite (state_eta s1 _ _ eq_refl Htr). eapply quiet_update; eassumption.
Qed.

Lemma create_page_quiet (db : str) (d : pydict) (page : value) (s s1 : state) :
  dict_get fingerprint_key d = None ->
  create_page db (VDict d) s = (Ok page, s1) -> quiet_step s s1.
Proof.
  intros Hd H. apply create_page_ok in H as [Hu Htr].
  rewrite (state_eta s1 _ _ eq_refl Htr). eapply quiet_create; eassumption.
Qed.

Lemma st_quiet (e : st_event) (s s1 : state) (u : unit) :
  st e s = (Ok u, s1) -> quiet_step s s1.
Proof.
  unfold Uploader.st. intros H. apply emit_ok in H. subst s1. apply quiet_st.
Qed.


Lemma save_body_saved (parsed : value) (jd_text source_url : str)
    (s s' : state) (id : value) :
  save_body parsed jd_text source_url s = (Ok (Some id), s') ->
  exists company h q s1 results s_pre d new_job,
    py_get parsed (ustr "company") (VStr (ustr "Unknown Company")) = Ok company /\
    hash_job_text jd_text (format_value py_str company) = Ok h /\
    notion_query DB_JOBS (fingerprint_filter h) s = (Ok q, s1) /\
    py_get q (ustr "results") VNone = Ok results /\
    truthy results = false /\
    quiet s1 s_pre /\
    dict_get fingerprint_key d = Some (text_prop "rich_text" (VStr h)) /\
    create_page DB_JOBS (VDict d) s_pre = (Ok new_job, (fst s', removelast (snd s'))).
Proof.
  unfold Uploader.save_body. intros H.
  walk1 H. rename a into company, H0 into Hcompany.
  walk1 H. rename a into h, H0 into Hh.
  apply bindM_ok in H as (q & s1 & Hq & H).
  walk1 H. rename a into results, H0 into Hresults.
  destruct (truthy results) eqn:Etruthy.
  { walk1 H. apply ret_ok in H as [H _]. discriminate H. }
  exists company, h, q, s1, results.
  walk1 H.
  apply bindM_ok in H as (q_company & s2 & Hq2 & H).
  apply notion_query_quiet in Hq2.
  apply bindM_ok in H as (company_props & s3 & Hb & H).
  apply build_company_props_ok in Hb as [-> (dc & -> & Hdc)].
  walk1 H.
  apply bindM_ok in H as (company_page_id & s3 & Hup & H).
  assert (Hq3 : quiet s2 s3).
  { destruct (truthy a0).
    - apply bindM_ok in Hup as (u & s4 & Hu & Hup).
      apply (update_page_quiet _ _ _ _ _ Hdc) in Hu.
      apply bindM_ok in Hup as (u' & s5 & Hst & Hup). apply st_quiet in Hst.
      apply ret_ok in Hup as [_ ->].
      eapply quiet_cons; [exact Hu|apply quiet_one, Hst].
    - apply bindM_ok in Hup as (new & s4 & Hu & Hup).
      apply (create_page_quiet _ _ _ _ _ Hdc) in Hu.
      walk1 Hup.
      apply bindM_ok in Hup as (u' & s5 & Hst & Hup). apply st_quiet in Hst.
      apply ret_ok in Hup as [_ ->].
      eapply quiet_cons; [exact Hu|apply quiet_one, Hst]. }
  clear Hup.
  walk1 H. walk1 H.
  apply bindM_ok in H as (q_role & s4 & Hq4 & H).
  apply notion_query_quiet in Hq4.
  apply bindM_ok in H as (role_props & s5 & Hb & H).
  apply build_role_props_ok in Hb as [-> (dr & -> & Hdr)].
  walk1 H. cbn [py_setitem] in H4. injection H4 as <-.
  assert (Hdr' : dict_get fingerprint_key
                   (dict_set (ustr "Parsed Company") (relation company_page_id) dr) = None).
  { rewrite dict_get_set_other; [exact Hdr|]. vm_compute. discriminate. }
  walk1 H.
  apply bindM_ok in H as (role_page_id & s5 & Hup & H).
  assert (Hq5 : quiet s4 s5).
  { destruct (truthy a3).
    - apply bindM_ok in Hup as (u & s6 & Hu & Hup).
      apply (update_page_quiet _ _ _ _ _ Hdr') in Hu.
      walk1 Hup.
      apply bindM_ok in Hup as (u' & s7 & Hst & Hup). apply st_quiet in Hst.
      apply ret_ok in Hup as [_ ->].
      eapply quiet_cons; [exact Hu|apply quiet_one, Hst].
    - apply bindM_ok in Hup as (new & s6 & Hu & Hup).
      apply (create_page_quiet _ _ _ _ _ Hdr') in Hu.
      walk1 Hup. walk1 Hup.
      apply bindM_ok in Hup as (u' & s7 & Hst & Hup). apply st_quiet in Hst.
      apply ret_ok in Hup as [_ ->].
      eapply quiet_cons; [exact Hu|apply quiet_one, Hst]. }
  clear Hup.
  apply bindM_ok in H as (job_props & s6 & Hb & H).
  apply build_job_props_ok in Hb as [-> (dj & -> & Hdj)].
  walk1 H. cbn [py_setitem] in H5. injection H5 as <-.
  walk1 H. cbn [py_setitem] in H5. injection H5 as <-.
  apply bindM_ok in H as (new_job & s6 & Hcreate & H).
  apply bindM_ok in H as (u & s7 & Hst & H).
  unfold Uploader.st in Hst. apply emit_ok in Hst. subst s7.
  walk1 H. apply ret_ok in H as [_ Hs]. subst s'.
  exists s5.
  exists (dict_set (ustr "Parsed Company") (relation company_page_id)
            (dict_set (ustr "Parsed Role Template") (relation role_page_id) dj)).
  exists new_job.
  split; [exact Hcompany|]. split; [exact Hh|]. split; [exact Hq|].
  split; [exact Hresults|]. split; [exact Etruthy|].
  split.
  { eapply quiet_cons; [exact Hq2|].
    eapply quiet_trans; [exact Hq3|].
    eapply quiet_cons; [exact Hq4|exact Hq5]. }
  split.
  { rewrite !dict_get_set_other; [exact Hdj| |]; vm_compute; discriminate. }
  cbn [fst snd]. rewrite removelast_last. rewrite Hcreate. destruct s6; reflexivity.
Qed.

(** The duplicate outcome. *)
Lemma save_duplicate (parsed : value) (jd_text source_url : str) (s s1 : state)
    (company q results : value) (h : str) :
  py_get parsed (ustr "company") (VStr (ustr "Unknown Company")) = Ok company ->
  hash_job_text jd_text (format_value py_str company) = Ok h ->
  notion_query DB_JOBS (fingerprint_filter h) s = (Ok q, s1) ->
  py_get q (ustr "results") VNone = Ok results ->
  truthy results = true ->
  save_to_notion parsed jd_text source_url s =
  (Duplicate,
   (fst s1, snd s ++ [EvQuery DB_JOBS (fingerprint_filter h); EvSt duplicate_warning])).
Proof.
  intros Hc Hh Hq Hr Ht.
  unfold Uploader.save_to_notion, Uploader.save_body.
  unfold Uploader.bindM at 1. unfold Uploader.lift at 1. rewrite Hc.
  unfold Uploader.bindM at 1. unfold Uploader.lift at 1. rewrite Hh.
  unfold Uploader.bindM at 1. rewrite Hq.
  unfold Uploader.bindM at 1. unfold Uploader.lift at 1. rewrite Hr. rewrite Ht.
  apply notion_query_ok in Hq as (res & _ & _ & _ & Htr).
  cbn. rewrite Htr, <- app_assoc. reflexivity.
Qed.
End NotionFacts.
End UploaderFacts.

Module RefStoreFacts.
Import Uploader RefStore UploaderFacts.

Section Reference.
Variables NOTION_API_KEY DB_JOBS DB_ROLE_TEMPLATE DB_COMPANIES : str.
Variable py_str : value -> str.
Variable json_dumps : value -> str.

Local Abbreviation state := (Uploader.state store).
Local Abbreviation quiet :=
  (quiet NOTION_API_KEY store requests_post_query pages_update pages_create).
Local Abbreviation quiet_step :=
  (quiet_step NOTION_API_KEY store requests_post_query pages_update pages_create).
Local Abbreviation save :=
  (save NOTION_API_KEY DB_JOBS DB_ROLE_TEMPLATE DB_COMPANIES py_str json_dumps).


Lemma query_keeps_store (db_id : str) (headers body : value) (s : store) :
  snd (requests_post_query db_id headers body s) = s.
Proof.
  unfold requests_post_query.
  destruct body; try reflexivity.
  destruct (dict_get (ustr "filter") d); [|reflexivity].
  destruct (filter_test v); reflexivity.
Qed.

Lemma jobs_with_filter (db_id h : str) (s : store) :
  jobs_with db_id h s =
  filter (fun p => str_eqb (page_parent p) db_id &&
                   match prop_content "rich_text" (page_props p) fingerprint_key with
                   | Some c => str_eqb c h
                   | None => false
                   end) (pages s).
Proof. reflexivity. Qed.

Lemma fingerprint_query (db_id : str) (headers : value) (h : str) (s : store) :
  requests_post_query db_id headers (query_body (fingerprint_filter h)) s =
  (Ok {| status_code := 200; text := [];
         json := Ok (VDict [(ustr "results",
                             VList (map page_json (jobs_with db_id h s)))]) |}, s).
Proof. reflexivity. Qed.

Lemma dict_get_fold_set (k : str) (props d : pydict) :
  dict_get k props = None ->
  dict_get k (fold_left (fun d kv => dict_set (fst kv) (snd kv) d) props d) = dict_get k d.
Proof.
  revert d. induction props as [|[k' v] props IH]; intros d H; [reflexivity|].
  cbn [fold_left fst snd]. cbn [dict_get] in H.
  destruct (str_eqb k' k) eqn:E; [discriminate H|].
  rewrite IH by exact H. apply dict_get_set_other.
  intros ->. rewrite str_eqb_refl in E. discriminate E.
Qed.

Lemma carries_set_props (db_jobs h : str) (props : pydict) (p : page) :
  dict_get fingerprint_key props = None ->
  carries db_jobs h (set_props props p) = carries db_jobs h p.
Proof.
  intros H. unfold carries, set_props, prop_content. cbn [page_parent page_props].
  rewrite dict_get_fold_set by exact H. reflexivity.
Qed.

Lemma filter_map_same {A} (P : A -> bool) (f : A -> A) (l : list A) :
  (forall a, P (f a) = P a) ->
  length (filter P (map f l)) = length (filter P l).
Proof.
  intros H. induction l as [|a l IH]; [reflexivity|].
  cbn [map filter]. rewrite H. destruct (P a); cbn [length]; rewrite IH; reflexivity.
Qed.

Lemma quiet_step_count (db_jobs h : str) (s1 s2 : state) :
  quiet_step s1 s2 ->
  length (jobs_with db_jobs h (fst s2)) = length (jobs_with db_jobs h (fst s1)).
Proof.
  intros H. inversion H as [s db f r w Hq | s id d w Hd Hu | s parent d page w Hd Hc | s e];
    subst; cbn [fst].
  - pose proof (query_keeps_store db (query_headers NOTION_API_KEY) (query_body f) (fst s1)) as Hk.
    rewrite Hq in Hk. cbn [snd] in Hk. subst w. reflexivity.
  - unfold pages_update in Hu. destruct id; try discriminate Hu.
    destruct (existsb _ _); [|discriminate Hu].
    injection Hu as <-. unfold jobs_with. cbn [pages].
    apply (filter_map_same (carries db_jobs h)).
    intros p. destruct (str_eqb (page_id p) s); [|reflexivity].
    apply carries_set_props. exact Hd.
  - unfold pages_create in Hc.
    destruct parent as [| | | | |l|[|[key [| | | |db| |]] [|? ?]]]; try discriminate Hc.
    destruct (str_eqb key (ustr "database_id")); [|discriminate Hc].
    injection Hc as _ <-. unfold jobs_with. cbn [pages].
    rewrite filter_app, length_app. cbn [filter]. unfold carries at 2.
    cbn [page_parent page_props].
    unfold prop_content. rewrite Hd. rewrite andb_false_r. cbn [length]. lia.
  - reflexivity.
Qed.

Lemma quiet_count (db_jobs h : str) (s1 s2 : state) :
  quiet s1 s2 ->
  length (jobs_with db_jobs h (fst s2)) = length (jobs_with db_jobs h (fst s1)).
Proof.
  induction 1 as [|a b c Hab Hbc IH]; [reflexivity|].
  rewrite IH. apply (quiet_step_count db_jobs h a b Hab).
Qed.

Lemma create_job_count (db_jobs h : str) (d : pydict) (page : value) (s s1 : store) :
  dict_get fingerprint_key d = Some (text_prop "rich_text" (VStr h)) ->
  pages_create (VDict [(ustr "database_id", VStr db_jobs)]) (VDict d) s = (Ok page, s1) ->
  length (jobs_with db_jobs h s1) = S (length (jobs_with db_jobs h s)).
Proof.
  intros Hd Hc. unfold pages_create in Hc.
  change (str_eqb (ustr "database_id") (ustr "database_id")) with true in Hc.
  injection Hc as _ <-. unfold jobs_with. cbn [pages].
  rewrite filter_app, length_app. cbn [filter]. unfold carries at 2.
  cbn [page_parent page_props].
  unfold prop_content. rewrite Hd. cbn. rewrite !str_eqb_refl. cbn [andb length]. lia.
Qed.


Lemma save_twice (parsed parsed' : value) (jd_text source_url source_url' : str)
    (s s1 : state) (id : value) :
  py_get parsed' (ustr "company") (VStr (ustr "Unknown Company")) =
  py_get parsed (ustr "company") (VStr (ustr "Unknown Company")) ->
  save parsed jd_text source_url s = (Saved id, s1) ->
  exists company h s2,
    py_get parsed (ustr "company") (VStr (ustr "Unknown Company")) = Ok company /\
    hash_job_text jd_text (format_value py_str company) = Ok h /\
    save parsed' jd_text source_url' s1 = (Duplicate, s2) /\
    fst s2 = fst s1 /\
    snd s2 = snd s1 ++ [EvQuery DB_JOBS (fingerprint_filter h); EvSt duplicate_warning] /\
    length (jobs_with DB_JOBS h (fst s)) = 0%nat /\
    length (jobs_with DB_JOBS h (fst s2)) = 1%nat.
Proof.
  unfold RefStore.save, save_to_notion. intros Hsame H.
  destruct (save_body _ _ _ _ _ _ _ _ _ _ _ _ parsed jd_text source_url s)
    as [[[job_id|]|e] s'] eqn:Hbody; try discriminate H.
  injection H as -> ->.
  apply save_body_saved in Hbody
    as (company & h & q & sq & results & s_pre & d & new_job &
        Hcompany & Hh & Hq & Hresults & Hfalsy & Hquiet & Hd & Hcreate).
  exists company, h.
  (* the first query found no job with this fingerprint *)
  apply notion_query_ok in Hq as (res & Hpost & _ & Hjson & _).
  rewrite fingerprint_query in Hpost. injection Hpost as <- Hsq.
  cbn [json] in Hjson. injection Hjson as <-.
  cbn in Hresults. injection Hresults as <-.
  assert (H0 : length (jobs_with DB_JOBS h (fst s)) = 0%nat).
  { destruct (jobs_with DB_JOBS h (fst s)); [reflexivity|discriminate Hfalsy]. }
  (* the job record is the only one written with it *)
  apply create_page_ok in Hcreate as [Hcreate _]. cbn [fst] in Hcreate.
  pose proof (create_job_count DB_JOBS h d new_job _ _ Hd Hcreate) as H1.
  rewrite (quiet_count DB_JOBS h _ _ Hquiet), <- Hsq, H0 in H1.
  (* so the second query finds it *)
  rewrite <- Hsame in Hcompany.
  eexists. split; [rewrite <- Hsame; exact Hcompany|]. split; [exact Hh|].
  split.
  { fold (save_to_notion NOTION_API_KEY DB_JOBS DB_ROLE_TEMPLATE DB_COMPANIES py_str
            json_dumps store requests_post_query pages_update pages_create
            utcnow_date utcnow_iso parsed' jd_text source_url' s1).
    eapply (save_duplicate _ _ _ _ _ _ _ _ _ _ _ _ parsed' jd_text source_url' s1
              (fst s1, snd s1 ++ [EvQuery DB_JOBS (fingerprint_filter h)])
              company _ _ h Hcompany Hh).
    - unfold notion_query, bindM, emit, lift. cbn [fst snd].
      rewrite fingerprint_query. cbn. reflexivity.
    - reflexivity.
    - cbn [truthy]. destruct (jobs_with DB_JOBS h (fst s1)); [discriminate H1|reflexivity]. }
  cbn [fst snd]. repeat split; assumption.
Qed.
End Reference.

(** C1. When the query of the Job collection for the computed fingerprint
    returns a result, [save_to_notion] ends in the duplicate outcome, and
    what it did is that query and the warning: no page is created or
    updated.  Against the reference store, an ingestion that saved its job
    is followed, for a record with the same company and for the same text,
    by one that ends in the duplicate outcome and leaves the store as it is:
    the store holds exactly one Job record with the fingerprint, and held
    none before. *)
Theorem save_to_notion_duplicate_skip :
  (forall (NOTION_API_KEY DB_JOBS DB_ROLE_TEMPLATE DB_COMPANIES : str)
          (py_str json_dumps : value -> str) (World : Type)
          (requests_post_query :
             str -> value -> value -> World -> result http_response * World)
          (pages_update : value -> value -> World -> result unit * World)
          (pages_create : value -> value -> World -> result value * World)
          (utcnow_date utcnow_iso : World -> str)
          (parsed : value) (jd_text source_url : str)
          (s s1 : Uploader.state World) (company q results : value) (h : str),
      py_get parsed (ustr "company") (VStr (ustr "Unknown Company")) = Ok company ->
      hash_job_text jd_text (format_value py_str company) = Ok h ->
      notion_query NOTION_API_KEY World requests_post_query
                   DB_JOBS (fingerprint_filter h) s = (Ok q, s1) ->
      py_get q (ustr "results") VNone = Ok results ->
      truthy results = true ->
      exists s',
        save_to_notion NOTION_API_KEY DB_JOBS DB_ROLE_TEMPLATE DB_COMPANIES
                       py_str json_dumps World requests_post_query pages_update
                       pages_create utcnow_date utcnow_iso
                       parsed jd_text source_url s = (Duplicate, s') /\
        fst s' = fst s1 /\
        snd s' = snd s ++ [EvQuery DB_JOBS (fingerprint_filter h);
                           EvSt duplicate_warning] /\
        filter is_write (snd s') = filter is_write (snd s)) /\
  (forall (NOTION_API_KEY DB_JOBS DB_ROLE_TEMPLATE DB_COMPANIES : str)
          (py_str json_dumps : value -> str)
          (parsed parsed' : value) (jd_text source_url source_url' : str)
          (s s1 : Uploader.state store) (id : value),
      py_get parsed' (ustr "company") (VStr (ustr "Unknown Company")) =
      py_get parsed (ustr "company") (VStr (ustr "Unknown Company")) ->
      save NOTION_API_KEY DB_JOBS DB_ROLE_TEMPLATE DB_COMPANIES py_str json_dumps
           parsed jd_text source_url s = (Saved id, s1) ->
      exists company h s2,
        py_get parsed (ustr "company") (VStr (ustr "Unknown Company")) = Ok company /\
        hash_job_text jd_text (format_value py_str company) = Ok h /\
        save NOTION_API_KEY DB_JOBS DB_ROLE_TEMPLATE DB_COMPANIES py_str json_dumps
             parsed' jd_text source_url' s1 = (Duplicate, s2) /\
        fst s2 = fst s1 /\
        snd s2 = snd s1 ++ [EvQuery DB_JOBS (fingerprint_filter h);
                            EvSt duplicate_warning] /\
        length (jobs_with DB_JOBS h (fst s)) = 0%nat /\
        length (jobs_with DB_JOBS h (fst s2)) = 1%nat).
Proof.
  split.
  - intros key dbj dbr dbc py_str json_dumps World rpq pu pc ud ui
           parsed jd_text source_url s s1 company q results h Hc Hh Hq Hr Ht.
    eexists. split.
    + apply (save_duplicate key dbj dbr dbc py_str json_dumps World rpq pu pc ud ui
               parsed jd_text source_url s s1 company q results h Hc Hh Hq Hr Ht).
    + cbn [fst snd]. split; [reflexivity|]. split; [reflexivity|].
      rewrite filter_app. cbn. apply app_nil_r.
  - intros key dbj dbr dbc py_str json_dumps parsed parsed' jd_text
           source_url source_url' s s1 id Hsame H.
    exact (save_twice key dbj dbr dbc py_str json_dumps parsed parsed' jd_text
                      source_url source_url' s s1 id Hsame H).
Qed.

Lemma save_to_notion_duplicate_skip_witness :
  let record := VDict [(ustr "company", VStr (ustr "Acme"));
                       (ustr "position_title", VStr (ustr "Engineer"))] in
  let again := VDict [(ustr "company", VStr (ustr "Acme"));
                      (ustr "position_title", VStr (ustr "Staff Engineer"))] in
  let ingest (parsed : value) (source_url : str) :=
    save (ustr "secret") (ustr "jobs") (ustr "roles") (ustr "companies")
         (fun _ => ustr "None") (fun _ => ustr "{}") parsed (ustr "X") source_url in
  let empty : Uploader.state store := ({| pages := []; next_id := 0 |}, []) in
  let first := ingest record [] empty in
  let second := ingest again (ustr "https://example.org/job") (snd first) in
  fst first = Saved (VStr (ustr "page-2")) /\
  fst second = Duplicate /\
  fst (snd second) = fst (snd first) /\
  length (jobs_with (ustr "jobs") (ustr "580a0fccab5f9a17") (fst (snd second))) = 1%nat.
Proof.
  intros record again ingest empty first second.
  assert (H1 : first = (Saved (VStr (ustr "page-2")), snd first))
    by (vm_compute; reflexivity).
  destruct (proj2 save_to_notion_duplicate_skip
              (ustr "secret") (ustr "jobs") (ustr "roles") (ustr "companies")
              (fun _ => ustr "None") (fun _ => ustr "{}") record again (ustr "X") []
              (ustr "https://example.org/job")
              empty (snd first) (VStr (ustr "page-2")) eq_refl H1)
    as (company & h & s2 & Hc & Hh & H2 & Hsame & _ & _ & Hone).
  assert (Eh : h = ustr "580a0fccab5f9a17").
  { injection Hc as <-. vm_compute in Hh. injection Hh as <-. reflexivity. }
  subst h. fold (ingest again (ustr "https://example.org/job") (snd first)) in H2.
  fold second in H2. rewrite H2. cbn [fst snd].
  rewrite H1 at 1. cbn [fst]. repeat split; assumption.
Defined.

End RefStoreFacts.


(** ** The shape of a cleaned text *)

Module CleanFacts.
Import Re Parser Canon Keywords Outcomes ParserFacts.

Lemma canon_head (t : str) :
  forall q,
    match canon q t with
    | [] => True
    | c :: r =>
        let spaced :=
          c = 32 /\ match r with d :: _ => py_isspace d = false | [] => False end in
        match q with
        | Start => py_isspace c = false
        | Pend => spaced
        | NoPend => py_isspace c = false \/ spaced
        end
    end.
Proof.
  induction t as [|c t IH]; intros q; [exact I|].
  destruct (py_isspace c) eqn:E.
  - rewrite (canon_space q c t E). specialize (IH (after_space q)).
    destruct q; cbn [after_space] in *; try exact IH.
    destruct (canon Pend t); [exact I|]. right. exact IH.
  - rewrite (canon_char q c t E). pose proof (fold_char_not_space c E) as F.
    destruct q; cbn [space_of app]; cbv zeta; auto.
Qed.

Lemma canon_spaces (t : str) :
  forall q c, In c (canon q t) -> py_isspace c = true -> c = 32.
Proof.
  induction t as [|x t IH]; intros q c Hin Hc; [destruct Hin|].
  destruct (py_isspace x) eqn:E.
  - rewrite (canon_space q x t E) in Hin. exact (IH _ _ Hin Hc).
  - rewrite (canon_char q x t E) in Hin. apply in_app_or in Hin as [Hin|Hin].
    + destruct q; cbn in Hin; intuition.
    + destruct Hin as [<-|Hin].
      * rewrite (fold_char_not_space x E) in Hc. discriminate Hc.
      * exact (IH _ _ Hin Hc).
Qed.

Lemma canon_no_dash (t : str) :
  forall q c, In c (canon q t) -> c <> 0x2013 /\ c <> 0x2014 /\ c <> 0xA0.
Proof.
  induction t as [|x t IH]; intros q c Hin; [destruct Hin|].
  destruct (py_isspace x) eqn:E.
  - rewrite (canon_space q x t E) in Hin. exact (IH _ _ Hin).
  - rewrite (canon_char q x t E) in Hin. apply in_app_or in Hin as [Hin|Hin].
    + destruct q; cbn in Hin; try tauto. destruct Hin as [<-|[]].
      repeat split; discriminate.
    + destruct Hin as [<-|Hin]; [|exact (IH _ _ Hin)].
      unfold fold_char.
      destruct (x =? 0x2013) eqn:E1; [repeat split; discriminate|].
      destruct (x =? 0x2014) eqn:E2; [repeat split; discriminate|].
      cbn [orb]. apply N.eqb_neq in E1, E2. repeat split; try assumption.
      intros ->. discriminate E.
Qed.

Lemma contains_cons (n : str) (c : N) (s : str) :
  contains n (c :: s) = starts_with n (c :: s) || contains n s.
Proof. reflexivity. Qed.

Lemma canon_single_spaces (t : str) :
  forall q, contains [32; 32] (canon q t) = false.
Proof.
  induction t as [|x t IH]; intros q; [reflexivity|].
  destruct (py_isspace x) eqn:E.
  - rewrite (canon_space q x t E). apply IH.
  - rewrite (canon_char q x t E).
    assert (Hx : (32 =? fold_char x) = false).
    { apply N.eqb_neq. intros H. pose proof (fold_char_not_space x E) as F.
      rewrite <- H in F. discriminate F. }
    assert (A : contains [32; 32]
                  (fold_char x :: canon (if x =? bullet then Pend else NoPend) t) = false).
    { rewrite contains_cons. cbn [starts_with]. rewrite Hx. cbn [andb orb]. apply IH. }
    destruct q; cbn [space_of app]; try exact A.
    rewrite contains_cons. cbn [starts_with]. rewrite Hx.
    rewrite N.eqb_refl. cbn [andb orb]. exact A.
Qed.

Lemma canon_lstrip (t : str) : lstrip (canon Start t) = canon Start t.
Proof.
  pose proof (canon_head t Start) as H.
  destruct (canon Start t) as [|c r]; [reflexivity|].
  cbn [lstrip]. rewrite H. reflexivity.
Qed.

Lemma canon_rstrip (t : str) :
  forall q, rstrip (canon q t) = canon q t.
Proof.
  induction t as [|x t IH]; intros q; [reflexivity|].
  destruct (py_isspace x) eqn:E.
  - rewrite (canon_space q x t E). apply IH.
  - rewrite (canon_char q x t E).
    assert (A : forall q', rstrip (fold_char x :: canon q' t) = fold_char x :: canon q' t).
    { intros q'. cbn [rstrip]. rewrite IH, (fold_char_not_space x E).
      destruct (canon q' t); reflexivity. }
    destruct q; cbn [space_of app]; try apply A.
    cbn [rstrip]. rewrite IH, (fold_char_not_space x E).
    destruct (canon _ t); reflexivity.
Qed.

(** X1. A cleaned text is in normal form: the only white-space character
    it holds is the space U+0020, never twice in a row and never at either
    end, and it holds no en dash, no em dash and no no-break space. *)
Theorem clean_text_normal_form (text : option str) :
  let out := clean_text text in
  (forall c, In c out -> py_isspace c = true -> c = 32) /\
  contains [32; 32] out = false /\
  strip out = out /\
  (forall c, In c out -> c <> 0x2013 /\ c <> 0x2014 /\ c <> 0xA0).
Proof.
  destruct text as [t|]; cbv zeta.
  2:{ cbn. repeat split; try tauto. }
  rewrite clean_text_canon.
  split; [apply canon_spaces|]. split; [apply canon_single_spaces|].
  split; [|apply canon_no_dash].
  unfold strip. rewrite canon_lstrip. apply canon_rstrip.
Qed.

Lemma canon_empty (t : str) :
  forall q, canon q t = [] <-> forallb py_isspace t = true.
Proof.
  induction t as [|x t IH]; intros q; [split; reflexivity|].
  cbn [forallb]. destruct (py_isspace x) eqn:E.
  - rewrite (canon_space q x t E). cbn [andb]. apply IH.
  - rewrite (canon_char q x t E). cbn [andb]. split; [|discriminate].
    destruct q; discriminate.
Qed.

(** X2. [clean_text] returns the empty string exactly for the texts made
    of white space only, the empty text among them. *)
Theorem clean_text_empty_iff (text : str) :
  clean_text (Some text) = [] <-> forallb py_isspace text = true.
Proof. rewrite clean_text_canon. apply canon_empty. Qed.

Lemma canon_bullets (t : str) :
  forall q c, contains [bullet; c] (canon q t) = true -> c = 32.
Proof.
  induction t as [|x t IH]; intros q c H; [discriminate H|].
  destruct (py_isspace x) eqn:E.
  - rewrite (canon_space q x t E) in H. exact (IH _ _ H).
  - rewrite (canon_char q x t E) in H.
    assert (A : contains [bullet; c]
                  (fold_char x :: canon (if x =? bullet then Pend else NoPend) t) = true ->
                c = 32).
    { rewrite contains_cons. cbn [starts_with]. intros A. apply orb_true_iff in A as [A|A].
      - apply andb_true_iff in A as [A1 A2].
        rewrite N.eqb_sym, fold_char_bullet in A1. rewrite A1 in A2.
        pose proof (canon_head t Pend) as Hh.
        destruct (canon Pend t) as [|d r]; [discriminate A2|].
        rewrite andb_true_r in A2. apply N.eqb_eq in A2. subst d. apply Hh.
      - exact (IH _ _ A). }
    destruct q; cbn [space_of app] in H; apply A; exact H.
Qed.

(** X3. In a cleaned text a bullet is followed by a space, unless it is
    the last character. *)
Theorem clean_text_bullet_spacing (text : option str) (c : N) :
  contains [bullet; c] (clean_text text) = true -> c = 32.
Proof.
  destruct text as [t|]; [|discriminate].
  rewrite clean_text_canon. apply canon_bullets.
Qed.

Lemma clean_text_bullet_spacing_witness :
  contains [bullet; 32] (clean_text (Some [bullet; 120])) = true /\ 32 = 32.
Proof.
  split; [reflexivity|].
  apply (clean_text_bullet_spacing (Some [bullet; 120]) 32). reflexivity.
Defined.

End CleanFacts.

(** ** More on the matcher *)

Module ReFacts.
Import Re Parser Keywords ParserFacts MatchSem.

Lemma matches_found (r : regex) (s : str) : matches r s = found r None s.
Proof.
  unfold matches, search, found. destruct (search_from r None s); reflexivity.
Qed.

Lemma rmatch_seq {A} (r1 r2 : regex) (prev : option N) (s : str) (g : groups)
    (k : option N -> str -> groups -> option A) :
  rmatch (Seq r1 r2) prev s g k =
  rmatch r1 prev s g (fun prev' s' g' => rmatch r2 prev' s' g' k).
Proof. reflexivity. Qed.

Lemma rmatch_cls {A} (p : N -> bool) (prev : option N) (s : str) (g : groups)
    (k : option N -> str -> groups -> option A) :
  rmatch (Cls p) prev s g k =
  match s with
  | c :: s' => if p c then k (Some c) s' g else None
  | [] => None
  end.
Proof. reflexivity. Qed.

Lemma rmatch_grp {A} (n : nat) (r : regex) (prev : option N) (s : str) (g : groups)
    (k : option N -> str -> groups -> option A) :
  rmatch (Grp n r) prev s g k =
  rmatch r prev s g
    (fun prev' s' g' => k prev' s' ((n, firstn (length s - length s') s) :: g')).
Proof. reflexivity. Qed.

Lemma rmatch_rep_nil {A} (p : N -> bool) (prev : option N) (g : groups)
    (k : option N -> str -> groups -> option A) :
  rmatch (Rep p) prev [] g k = k prev [] g.
Proof. reflexivity. Qed.

Lemma rmatch_rep_cons {A} (p : N -> bool) (prev : option N) (c : N) (s : str)
    (g : groups) (k : option N -> str -> groups -> option A) :
  rmatch (Rep p) prev (c :: s) g k =
  if p c then
    match rmatch (Rep p) (Some c) s g k with
    | Some x => Some x
    | None => k prev (c :: s) g
    end
  else k prev (c :: s) g.
Proof. reflexivity. Qed.

(** What a repetition has consumed when the match goes through. *)
Lemma rmatch_rep_inv {A} (p : N -> bool) (g : groups)
    (k : option N -> str -> groups -> option A) (x : A) :
  forall (s : str) (prev : option N),
    rmatch (Rep p) prev s g k = Some x ->
    exists w s', s = w ++ s' /\ forallb p w = true /\
                 k (last_opt prev w) s' g = Some x.
Proof.
  induction s as [|c s IH]; intros prev H.
  - rewrite rmatch_rep_nil in H. exists [], []. repeat split. exact H.
  - rewrite rmatch_rep_cons in H. destruct (p c) eqn:E.
    + destruct (rmatch (Rep p) (Some c) s g k) as [y|] eqn:E2.
      * injection H as ->. destruct (IH _ E2) as (w & s' & -> & Hw & Hk).
        exists (c :: w), s'. cbn [forallb app]. rewrite E, Hw. repeat split. exact Hk.
      * exists [], (c :: s). repeat split. exact H.
    + exists [], (c :: s). repeat split. exact H.
Qed.

(** The greedy repetition takes all of [w] when what follows accepts that. *)
Lemma rmatch_rep_all {A} (p : N -> bool) (g : groups)
    (k : option N -> str -> groups -> option A) (x : A) (rest : str) :
  match rest with c :: _ => p c = false | [] => True end ->
  forall (w : str) (prev : option N),
    forallb p w = true ->
    k (last_opt prev w) rest g = Some x ->
    rmatch (Rep p) prev (w ++ rest) g k = Some x.
Proof.
  intros Hrest. induction w as [|c w IH]; intros prev Hw Hk.
  - cbn [app]. destruct rest as [|c rest]; [exact Hk|].
    rewrite rmatch_rep_cons, Hrest. exact Hk.
  - cbn [forallb] in Hw. apply andb_true_iff in Hw as [Hc Hw].
    cbn [app]. rewrite rmatch_rep_cons, Hc.
    rewrite (IH (Some c) Hw Hk). reflexivity.
Qed.

Lemma search_from_none (r : regex) (P : N -> bool) :
  (forall prev s, match s with c :: _ => P c = false | [] => True end ->
                  match_here r prev s = None) ->
  forall s prev, forallb (fun c => negb (P c)) s = true -> search_from r prev s = None.
Proof.
  intros Hr. induction s as [|c s IH]; intros prev Hs; cbn [search_from].
  - rewrite Hr; [reflexivity|exact I].
  - cbn [forallb] in Hs. apply andb_true_iff in Hs as [Hc Hs].
    rewrite Hr by (apply negb_true_iff, Hc). apply IH, Hs.
Qed.

Lemma search_from_inv (r : regex) (m : str * groups) :
  forall s prev,
    search_from r prev s = Some m ->
    exists u s', s = u ++ s' /\ match_here r (last_opt prev u) s' = Some m.
Proof.
  induction s as [|c s IH]; intros prev H; cbn [search_from] in H.
  - destruct (match_here r prev []) eqn:E; [|discriminate H].
    injection H as ->. exists [], []. split; [reflexivity|exact E].
  - destruct (match_here r prev (c :: s)) eqn:E.
    + injection H as ->. exists [], (c :: s). split; [reflexivity|exact E].
    + destruct (IH _ H) as (u & s' & -> & Hm). exists (c :: u), s'.
      split; [reflexivity|exact Hm].
Qed.

Lemma found_at (r : regex) (m : str * groups) (s : str) :
  forall u prev,
    match_here r (last_opt prev u) s = Some m -> found r prev (u ++ s) = true.
Proof.
  unfold found. induction u as [|c u IH]; intros prev H.
  - cbn [app]. destruct s as [|c s]; cbn [search_from]; cbn [last_opt fold_left] in H;
      rewrite H; reflexivity.
  - cbn [app search_from]. destruct (match_here r prev (c :: u ++ s)); [reflexivity|].
    apply IH. exact H.
Qed.

(** A literal under [re.I] is found where it occurs in any letter case. *)
Lemma match_here_lit_i (kw : str) (prev : option N) (s : str) :
  match_here (lit_i kw) prev s =
  if ci_prefix kw s then Some (skipn (length kw) s, []) else None.
Proof. unfold match_here. rewrite rmatch_lit_i. reflexivity. Qed.

Lemma found_lit_i (kw : str) :
  forall s prev, found (lit_i kw) prev s = contains_i kw s.
Proof.
  unfold found. induction s as [|c s IH]; intros prev; cbn [search_from contains_i];
    rewrite match_here_lit_i; destruct (ci_prefix kw _); cbn [orb]; try reflexivity.
  apply IH.
Qed.

(** A group of literals under [re.I]: the first that matches is taken. *)
Lemma match_here_group_lits (n : nat) (kws : list str) (prev : option N) (s : str) :
  match_here (Grp n (alts (map lit_i kws))) prev s =
  match find (fun kw => ci_prefix kw s) kws with
  | Some kw => Some (skipn (length kw) s, [(n, firstn (length kw) s)])
  | None => None
  end.
Proof.
  unfold match_here. rewrite rmatch_grp.
  induction kws as [|kw kws IH]; cbn [map find].
  - cbn. destruct s; reflexivity.
  - rewrite rmatch_alts, rmatch_lit_i. destruct (ci_prefix kw s) eqn:E; [|exact IH].
    apply ci_prefix_length in E. rewrite length_skipn.
    replace (length s - (length s - length kw))%nat with (length kw) by lia.
    reflexivity.
Qed.

Lemma existsb_orb {A} (f g : A -> bool) (l : list A) :
  existsb (fun x => f x || g x) l = existsb f l || existsb g l.
Proof.
  induction l as [|a l IH]; [reflexivity|]. cbn [existsb]. rewrite IH.
  destruct (f a), (g a), (existsb f l), (existsb g l); reflexivity.
Qed.

Lemma find_existsb {A} (f : A -> bool) (l : list A) :
  match find f l with Some _ => true | None => false end = existsb f l.
Proof.
  induction l as [|a l IH]; [reflexivity|]. cbn [find existsb].
  destruct (f a); [reflexivity|exact IH].
Qed.

Lemma found_group_lits (n : nat) (kws : list str) :
  forall s prev,
    found (Grp n (alts (map lit_i kws))) prev s =
    existsb (fun kw => contains_i kw s) kws.
Proof.
  unfold found. induction s as [|c s IH]; intros prev; cbn [search_from];
    rewrite match_here_group_lits.
  - cbn [contains_i]. rewrite existsb_orb, <- (find_existsb (fun kw => ci_prefix kw [])).
    destruct (find _ kws); [reflexivity|]. cbn [orb].
    induction kws as [|kw kws IHk]; [reflexivity|exact IHk].
  - cbn [contains_i]. rewrite existsb_orb, <- (find_existsb (fun kw => ci_prefix kw (c :: s))).
    destruct (find _ kws); [reflexivity|]. cbn [orb]. apply IH.
Qed.

End ReFacts.

Module MatchFacts.
Import Re Parser Keywords ParserFacts MatchSem ReFacts.

(** Whatever the matcher accepts is a match. *)
Lemma rmatch_sound {A} (r : regex) :
  forall (prev : option N) (s : str) (g : groups)
         (k : option N -> str -> groups -> option A) (x : A),
    rmatch r prev s g k = Some x ->
    exists prev' s' g', derives r prev s g prev' s' g' /\ k prev' s' g' = Some x.
Proof.
  induction r as [|p|r1 IH1 r2 IH2|r1 IH1 r2 IH2|p|n r IH|]; intros prev s g k x H.
  - exists prev, s, g. split; [constructor|exact H].
  - rewrite rmatch_cls in H. destruct s as [|c s]; [discriminate H|].
    destruct (p c) eqn:E; [|discriminate H].
    exists (Some c), s, g. split; [constructor; exact E|exact H].
  - rewrite rmatch_seq in H. apply IH1 in H as (prev1 & s1 & g1 & D1 & H).
    apply IH2 in H as (prev2 & s2 & g2 & D2 & H).
    exists prev2, s2, g2. split; [econstructor; eassumption|exact H].
  - cbn [rmatch] in H. destruct (rmatch r1 prev s g k) as [y|] eqn:E.
    + injection H as ->. apply IH1 in E as (prev' & s' & g' & D & H).
      exists prev', s', g'. split; [apply d_alt_l, D|exact H].
    + apply IH2 in H as (prev' & s' & g' & D & H).
      exists prev', s', g'. split; [apply d_alt_r, D|exact H].
  - apply rmatch_rep_inv in H as (w & s' & -> & Hw & H).
    exists (last_opt prev w), s', g. split; [constructor; exact Hw|exact H].
  - rewrite rmatch_grp in H. apply IH in H as (prev' & s' & g' & D & H).
    exists prev', s', ((n, firstn (length s - length s') s) :: g').
    split; [constructor; exact D|exact H].
  - cbn [rmatch] in H. destruct (boundary prev s) eqn:E; [|discriminate H].
    exists prev, s, g. split; [constructor; exact E|exact H].
Qed.

Lemma match_here_sound (r : regex) (prev : option N) (s rest : str) (g : groups) :
  match_here r prev s = Some (rest, g) ->
  exists prev', derives r prev s [] prev' rest g.
Proof.
  unfold match_here. intros H. apply rmatch_sound in H as (prev' & s' & g' & D & H).
  injection H as -> ->. exists prev'. exact D.
Qed.

(** A match consumes a prefix of the text. *)
Lemma derives_prefix r prev s g prev' s' g' :
  derives r prev s g prev' s' g' -> exists u, s = u ++ s'.
Proof.
  induction 1 as [| p prev c s g | ? ? ? ? ? ? ? ? ? ? ? _ [u1 ->] _ [u2 ->]
                  | ? ? ? ? ? ? ? ? _ IH | ? ? ? ? ? ? ? ? _ IH
                  | p prev w s' g
                  | ? ? ? ? ? ? ? ? _ IH | ].
  - exists []. reflexivity.
  - exists [c]. reflexivity.
  - exists (u1 ++ u2). rewrite app_assoc. reflexivity.
  - exact IH.
  - exact IH.
  - exists w. reflexivity.
  - exact IH.
  - exists []. reflexivity.
Qed.

Lemma firstn_consumed {A} (u s' : list A) :
  firstn (length (u ++ s') - length s') (u ++ s') = u.
Proof.
  rewrite length_app, Nat.add_sub. rewrite firstn_app, Nat.sub_diag, firstn_all.
  cbn. apply app_nil_r.
Qed.

End MatchFacts.

(** ** [detect_format] on plain strings *)

Module FormatFacts.
Import Re Parser Keywords ParserFacts MatchSem Fields ReFacts MatchFacts.

Lemma html_patterns_found (text : str) :
  existsb (fun p => matches p text) html_patterns =
  existsb (fun tag => contains_i (ustr tag) text)
          ["<div"; "<p"; "<ul"; "<li"; "<br"]%string.
Proof.
  unfold html_patterns. cbn [map existsb].
  rewrite !matches_found, !found_lit_i. reflexivity.
Qed.

(** X4. [detect_format] answers "html" exactly when the text holds one of
    [<div], [<p], [<ul], [<li] and [<br] in any letter case, as [re.I]
    reads a letter case. *)
Theorem detect_format_html_iff (text : str) :
  detect_format text = ustr "html" <->
  existsb (fun tag => contains_i (ustr tag) text)
          ["<div"; "<p"; "<ul"; "<li"; "<br"]%string = true.
Proof.
  unfold detect_format. rewrite html_patterns_found.
  destruct (existsb _ ["<div"; "<p"; "<ul"; "<li"; "<br"]%string).
  - split; reflexivity.
  - split; [|discriminate].
    destruct (existsb _ markdown_patterns); intros H; vm_compute in H; discriminate H.
Qed.

Lemma ci_eq_lt (c : N) : ci_eq 60 c = true -> c = 60.
Proof.
  unfold ci_eq. change (ascii_lower 60) with 60.
  change (60 =? 105) with false. change (60 =? 107) with false.
  change (60 =? 115) with false. cbv iota. rewrite orb_false_r.
  unfold ascii_lower, in_range.
  destruct ((65 <=? c) && (c <=? 90)) eqn:E; intros H; apply N.eqb_eq in H.
  - apply andb_true_iff in E as [E1 E2]. apply N.leb_le in E1. lia.
  - exact H.
Qed.

Lemma contains_i_first (p : N) (kw : str) (s : str) :
  forallb (fun c => negb (ci_eq p c)) s = true -> contains_i (p :: kw) s = false.
Proof.
  induction s as [|c s IH]; intros H; [reflexivity|].
  cbn [forallb] in H. apply andb_true_iff in H as [Hc Hs].
  cbn [contains_i ci_prefix]. apply negb_true_iff in Hc. rewrite Hc, (IH Hs). reflexivity.
Qed.

Lemma no_tag_without_lt (text : str) :
  forallb (fun c => negb (c =? 60)) text = true ->
  existsb (fun tag => contains_i (ustr tag) text)
          ["<div"; "<p"; "<ul"; "<li"; "<br"]%string = false.
Proof.
  intros H.
  assert (H' : forallb (fun c => negb (ci_eq 60 c)) text = true).
  { rewrite forallb_forall in *. intros c Hc. specialize (H c Hc).
    destruct (ci_eq 60 c) eqn:E; [|reflexivity].
    apply ci_eq_lt in E. subst c. discriminate H. }
  cbn [existsb].
  change (ustr "<div") with (60 :: ustr "div"). change (ustr "<p") with (60 :: ustr "p").
  change (ustr "<ul") with (60 :: ustr "ul"). change (ustr "<li") with (60 :: ustr "li").
  change (ustr "<br") with (60 :: ustr "br").
  rewrite !contains_i_first by exact H'. reflexivity.
Qed.

Lemma markdown_needs_first (r : regex) (prev : option N) (s : str) :
  In r markdown_patterns ->
  match s with c :: _ => md_first c = false | [] => True end ->
  match_here r prev s = None.
Proof.
  unfold markdown_patterns, md_first, match_here.
  intros [<-|[<-|[<-|[]]]] H; destruct s as [|c s]; try reflexivity;
    apply orb_false_iff in H as [H H3]; apply orb_false_iff in H as [H1 H2];
    unfold Plus, lit, chr, ustr; cbn [seqs list_ascii_of_string map];
    rewrite !rmatch_seq, rmatch_cls;
    change (N_of_ascii "#") with 35; change (N_of_ascii "*") with 42;
    change (N_of_ascii "[") with 91; rewrite N.eqb_sym.
  - rewrite H1. reflexivity.
  - rewrite H2. reflexivity.
  - rewrite H3. reflexivity.
Qed.

Lemma special_chars (c : N) :
  negb (existsb (N.eqb c) (ustr "<#*[")) = true ->
  (c =? 60) = false /\ (c =? 35) = false /\ (c =? 42) = false /\ (c =? 91) = false.
Proof.
  change (ustr "<#*[") with [60; 35; 42; 91]. cbn [existsb]. intros H.
  apply negb_true_iff in H. rewrite orb_false_r in H.
  apply orb_false_iff in H as [H0 H]. apply orb_false_iff in H as [H1 H].
  apply orb_false_iff in H as [H2 H3]. auto.
Qed.

(** X5. A text without any of the characters [<], [#], [*] and [[] is
    classified "plain". *)
Theorem detect_format_plain (text : str) :
  forallb (fun c => negb (existsb (N.eqb c) (ustr "<#*["))) text = true ->
  detect_format text = ustr "plain".
Proof.
  intros H. unfold detect_format.
  rewrite html_patterns_found, no_tag_without_lt.
  2:{ rewrite forallb_forall in *. intros c Hc.
      destruct (special_chars c (H c Hc)) as (H0 & _). rewrite H0. reflexivity. }
  replace (existsb (fun p => matches p text) markdown_patterns) with false; [reflexivity|].
  symmetry. apply not_true_iff_false. intros Hm.
  apply existsb_exists in Hm as (r & Hr & Hm).
  unfold matches, search in Hm.
  rewrite (search_from_none r md_first) in Hm; [discriminate Hm| |].
  - intros prev s Hs. apply markdown_needs_first; assumption.
  - rewrite forallb_forall in *. intros c Hc.
    destruct (special_chars c (H c Hc)) as (_ & H1 & H2 & H3).
    unfold md_first. rewrite H1, H2, H3. reflexivity.
Qed.

Lemma detect_format_plain_witness :
  detect_format (ustr "Senior engineer, Austin") = ustr "plain".
Proof. apply detect_format_plain. reflexivity. Defined.

(** X6. A text that holds none of the five tag prefixes and a [#]
    followed by a white-space character is classified "markdown", wherever
    the [#] stands: "C# developer" is. *)
Theorem detect_format_hash_space (u : str) (c : N) (v : str) :
  existsb (fun tag => contains_i (ustr tag) (u ++ 35 :: c :: v))
          ["<div"; "<p"; "<ul"; "<li"; "<br"]%string = false ->
  py_isspace c = true ->
  detect_format (u ++ 35 :: c :: v) = ustr "markdown".
Proof.
  intros Hh Hc. unfold detect_format. rewrite html_patterns_found, Hh.
  unfold markdown_patterns. cbn [existsb].
  rewrite matches_found.
  rewrite (found_at _ (v, []) (35 :: c :: v) u None); [reflexivity|].
  unfold match_here, Plus. cbn [seqs]. rewrite !rmatch_seq, rmatch_cls.
  change (chr "#" 35) with true. cbv iota.
  rewrite rmatch_rep_cons.
  assert (E : chr "#" c = false).
  { unfold chr. change (N_of_ascii "#") with 35. apply N.eqb_neq. intros <-. discriminate Hc. }
  rewrite E, rmatch_cls, Hc. reflexivity.
Qed.

Lemma detect_format_hash_space_witness :
  detect_format (ustr "C# developer") = ustr "markdown".
Proof.
  apply (detect_format_hash_space [67] 32 (ustr "developer")); reflexivity.
Defined.

End FormatFacts.

(** ** The fields of [heuristic_extract] *)

Module HeuristicFacts.
Import Re Parser Keywords ParserFacts MatchSem Fields ReFacts MatchFacts FormatFacts.

(** *** The pieces of [heuristic_extract] *)

Lemma search_found (r : regex) (s : str) :
  match search r s with Some _ => true | None => false end = found r None s.
Proof. unfold search, found. destruct (search_from r None s); reflexivity. Qed.

Lemma visa_found (text : str) :
  match search re_visa text with Some _ => true | None => false end =
  existsb (fun p => contains_i (ustr p) text)
          ["no sponsorship"; "not offer sponsorship"; "OPT"; "CPT"]%string.
Proof.
  rewrite search_found. unfold re_visa. rewrite found_group_lits. reflexivity.
Qed.

(** The two bounds of a salary match. *)
Lemma salary_groups (text : str) (g : groups) :
  search re_salary text = Some g ->
  exists u w1 m w2 v,
    text = u ++ 36 :: w1 ++ m ++ w2 ++ v /\
    group_or_empty 1 g = w1 /\ group_or_empty 2 g = w2 /\
    w1 <> [] /\ w2 <> [] /\
    forallb digit_or_comma w1 = true /\ forallb digit_or_comma w2 = true.
Proof.
  unfold search. destruct (search_from re_salary None text) as [[rest g']|] eqn:E;
    [|discriminate].
  cbn [option_map snd]. intros H. injection H as ->.
  apply search_from_inv in E as (u & s & -> & E).
  apply match_here_sound in E as (prev' & D).
  unfold re_salary, Plus, Opt in D. cbn [seqs] in D.
  repeat match goal with
         | H : derives (Seq _ _) _ _ _ _ _ _ |- _ => inversion H; subst; clear H
         | H : derives (Grp _ _) _ _ _ _ _ _ |- _ => inversion H; subst; clear H
         | H : derives (Cls _) _ _ _ _ _ _ |- _ => inversion H; subst; clear H
         | H : derives (Rep _) _ _ _ _ _ _ |- _ => inversion H; subst; clear H
         end.
  assert (Hg : exists m',
             g' = [(1%nat, c :: w)] /\ s5 = m' ++ c0 :: w0 ++ rest).
  { change (c :: w ++ w2 ++ c1 :: w1 ++ s5) with ((c :: w) ++ w2 ++ c1 :: w1 ++ s5) in H6.
    rewrite firstn_consumed in H6.
    inversion H6; subst; clear H6.
    - match goal with H : derives (Cls _) _ _ _ _ _ _ |- _ => inversion H; subst; clear H end.
      eexists [_]. split; reflexivity.
    - match goal with H : derives Eps _ _ _ _ _ _ |- _ => inversion H; subst; clear H end.
      exists []. split; reflexivity. }
  destruct Hg as (m' & -> & ->).
  change (c0 :: w0 ++ rest) with ((c0 :: w0) ++ rest). rewrite firstn_consumed.
  exists u, (c :: w), (w2 ++ c1 :: w1 ++ m'), (c0 :: w0), rest.
  unfold chr in H4. apply N.eqb_eq in H4. subst c2.
  split; [|split; [reflexivity|split; [reflexivity|split; [discriminate|split; [discriminate|]]]]].
  - change (N_of_ascii "$") with 36. cbn [app]. rewrite <- !app_assoc. cbn [app].
    rewrite <- !app_assoc. reflexivity.
  - cbn [forallb]. rewrite H0, H1, H2, H8. split; reflexivity.
Qed.

Lemma fold_digits_nonneg (s : str) :
  forall acc, (0 <= acc)%Z -> forallb digit s = true ->
    (0 <= fold_left (fun acc c => 10 * acc + (Z.of_N c - 48)) s acc)%Z.
Proof.
  induction s as [|c s IH]; intros a Ha Hs; [exact Ha|].
  cbn [forallb] in Hs. apply andb_true_iff in Hs as [Hc Hs].
  cbn [fold_left]. apply IH; [|exact Hs].
  unfold digit, in_range in Hc. apply andb_true_iff in Hc as [Hc _].
  apply N.leb_le in Hc. lia.
Qed.

Lemma drop_commas_eq (w : str) : str_replace (ustr ",") [] w = no_commas w.
Proof. apply (replace_one_char 44 [] w). Qed.

Lemma no_commas_digits (w : str) :
  forallb digit_or_comma w = true -> forallb digit (no_commas w) = true.
Proof.
  induction w as [|c w IH]; intros H; [reflexivity|].
  cbn [forallb] in H. apply andb_true_iff in H as [Hc Hw].
  cbn [no_commas flat_map]. fold (no_commas w).
  unfold digit_or_comma in Hc. destruct (c =? 44); [exact (IH Hw)|].
  rewrite orb_false_r in Hc. cbn [app forallb]. rewrite Hc. exact (IH Hw).
Qed.

Lemma no_commas_length (w : str) : (length (no_commas w) <= length w)%nat.
Proof.
  induction w as [|c w IH]; [reflexivity|]. cbn [no_commas flat_map]. fold (no_commas w).
  destruct (c =? 44); cbn [app length]; lia.
Qed.

Lemma no_commas_nil (w : str) : no_commas w = [] -> forallb (N.eqb 44) w = true.
Proof.
  induction w as [|c w IH]; [reflexivity|]. cbn [no_commas flat_map]. fold (no_commas w).
  destruct (c =? 44) eqn:E; [|discriminate].
  intros H. cbn [forallb app] in *. rewrite N.eqb_sym, E. exact (IH H).
Qed.

(** [int] of a bound of the salary match. *)
Lemma py_int_bound (w : str) :
  forallb digit_or_comma w = true ->
  match py_int (str_replace (ustr ",") [] w) with
  | Ok z => (0 <= z)%Z
  | Raise e =>
      (exists msg, e = Exn "ValueError" msg) /\
      (forallb (N.eqb 44) w = true \/ (4300 < length w)%nat)
  end.
Proof.
  intros Hw. rewrite drop_commas_eq. unfold py_int.
  pose proof (no_commas_digits w Hw) as Hd.
  pose proof (no_commas_length w) as Hl.
  destruct (no_commas w) as [|c s] eqn:E.
  - split; [eexists; reflexivity|]. left. apply no_commas_nil, E.
  - rewrite Hd. cbn [negb]. destruct (4300 <? length (c :: s))%nat eqn:E2.
    + split; [eexists; reflexivity|]. right. apply Nat.ltb_lt in E2. lia.
    + apply fold_digits_nonneg; [lia|exact Hd].
Qed.

Lemma in_forallb_eq (a : N) (w : str) :
  w <> [] -> forallb (N.eqb a) w = true -> In a w.
Proof.
  destruct w as [|c w]; [congruence|]. intros _ H. cbn [forallb] in H.
  apply andb_true_iff in H as [H _]. apply N.eqb_eq in H. subst c. left. reflexivity.
Qed.

(** X9. [heuristic_extract] raises nothing but [ValueError], and only on a
    text that holds a [$] and either a comma or more than 4300
    characters. *)
Theorem heuristic_extract_raises_only (text : str) (e : exn) :
  heuristic_extract text = Raise e ->
  (exists msg, e = Exn "ValueError" msg) /\
  In 36 text /\
  (In 44 text \/ (4300 < length text)%nat).
Proof.
  unfold heuristic_extract.
  destruct (search re_salary text) as [g|] eqn:Es; [|discriminate].
  apply salary_groups in Es as (u & w1 & m & w2 & v & Ht & <- & <- & N1 & N2 & D1 & D2).
  pose proof (py_int_bound _ D1) as B1. pose proof (py_int_bound _ D2) as B2.
  assert (L1 : (length (group_or_empty 1 g) <= length text)%nat).
  { rewrite Ht, !length_app. cbn [length]. rewrite !length_app. lia. }
  assert (L2 : (length (group_or_empty 2 g) <= length text)%nat).
  { rewrite Ht, !length_app. cbn [length]. rewrite !length_app. lia. }
  assert (I1 : In 44 (group_or_empty 1 g) -> In 44 text).
  { intros H. rewrite Ht. apply in_or_app. right. right. apply in_or_app. left. exact H. }
  assert (I2 : In 44 (group_or_empty 2 g) -> In 44 text).
  { intros H. rewrite Ht. apply in_or_app. right. right. apply in_or_app. right.
    apply in_or_app. right. apply in_or_app. left. exact H. }
  assert (I3 : In 36 text).
  { rewrite Ht. apply in_or_app. right. left. reflexivity. }
  destruct (py_int (str_replace (ustr ",") [] (group_or_empty 1 g))) as [lo|e1].
  - destruct (py_int (str_replace (ustr ",") [] (group_or_empty 2 g))) as [hi|e2].
    + cbn [bind]. discriminate.
    + cbn [bind]. intros H. injection H as <-. destruct B2 as [Hv [Hc|Hc]].
      * split; [exact Hv|]. split; [exact I3|]. left. apply I2, in_forallb_eq; assumption.
      * split; [exact Hv|]. split; [exact I3|]. right. lia.
  - cbn [bind]. intros H. injection H as <-. destruct B1 as [Hv [Hc|Hc]].
    + split; [exact Hv|]. split; [exact I3|]. left. apply I1, in_forallb_eq; assumption.
    + split; [exact Hv|]. split; [exact I3|]. right. lia.
Qed.

Lemma heuristic_extract_raises_only_witness :
  (exists msg, Exn "ValueError" (ustr "invalid literal for int() with base 10: ''")
               = Exn "ValueError" msg) /\
  In 36 (ustr "$,-,") /\
  (In 44 (ustr "$,-,") \/ (4300 < length (ustr "$,-,"))%nat).
Proof.
  apply (heuristic_extract_raises_only (ustr "$,-,")). vm_compute. reflexivity.
Defined.

(** The mapping [heuristic_extract] returns, entry by entry. *)
Lemma heuristic_extract_shape (text : str) (info : pydict) :
  heuristic_extract text = Ok info ->
  exists sal,
    info = sal
           ++ match search re_location text with
              | Some g => [(ustr "location", VStr (group_or_empty 1 g))]
              | None => []
              end
           ++ (ustr "visa_sponsorship",
               VBool (negb (existsb (fun p => contains_i (ustr p) text) visa_phrases)))
           :: match search re_remote text with
              | Some g => [(ustr "remote_hybrid", VStr (capitalize (group_or_empty 1 g)))]
              | None => []
              end /\
    (sal = [] \/
     exists lo hi, (0 <= lo)%Z /\ (0 <= hi)%Z /\
       sal = [(ustr "salary_min", VInt lo); (ustr "salary_max", VInt hi);
              (ustr "currency", VStr (ustr "USD"))]).
Proof.
  unfold heuristic_extract. rewrite visa_found. fold visa_phrases.
  generalize (negb (existsb (fun p => contains_i (ustr p) text) visa_phrases)).
  intros b.
  destruct (search re_salary text) as [g|] eqn:Es.
  - apply salary_groups in Es as (_ & w1 & _ & w2 & _ & _ & <- & <- & _ & _ & D1 & D2).
    pose proof (py_int_bound _ D1) as B1. pose proof (py_int_bound _ D2) as B2.
    destruct (py_int (str_replace (ustr ",") [] (group_or_empty 1 g))) as [lo|e1];
      [|discriminate].
    destruct (py_int (str_replace (ustr ",") [] (group_or_empty 2 g))) as [hi|e2];
      [|discriminate].
    cbn [bind].
    destruct (search re_location text) as [l|]; destruct (search re_remote text) as [r|];
      intros H; injection H as <-;
      eexists [_; _; _]; (split; [reflexivity|]); right; exists lo, hi; auto.
  - cbn [bind].
    destruct (search re_location text) as [l|]; destruct (search re_remote text) as [r|];
      intros H; injection H as <-;
      exists []; (split; [reflexivity|]); left; reflexivity.
Qed.

(** X7. The mapping [heuristic_extract] returns always has
    [visa_sponsorship]: it is [False] exactly when the text holds one of
    "no sponsorship", "not offer sponsorship", "OPT" and "CPT" in any letter
    case, as a part of a longer word too. *)
Theorem heuristic_extract_visa (text : str) (info : pydict) :
  heuristic_extract text = Ok info ->
  dict_get (ustr "visa_sponsorship") info =
  Some (VBool (negb (existsb (fun p => contains_i (ustr p) text)
                             ["no sponsorship"; "not offer sponsorship"; "OPT"; "CPT"]%string))).
Proof.
  intros H. apply heuristic_extract_shape in H as (sal & -> & Hs).
  destruct Hs as [->|(lo & hi & _ & _ & ->)];
    destruct (search re_location text); reflexivity.
Qed.

Lemma heuristic_extract_visa_witness :
  exists info,
    heuristic_extract (ustr "Flexible hours optional") = Ok info /\
    dict_get (ustr "visa_sponsorship") info = Some (VBool false).
Proof.
  eexists. split; [vm_compute; reflexivity|].
  apply (heuristic_extract_visa (ustr "Flexible hours optional")).
  vm_compute. reflexivity.
Defined.

(** X8. The mapping [heuristic_extract] returns holds, in this order:
    [salary_min], [salary_max] (two integers that are not negative) and
    [currency] ("USD"), all three or none of them; [location], a string, or
    not; [visa_sponsorship], a truth value, always; [remote_hybrid], a
    string, or not. *)
Theorem heuristic_extract_fields (text : str) (info : pydict) :
  heuristic_extract text = Ok info ->
  exists sal loc b rem,
    info = sal ++ loc ++ (ustr "visa_sponsorship", VBool b) :: rem /\
    (sal = [] \/
     exists lo hi, (0 <= lo)%Z /\ (0 <= hi)%Z /\
       sal = [(ustr "salary_min", VInt lo); (ustr "salary_max", VInt hi);
              (ustr "currency", VStr (ustr "USD"))]) /\
    (loc = [] \/ exists s, loc = [(ustr "location", VStr s)]) /\
    (rem = [] \/ exists s, rem = [(ustr "remote_hybrid", VStr s)]).
Proof.
  intros H. apply heuristic_extract_shape in H as (sal & H & Hs).
  exists sal. eexists. eexists. eexists. split; [exact H|]. split; [exact Hs|].
  split.
  - destruct (search re_location text); [right; eexists; reflexivity|left; reflexivity].
  - destruct (search re_remote text); [right; eexists; reflexivity|left; reflexivity].
Qed.

Lemma heuristic_extract_fields_witness :
  exists sal loc b rem,
    [(ustr "salary_min", VInt 80000); (ustr "salary_max", VInt 95000);
     (ustr "currency", VStr (ustr "USD")); (ustr "visa_sponsorship", VBool true)]
    = sal ++ loc ++ (ustr "visa_sponsorship", VBool b) :: rem /\
    (sal = [] \/
     exists lo hi, (0 <= lo)%Z /\ (0 <= hi)%Z /\
       sal = [(ustr "salary_min", VInt lo); (ustr "salary_max", VInt hi);
              (ustr "currency", VStr (ustr "USD"))]) /\
    (loc = [] \/ exists s, loc = [(ustr "location", VStr s)]) /\
    (rem = [] \/ exists s, rem = [(ustr "remote_hybrid", VStr s)]).
Proof.
  apply (heuristic_extract_fields (ustr "$80,000 - $95,000")). vm_compute. reflexivity.
Defined.

End HeuristicFacts.

(** ** Salary ranges and the remote field *)

Module SalaryFacts.
Import Re Parser Keywords ParserFacts MatchSem Fields ReFacts MatchFacts FormatFacts HeuristicFacts.

Lemma search_from_skip (r : regex) (P : N -> bool) :
  (forall prev s, match s with c :: _ => P c = false | [] => True end ->
                  match_here r prev s = None) ->
  forall pre prev c s,
    forallb (fun c => negb (P c)) pre = true ->
    search_from r prev (pre ++ c :: s) = search_from r (last_opt prev pre) (c :: s).
Proof.
  intros Hr. induction pre as [|b pre IH]; intros prev c s Hpre; [reflexivity|].
  cbn [forallb] in Hpre. apply andb_true_iff in Hpre as [Hb Hpre].
  cbn [app search_from]. rewrite Hr by (apply negb_true_iff, Hb).
  rewrite IH by exact Hpre. reflexivity.
Qed.

Lemma rmatch_alt {A} (r1 r2 : regex) (prev : option N) (s : str) (g : groups)
    (k : option N -> str -> groups -> option A) :
  rmatch (Alt r1 r2) prev s g k =
  match rmatch r1 prev s g k with
  | Some x => Some x
  | None => rmatch r2 prev s g k
  end.
Proof. reflexivity. Qed.

Lemma rmatch_eps {A} (prev : option N) (s : str) (g : groups)
    (k : option N -> str -> groups -> option A) :
  rmatch Eps prev s g k = k prev s g.
Proof. reflexivity. Qed.

Lemma salary_needs_dollar (prev : option N) (s : str) :
  match s with c :: _ => (c =? 36) = false | [] => True end ->
  match_here re_salary prev s = None.
Proof.
  unfold match_here, re_salary. cbn [seqs]. rewrite rmatch_seq, rmatch_cls.
  destruct s as [|c s]; [reflexivity|]. intros H. unfold chr.
  change (N_of_ascii "$") with 36. rewrite N.eqb_sym, H. reflexivity.
Qed.

Lemma space_not_class (c : N) : py_isspace c = true -> digit_or_comma c = false.
Proof.
  intros H. unfold digit_or_comma, digit, in_range.
  destruct ((48 <=? c) && (c <=? 57)) eqn:E.
  - apply andb_true_iff in E as [E1 E2]. apply N.leb_le in E1, E2.
    assert (Hc : In c [48; 49; 50; 51; 52; 53; 54; 55; 56; 57]).
    { assert (c = 48 \/ c = 49 \/ c = 50 \/ c = 51 \/ c = 52 \/ c = 53 \/ c = 54
              \/ c = 55 \/ c = 56 \/ c = 57) by lia. cbn [In]. intuition. }
    cbn [In] in Hc. repeat (destruct Hc as [<-|Hc]; [discriminate H|]). destruct Hc.
  - cbn [orb]. destruct (c =? 44) eqn:E2; [|reflexivity].
    apply N.eqb_eq in E2. subst c. discriminate H.
Qed.

(** The salary pattern on a range written out. *)
Lemma match_salary_range (prev : option N) (a sp1 sp2 b post : str) (dollar : bool) :
  a <> [] -> b <> [] ->
  forallb digit_or_comma a = true -> forallb digit_or_comma b = true ->
  forallb py_isspace sp1 = true -> forallb py_isspace sp2 = true ->
  match post with c :: _ => digit_or_comma c = false | [] => True end ->
  match_here re_salary prev
    (36 :: a ++ sp1 ++ 45 :: sp2 ++ (if dollar then [36] else []) ++ b ++ post)
  = Some (post, [(2%nat, b); (1%nat, a)]).
Proof.
  intros Na Nb Ha Hb H1 H2 Hpost.
  destruct a as [|a0 a]; [congruence|]. destruct b as [|b0 b]; [congruence|].
  cbn [forallb] in Ha, Hb.
  apply andb_true_iff in Ha as [Ha0 Ha]. apply andb_true_iff in Hb as [Hb0 Hb].
  unfold match_here, re_salary, Plus, Opt. cbn [seqs].
  rewrite rmatch_seq, rmatch_cls. change (chr "$" 36) with true. cbv iota.
  rewrite rmatch_seq, rmatch_grp, rmatch_seq.
  change ((a0 :: a) ++ sp1 ++ 45 :: sp2 ++ (if dollar then [36] else []) ++ (b0 :: b) ++ post)
    with (a0 :: a ++ sp1 ++ 45 :: sp2 ++ (if dollar then [36] else []) ++ (b0 :: b) ++ post).
  rewrite rmatch_cls, Ha0.
  apply rmatch_rep_all; [|exact Ha|].
  { destruct sp1 as [|c sp1]; cbn [app]; [reflexivity|].
    cbn [forallb] in H1. apply andb_true_iff in H1 as [H1 _]. apply space_not_class, H1. }
  rewrite rmatch_seq.
  apply rmatch_rep_all; [|exact H1|].
  { reflexivity. }
  rewrite rmatch_seq, rmatch_cls. change (chr "-" 45) with true. cbv iota.
  rewrite rmatch_seq.
  apply rmatch_rep_all; [|exact H2|].
  { destruct dollar; cbn [app]; [reflexivity|].
    destruct (py_isspace b0) eqn:E; [|reflexivity].
    apply space_not_class in E. congruence. }
  rewrite rmatch_seq.
  assert (Hlast :
    rmatch (Grp 2 (Seq (Cls digit_or_comma) (Rep digit_or_comma)))
      (last_opt (last_opt (Some 45) sp2) (if dollar then [36] else []))
      ((b0 :: b) ++ post)
      [(1%nat,
        firstn (length (a0 :: a ++ sp1 ++ 45 :: sp2 ++ (if dollar then [36] else [])
                          ++ (b0 :: b) ++ post)
                - length (sp1 ++ 45 :: sp2 ++ (if dollar then [36] else [])
                            ++ (b0 :: b) ++ post))
               (a0 :: a ++ sp1 ++ 45 :: sp2 ++ (if dollar then [36] else [])
                  ++ (b0 :: b) ++ post))]
      (fun (_ : option N) (s' : str) (g : groups) => Some (s', g))
    = Some (post, [(2%nat, b0 :: b); (1%nat, a0 :: a)])).
  { rewrite rmatch_grp, rmatch_seq. cbn [app]. rewrite rmatch_cls, Hb0.
    apply rmatch_rep_all; [exact Hpost|exact Hb|].
    f_equal. f_equal. f_equal.
    - f_equal. change (b0 :: b ++ post) with ((b0 :: b) ++ post). apply firstn_consumed.
    - f_equal. f_equal.
      change (a0 :: a ++ ?x) with ((a0 :: a) ++ x). apply firstn_consumed. }
  rewrite rmatch_alt, rmatch_cls.
  destruct dollar; cbn [app]; unfold last_opt in Hlast; cbn [app fold_left] in Hlast.
  - change (chr "$" 36) with true. cbv beta iota.
    match goal with
    | |- match ?X with Some _ => _ | None => _ end = _ =>
        assert (E : X = Some (post, [(2%nat, b0 :: b); (1%nat, a0 :: a)])) by exact Hlast;
        rewrite E
    end. reflexivity.
  - assert (E : chr "$" b0 = false).
    { unfold chr. change (N_of_ascii "$") with 36. apply N.eqb_neq. intros <-.
      discriminate Hb0. }
    rewrite E. rewrite rmatch_eps. exact Hlast.
Qed.

Lemma no_commas_filter (w : str) :
  forallb digit_or_comma w = true -> no_commas w = filter digit w.
Proof.
  induction w as [|c w IH]; intros H; [reflexivity|].
  cbn [forallb] in H. apply andb_true_iff in H as [Hc Hw].
  cbn [no_commas flat_map filter]. fold (no_commas w). rewrite (IH Hw).
  unfold digit_or_comma in Hc. destruct (c =? 44) eqn:E.
  - apply N.eqb_eq in E. subst c. reflexivity.
  - rewrite orb_false_r in Hc. rewrite Hc. reflexivity.
Qed.

Lemma filter_nonempty {A} (f : A -> bool) (l : list A) :
  existsb f l = true -> filter f l <> [].
Proof.
  induction l as [|a l IH]; [discriminate|]. cbn [existsb filter].
  destruct (f a); [discriminate|exact IH].
Qed.

Lemma forallb_filter_same {A} (f : A -> bool) (l : list A) :
  forallb f (filter f l) = true.
Proof.
  induction l as [|a l IH]; [reflexivity|]. cbn [filter].
  destruct (f a) eqn:E; [|exact IH]. cbn [forallb]. rewrite E. exact IH.
Qed.

Lemma filter_length_le {A} (f : A -> bool) (l : list A) :
  (length (filter f l) <= length l)%nat.
Proof.
  induction l as [|a l IH]; [reflexivity|]. cbn [filter].
  destruct (f a); cbn [length]; lia.
Qed.

Lemma py_int_ok (w : str) :
  forallb digit_or_comma w = true -> existsb digit w = true ->
  (length w <= 4300)%nat ->
  py_int (str_replace (ustr ",") [] w) = Ok (int_of_digits (filter digit w)).
Proof.
  intros Hw Hd Hl. rewrite drop_commas_eq, no_commas_filter by exact Hw.
  unfold py_int. pose proof (filter_nonempty digit w Hd) as Hne.
  pose proof (forallb_filter_same digit w) as Hf.
  pose proof (filter_length_le digit w) as Hle.
  destruct (filter digit w) as [|c s]; [congruence|].
  rewrite Hf. cbn [negb].
  destruct (4300 <? length (c :: s))%nat eqn:E; [|reflexivity].
  apply Nat.ltb_lt in E. lia.
Qed.

(** X10. On a text whose first [$] starts a range "$a - $b" (the bounds
    [a] and [b] made of digits and commas, with a digit each and at most 4300
    characters, white space or none around the hyphen, the second [$]
    optional, no digit or comma right after [b]), [heuristic_extract] returns
    a mapping with [salary_min] and [salary_max] the numbers written by the
    digits of [a] and of [b], and [currency] "USD". *)
Theorem heuristic_extract_salary_range (pre a sp1 sp2 b post : str) (dollar : bool) :
  forallb (fun c => negb (c =? 36)) pre = true ->
  forallb digit_or_comma a = true -> existsb digit a = true ->
  (length a <= 4300)%nat ->
  forallb digit_or_comma b = true -> existsb digit b = true ->
  (length b <= 4300)%nat ->
  forallb py_isspace sp1 = true -> forallb py_isspace sp2 = true ->
  match post with c :: _ => digit_or_comma c = false | [] => True end ->
  exists info,
    heuristic_extract
      (pre ++ 36 :: a ++ sp1 ++ 45 :: sp2 ++ (if dollar then [36] else []) ++ b ++ post)
    = Ok info /\
    dict_get (ustr "salary_min") info = Some (VInt (int_of_digits (filter digit a))) /\
    dict_get (ustr "salary_max") info = Some (VInt (int_of_digits (filter digit b))) /\
    dict_get (ustr "currency") info = Some (VStr (ustr "USD")).
Proof.
  intros Hpre Ha Da La Hb Db Lb H1 H2 Hpost.
  set (text := pre ++ 36 :: a ++ sp1 ++ 45 :: sp2 ++ (if dollar then [36] else [])
                   ++ b ++ post).
  assert (Hs : search re_salary text = Some [(2%nat, b); (1%nat, a)]).
  { unfold search, text.
    rewrite (search_from_skip re_salary (fun c => c =? 36) salary_needs_dollar)
      by exact Hpre.
    cbn [search_from]. rewrite match_salary_range; try assumption; try reflexivity.
    - intros ->. discriminate Da.
    - intros ->. discriminate Db. }
  unfold heuristic_extract. rewrite Hs.
  change (group_or_empty 1 [(2%nat, b); (1%nat, a)]) with a.
  change (group_or_empty 2 [(2%nat, b); (1%nat, a)]) with b.
  rewrite (py_int_ok a Ha Da La), (py_int_ok b Hb Db Lb). cbn [bind].
  destruct (search re_location text); destruct (search re_remote text);
    eexists; (split; [reflexivity|]); repeat split; reflexivity.
Qed.

Lemma heuristic_extract_salary_range_witness :
  exists info,
    heuristic_extract (ustr "Pay: $80,000 - $95,000 per year") = Ok info /\
    dict_get (ustr "salary_min") info = Some (VInt 80000) /\
    dict_get (ustr "salary_max") info = Some (VInt 95000) /\
    dict_get (ustr "currency") info = Some (VStr (ustr "USD")).
Proof.
  apply (heuristic_extract_salary_range
           (ustr "Pay: ") (ustr "80,000") (ustr " ") (ustr " ") (ustr "95,000")
           (ustr " per year") true); try reflexivity; cbn; lia.
Defined.

(** *** [remote_hybrid] *)

Lemma remote_found (text : str) :
  match search re_remote text with Some _ => true | None => false end =
  existsb (fun kw => contains_i kw text) remote_words.
Proof. rewrite search_found. unfold re_remote. apply found_group_lits. Qed.

Lemma remote_group (text : str) (g : groups) :
  search re_remote text = Some g ->
  exists u s kw,
    text = u ++ s /\ In kw remote_words /\ ci_prefix kw s = true /\
    group_or_empty 1 g = firstn (length kw) s.
Proof.
  unfold search. destruct (search_from re_remote None text) as [[rest g']|] eqn:E;
    [|discriminate].
  cbn [option_map snd]. intros H. injection H as ->.
  apply search_from_inv in E as (u & s & -> & E).
  unfold re_remote in E. rewrite match_here_group_lits in E.
  destruct (find (fun kw => ci_prefix kw s) _) as [kw|] eqn:F; [|discriminate E].
  injection E as _ <-. apply find_some in F as [Hin Hp].
  exists u, s, kw. repeat split; assumption || reflexivity.
Qed.

Lemma ci_eq_ascii (p c : N) :
  is_ascii c = true -> ci_eq p c = true -> ascii_lower c = ascii_lower p.
Proof.
  unfold is_ascii, ci_eq. intros Hc H. apply N.ltb_lt in Hc.
  apply orb_true_iff in H as [H|H]; [apply N.eqb_eq, H|].
  exfalso.
  destruct (ascii_lower p =? 105).
  { apply orb_true_iff in H as [H|H]; apply N.eqb_eq in H; lia. }
  destruct (ascii_lower p =? 107); [apply N.eqb_eq in H; lia|].
  destruct (ascii_lower p =? 115); [apply N.eqb_eq in H; lia|discriminate H].
Qed.

(** On ASCII text, what a literal under [re.I] has matched is the literal
    up to letter case. *)
Lemma lower_matched (kw : str) :
  forallb (fun p => ascii_lower p =? p) kw = true ->
  forall s, forallb is_ascii (firstn (length kw) s) = true ->
            ci_prefix kw s = true ->
            flat_map lower_char (firstn (length kw) s) = kw.
Proof.
  induction kw as [|p kw IH]; intros Hkw s Hs Hp; [reflexivity|].
  destruct s as [|c s]; [discriminate Hp|].
  cbn [forallb] in Hkw. apply andb_true_iff in Hkw as [Hp0 Hkw].
  cbn [length firstn forallb] in Hs |- *. apply andb_true_iff in Hs as [Hc Hs].
  cbn [ci_prefix] in Hp. apply andb_true_iff in Hp as [Hpc Hp].
  cbn [flat_map]. rewrite (IH Hkw s Hs Hp).
  pose proof (ci_eq_ascii p c Hc Hpc) as E. apply N.eqb_eq in Hp0. rewrite Hp0 in E.
  unfold lower_char. replace (c =? 304) with false.
  - rewrite E. reflexivity.
  - symmetry. apply N.eqb_neq. unfold is_ascii in Hc. apply N.ltb_lt in Hc. lia.
Qed.

Lemma capitalize_matched (kw : str) (s : str) :
  In kw remote_words ->
  forallb is_ascii (firstn (length kw) s) = true ->
  ci_prefix kw s = true ->
  capitalize (firstn (length kw) s) = capitalize kw.
Proof.
  intros Hin Hs Hp.
  assert (Hkw : forallb (fun p => ascii_lower p =? p) kw = true /\
                forallb is_ascii kw = true /\
                match kw with p :: _ => in_range 97 122 p = true | [] => False end).
  { cbn [remote_words In] in Hin.
    destruct Hin as [<-|[<-|[<-|[]]]]; repeat split; reflexivity. }
  destruct Hkw as (Hlow & Hasc & Hhead).
  destruct kw as [|p kw]; [destruct Hhead|]. destruct s as [|c s]; [discriminate Hp|].
  cbn [forallb] in Hlow. apply andb_true_iff in Hlow as [Hp0 Hlow].
  cbn [forallb] in Hasc. apply andb_true_iff in Hasc as [_ Hasc].
  cbn [length firstn forallb] in Hs |- *. apply andb_true_iff in Hs as [Hc Hs].
  cbn [ci_prefix] in Hp. apply andb_true_iff in Hp as [Hpc Hp].
  unfold capitalize. rewrite (lower_matched kw Hlow s Hs Hp).
  assert (Hk : flat_map lower_char kw = kw).
  { clear - Hlow Hasc. induction kw as [|q kw IH]; [reflexivity|].
    cbn [forallb] in Hlow, Hasc. apply andb_true_iff in Hlow as [Hq Hlow].
    apply andb_true_iff in Hasc as [Ha Hasc].
    cbn [flat_map]. rewrite (IH Hlow Hasc). unfold lower_char.
    apply N.eqb_eq in Hq. destruct (q =? 304) eqn:E.
    - apply N.eqb_eq in E. subst q. discriminate Ha.
    - rewrite Hq. reflexivity. }
  rewrite Hk. f_equal.
  pose proof (ci_eq_ascii p c Hc Hpc) as E. apply N.eqb_eq in Hp0. rewrite Hp0 in E.
  unfold in_range in Hhead. apply andb_true_iff in Hhead as [G1 G2].
  apply N.leb_le in G1, G2.
  unfold ascii_upper, ascii_lower, in_range in *.
  destruct ((65 <=? c) && (c <=? 90)) eqn:Ec.
  - apply andb_true_iff in Ec as [E1 E2]. apply N.leb_le in E1, E2.
    replace ((97 <=? c) && (c <=? 122)) with false
      by (symmetry; apply andb_false_iff; left; apply N.leb_gt; lia).
    replace ((97 <=? p) && (p <=? 122)) with true
      by (symmetry; apply andb_true_iff; split; apply N.leb_le; lia).
    lia.
  - subst c. reflexivity.
Qed.

(** X11. [remote_hybrid] is absent from the mapping exactly when the text
    holds none of "remote", "hybrid" and "on-site" in any letter case; on an
    ASCII text its value is one of "Remote", "Hybrid" and "On-site". *)
Theorem heuristic_extract_remote (text : str) (info : pydict) :
  heuristic_extract text = Ok info ->
  (dict_get (ustr "remote_hybrid") info = None <->
   existsb (fun kw => contains_i (ustr kw) text) ["remote"; "hybrid"; "on-site"]%string
   = false) /\
  (forallb is_ascii text = true ->
   forall v, dict_get (ustr "remote_hybrid") info = Some v ->
             In v [VStr (ustr "Remote"); VStr (ustr "Hybrid"); VStr (ustr "On-site")]).
Proof.
  intros H. apply heuristic_extract_shape in H as (sal & -> & Hs).
  assert (Hget : dict_get (ustr "remote_hybrid")
                   (sal ++ match search re_location text with
                           | Some g => [(ustr "location", VStr (group_or_empty 1 g))]
                           | None => []
                           end
                        ++ (ustr "visa_sponsorship",
                            VBool (negb (existsb (fun p => contains_i (ustr p) text)
                                                 visa_phrases)))
                        :: match search re_remote text with
                           | Some g => [(ustr "remote_hybrid",
                                         VStr (capitalize (group_or_empty 1 g)))]
                           | None => []
                           end)
                 = match search re_remote text with
                   | Some g => Some (VStr (capitalize (group_or_empty 1 g)))
                   | None => None
                   end).
  { destruct Hs as [->|(lo & hi & _ & _ & ->)]; destruct (search re_location text);
      destruct (search re_remote text); reflexivity. }
  rewrite Hget. pose proof (remote_found text) as Hf.
  change (existsb (fun kw => contains_i (ustr kw) text) ["remote"; "hybrid"; "on-site"]%string)
    with (existsb (fun kw => contains_i kw text) remote_words).
  split.
  - rewrite <- Hf. destruct (search re_remote text); split; congruence.
  - intros Hascii v Hv. destruct (search re_remote text) as [g|] eqn:Eg; [|discriminate Hv].
    injection Hv as <-.
    apply remote_group in Eg as (u & s & kw & -> & Hin & Hp & ->).
    assert (Hs' : forallb is_ascii (firstn (length kw) s) = true).
    { rewrite forallb_app in Hascii. apply andb_true_iff in Hascii as [_ Hascii].
      rewrite <- (firstn_skipn (length kw) s), forallb_app in Hascii.
      apply andb_true_iff in Hascii as [Hascii _]. exact Hascii. }
    rewrite (capitalize_matched kw s Hin Hs' Hp).
    cbn [remote_words In] in Hin. cbn [In].
    destruct Hin as [<-|[<-|[<-|[]]]]; auto.
Qed.

Lemma heuristic_extract_remote_witness :
  In (VStr (ustr "On-site"))
     [VStr (ustr "Remote"); VStr (ustr "Hybrid"); VStr (ustr "On-site")].
Proof.
  apply (proj2 (heuristic_extract_remote (ustr "ON-SITE only")
                  [(ustr "visa_sponsorship", VBool true);
                   (ustr "remote_hybrid", VStr (ustr "On-site"))]
                  ltac:(vm_compute; reflexivity))
               ltac:(reflexivity)).
  reflexivity.
Defined.

End SalaryFacts.

(** ** [run]: the inference result and the heuristics *)

Module RunFacts.
Import Re Parser Keywords Outcomes ParserFacts Fields ReFacts HeuristicFacts.

Lemma dict_set_fresh {V} (k : str) (v : V) (d : list (str * V)) :
  dict_get k d = None -> dict_set k v d = d ++ [(k, v)].
Proof.
  induction d as [|[k' v'] d IH]; intros H; [reflexivity|].
  cbn [dict_get] in H. cbn [dict_set]. destruct (str_eqb k' k); [discriminate H|].
  rewrite (IH H). reflexivity.
Qed.

Lemma dict_get_app {V} (k : str) (d1 d2 : list (str * V)) :
  dict_get k (d1 ++ d2) =
  match dict_get k d1 with Some v => Some v | None => dict_get k d2 end.
Proof.
  induction d1 as [|[k' v'] d1 IH]; [reflexivity|]. cbn [app dict_get].
  destruct (str_eqb k' k); [reflexivity|exact IH].
Qed.

Lemma dict_get_not_in {V} (k : str) (d : list (str * V)) :
  ~ In k (map fst d) -> dict_get k d = None.
Proof.
  induction d as [|[k' v'] d IH]; intros H; [reflexivity|]. cbn [dict_get].
  destruct (str_eqb k' k) eqn:E.
  - apply str_eqb_eq in E. subst k'. exfalso. apply H. left. reflexivity.
  - apply IH. intros Hin. apply H. right. exact Hin.
Qed.

(** Merged into the empty record, heuristics with one entry per key come
    out as they are. *)
Lemma fold_merged_fresh (h : pydict) :
  NoDup (map fst h) ->
  forall d, (forall k, In k (map fst h) -> dict_get k d = None) ->
            fold_left (fun d e => merged e d) h d = d ++ h.
Proof.
  induction h as [|[k v] h IH]; intros Hnd d Hd; cbn [fold_left].
  - symmetry. apply app_nil_r.
  - cbn [map] in Hnd. inversion Hnd as [|? ? Hnotin Hnd']; subst.
    unfold merged at 2. cbn [fst snd]. rewrite (Hd k) by (left; reflexivity).
    rewrite dict_set_fresh by (apply Hd; left; reflexivity).
    rewrite IH; [rewrite <- app_assoc; reflexivity|exact Hnd'|].
    intros k' Hk'. rewrite dict_get_app, (Hd k') by (right; exact Hk').
    cbn [dict_get]. destruct (str_eqb k k') eqn:E; [|reflexivity].
    apply str_eqb_eq in E. subst k'. contradiction.
Qed.

Lemma heuristics_nodup (text : str) (h : pydict) :
  heuristic_extract text = Ok h -> NoDup (map fst h).
Proof.
  intros H. apply heuristic_extract_shape in H as (sal & -> & Hs).
  destruct Hs as [->|(lo & hi & _ & _ & ->)]; destruct (search re_location text);
    destruct (search re_remote text); cbn [app map fst];
    repeat (constructor; [cbn [In]; intros H;
                          repeat (destruct H as [H|H]; [vm_compute in H; discriminate H|]);
                          exact H|]);
    constructor.
Qed.

Lemma heuristics_visa (text : str) (h : pydict) :
  heuristic_extract text = Ok h ->
  In (ustr "visa_sponsorship",
      VBool (negb (existsb (fun p => contains_i (ustr p) text) visa_phrases))) h.
Proof.
  intros H. apply heuristic_extract_shape in H as (sal & -> & _).
  apply in_or_app. right. apply in_or_app. right. left. reflexivity.
Qed.


(** A value that is not a record takes no entry. *)
Lemma merge_entry_not_dict (v : value) (kv : str * value) :
  (forall d, v <> VDict d) ->
  exists msg, merge_entry v kv = Raise (Exn "TypeError" msg).
Proof.
  intros Hv. unfold merge_entry.
  destruct v as [|b|z|f|s|l|d]; cbn [py_contains bind];
    try (eexists; reflexivity).
  - destruct (contains (fst kv) s); cbn [negb py_setitem py_getitem bind];
      eexists; reflexivity.
  - destruct (existsb _ l); cbn [negb py_setitem py_getitem bind];
      eexists; reflexivity.
  - exfalso. apply (Hv d). reflexivity.
Qed.

Lemma merge_heuristics_not_dict (v : value) (h : pydict) :
  (forall d, v <> VDict d) -> h <> [] ->
  exists msg, merge_heuristics v h = Raise (Exn "TypeError" msg).
Proof.
  intros Hv Hh. destruct h as [|kv h]; [congruence|]. cbn [merge_heuristics].
  destruct (merge_entry_not_dict v kv Hv) as [msg ->]. exists msg. reflexivity.
Qed.

Lemma merge_heuristics_ok (v merged_v : value) (h : pydict) :
  h <> [] -> merge_heuristics v h = Ok merged_v ->
  exists d, v = VDict d /\ merged_v = VDict (fold_left (fun d e => merged e d) h d).
Proof.
  intros Hh H. destruct v as [|b|z|f|s|l|d];
    try (match type of H with
         | merge_heuristics ?v _ = _ =>
             destruct (merge_heuristics_not_dict v h) as [msg Hm];
             [intros d; discriminate|exact Hh|rewrite Hm in H; discriminate H]
         end).
  exists d. split; [reflexivity|]. rewrite merge_heuristics_dict in H.
  injection H as <-. reflexivity.
Qed.

Section RunSection.
Variable json_dumps_indent : value -> str.
Variable json_loads : str -> result value.
Variable chat_create : str -> str -> str -> result response.

Let attempt := attempt json_dumps_indent json_loads chat_create.
Let parse_with_gpt5 := parse_with_gpt5 json_dumps_indent json_loads chat_create.
Let system_msg := system_msg json_dumps_indent.
Let user_msg := user_msg json_dumps_indent.

Lemma parse_primary (markdown_text : str) (heuristics : pydict) (parsed : value) :
  attempt (ustr "gpt-5") (user_msg markdown_text heuristics) = Ok (Some parsed) ->
  parse_with_gpt5 markdown_text heuristics =
  (parsed,
   [EvChat (ustr "gpt-5") system_msg (user_msg markdown_text heuristics);
    EvSt (StInfo ([0x2705; 32] ++ ustr "Parsed using gpt-5"))]).
Proof.
  intros H. unfold parse_with_gpt5, Parser.parse_with_gpt5, models.
  cbn [try_models]. fold attempt user_msg. rewrite H. reflexivity.
Qed.

Lemma parse_calls (markdown_text : str) (heuristics : pydict) :
  let out := parse_with_gpt5 markdown_text heuristics in
  let user := user_msg markdown_text heuristics in
  (calls (snd out) = [ustr "gpt-5"] \/ calls (snd out) = [ustr "gpt-5"; ustr "gpt-4o"]) /\
  (forall model sys usr, In (EvChat model sys usr) (snd out) ->
                         sys = system_msg /\ usr = user) /\
  (calls (snd out) = [ustr "gpt-5"] <-> ~ attempt_fails (attempt (ustr "gpt-5") user)).
Proof.
  cbv zeta. unfold parse_with_gpt5, Parser.parse_with_gpt5, models.
  cbn [try_models]. fold attempt user_msg system_msg.
  set (user := user_msg markdown_text heuristics).
  destruct (attempt (ustr "gpt-5") user) as [[p|]|e1];
    [|destruct (attempt (ustr "gpt-4o") user) as [[p|]|e2]..];
    cbn [snd calls attempt_fails]; (split; [auto|split]);
    try (intros model sys usr Hin; cbn [In] in Hin;
         repeat (destruct Hin as [Hin|Hin]; [try discriminate Hin; injection Hin as _ <- <-; auto|]);
         destruct Hin);
    split; try tauto; intros H; try discriminate H.
Qed.

Variable md : str -> str.
Let run := run md json_dumps_indent json_loads chat_create.

Lemma run_ok_inv (jd_text : str) (v : value) (m : str) (log : list event) :
  run jd_text = (Ok (v, m), log) ->
  exists h d,
    heuristic_extract (clean_text (Some jd_text)) = Ok h /\
    m = convert_to_markdown md (clean_text (Some jd_text)) /\
    parse_with_gpt5 m h = (VDict d, log) /\
    v = VDict (fold_left (fun d e => merged e d) h d).
Proof.
  unfold run, Parser.run. cbv zeta.
  destruct (heuristic_extract (clean_text (Some jd_text))) as [h|e] eqn:Eh; [|discriminate].
  fold parse_with_gpt5.
  destruct (parse_with_gpt5 _ h) as [parsed log'] eqn:Ep.
  destruct (merge_heuristics parsed h) as [merged_v|e] eqn:Em; [|discriminate].
  intros H. injection H as <- <- <-.
  apply merge_heuristics_ok in Em as (d & -> & ->).
  - exists h, d. repeat split; assumption || reflexivity.
  - pose proof (heuristics_visa _ _ Eh) as Hin. intros ->. destruct Hin.
Qed.

End RunSection.

End RunFacts.

Module RunTheorems.
Import Re Parser Keywords Outcomes ParserFacts Fields ReFacts HeuristicFacts RunFacts.

(** X12. [parse_with_gpt5] asks "gpt-5" first and "gpt-4o" only when the
    first attempt gave no record, never more than these two requests, both
    with the same system and user messages; when the first attempt gives a
    record, that record is returned after this one request and the notice
    "Parsed using gpt-5". *)
Theorem parse_with_gpt5_requests (json_dumps_indent : value -> str)
    (json_loads : str -> result value)
    (chat_create : str -> str -> str -> result response)
    (markdown_text : str) (heuristics : pydict) :
  let out := parse_with_gpt5 json_dumps_indent json_loads chat_create
                             markdown_text heuristics in
  let user := user_msg json_dumps_indent markdown_text heuristics in
  let first := attempt json_dumps_indent json_loads chat_create (ustr "gpt-5") user in
  (calls (snd out) = [ustr "gpt-5"] \/ calls (snd out) = [ustr "gpt-5"; ustr "gpt-4o"]) /\
  (forall model sys usr, In (EvChat model sys usr) (snd out) ->
                         sys = system_msg json_dumps_indent /\ usr = user) /\
  (calls (snd out) = [ustr "gpt-5"] <-> ~ attempt_fails first) /\
  (forall parsed, first = Ok (Some parsed) ->
     out = (parsed,
            [EvChat (ustr "gpt-5") (system_msg json_dumps_indent) user;
             EvSt (StInfo ([0x2705; 32] ++ ustr "Parsed using gpt-5"))])).
Proof.
  cbv zeta.
  destruct (parse_calls json_dumps_indent json_loads chat_create markdown_text heuristics)
    as (H1 & H2 & H3).
  split; [exact H1|]. split; [exact H2|]. split; [exact H3|].
  intros parsed H. exact (parse_primary json_dumps_indent json_loads chat_create _ _ _ H).
Qed.

(** X13. A record [run] returns is never empty: it is a JSON object, true
    as a condition, with [visa_sponsorship] among its keys. *)
Theorem run_result_never_empty (md : str -> str) (json_dumps_indent : value -> str)
    (json_loads : str -> result value)
    (chat_create : str -> str -> str -> result response)
    (jd_text : str) (v : value) (m : str) (log : list event) :
  run md json_dumps_indent json_loads chat_create jd_text = (Ok (v, m), log) ->
  truthy v = true /\
  exists d, v = VDict d /\
    exists x, dict_get (ustr "visa_sponsorship") d = Some x.
Proof.
  intros H. apply run_ok_inv in H as (h & d & Hh & _ & _ & ->).
  pose proof (heuristics_nodup _ _ Hh) as Hnd.
  pose proof (heuristics_visa _ _ Hh) as Hin.
  pose proof (fold_merged_entry h _ _ Hnd Hin d) as Hget.
  assert (Hx : exists x, dict_get (ustr "visa_sponsorship")
                           (fold_left (fun d e => merged e d) h d) = Some x).
  { rewrite Hget. destruct (dict_get _ d) as [x|]; [destruct (truthy x)|]; eexists; reflexivity. }
  generalize dependent (fold_left (fun d e => merged e d) h d). intros d' _ [x Hx].
  split.
  - cbn [truthy]. destruct d'; [discriminate Hx|reflexivity].
  - exists d'. split; [reflexivity|]. exists x. exact Hx.
Qed.

Lemma run_result_never_empty_witness :
  let reply : str -> str -> str -> result response :=
    fun _ _ _ => Ok {| choices := [Some (ustr "{}")] |} in
  let loads : str -> result value := fun _ => Ok (VDict []) in
  let v := VDict [(ustr "visa_sponsorship", VBool true)] in
  truthy v = true /\
  exists d, v = VDict d /\ exists x, dict_get (ustr "visa_sponsorship") d = Some x.
Proof.
  intros reply loads v.
  apply (run_result_never_empty (fun t => t) (fun _ => []) loads reply (ustr "Engineer")
           v (ustr "Engineer")
           [EvChat (ustr "gpt-5") (system_msg (fun _ => []))
                   (user_msg (fun _ => []) (ustr "Engineer")
                             [(ustr "visa_sponsorship", VBool true)]);
            EvSt (StInfo ([0x2705; 32] ++ ustr "Parsed using gpt-5"))]).
  vm_compute. reflexivity.
Defined.

(** X14. When the attempts with both models fail, [run] returns the
    heuristics themselves as the record, key for key and in their order,
    with the Markdown text. *)
Theorem run_heuristics_only (md : str -> str) (json_dumps_indent : value -> str)
    (json_loads : str -> result value)
    (chat_create : str -> str -> str -> result response)
    (jd_text : str) (h : pydict) :
  let cleaned := clean_text (Some jd_text) in
  let md_text := convert_to_markdown md cleaned in
  let user := user_msg json_dumps_indent md_text h in
  let attempt := attempt json_dumps_indent json_loads chat_create in
  heuristic_extract cleaned = Ok h ->
  attempt_fails (attempt (ustr "gpt-5") user) ->
  attempt_fails (attempt (ustr "gpt-4o") user) ->
  fst (run md json_dumps_indent json_loads chat_create jd_text) = Ok (VDict h, md_text).
Proof.
  intros cleaned md_text user attempt Hh H1 H2. unfold run. cbv zeta.
  fold cleaned. rewrite Hh. fold md_text.
  destruct (parse_fallback_section json_dumps_indent json_loads chat_create md_text h H1)
    as [Hboth _].
  destruct (Hboth H2) as (Hfst & _).
  destruct (parse_with_gpt5 json_dumps_indent json_loads chat_create md_text h)
    as [parsed log]. cbn [fst] in Hfst. subst parsed.
  rewrite merge_heuristics_dict.
  rewrite fold_merged_fresh; [reflexivity|exact (heuristics_nodup _ _ Hh)|reflexivity].
Qed.

Lemma run_heuristics_only_witness :
  let down : str -> str -> str -> result response :=
    fun _ _ _ => Raise (Exn "APIConnectionError" (ustr "Connection error.")) in
  let loads : str -> result value :=
    fun _ => Raise (Exn "JSONDecodeError" (ustr "Expecting value")) in
  fst (run (fun t => t) (fun _ => []) loads down (ustr "Remote, $80,000 - $95,000")) =
  Ok (VDict [(ustr "salary_min", VInt 80000); (ustr "salary_max", VInt 95000);
             (ustr "currency", VStr (ustr "USD")); (ustr "visa_sponsorship", VBool true);
             (ustr "remote_hybrid", VStr (ustr "Remote"))],
      ustr "Remote, $80,000 - $95,000").
Proof.
  intros down loads.
  apply (run_heuristics_only (fun t => t) (fun _ => []) loads down
           (ustr "Remote, $80,000 - $95,000")).
  - vm_compute. reflexivity.
  - exact I.
  - exact I.
Defined.

(** X15. When the answer of the first model is JSON but not an object (a
    list, a string, a number, a truth value or null), [run] raises
    [TypeError]. *)
Theorem run_rejects_non_object (md : str -> str) (json_dumps_indent : value -> str)
    (json_loads : str -> result value)
    (chat_create : str -> str -> str -> result response)
    (jd_text : str) (h : pydict) (answer : value) :
  let cleaned := clean_text (Some jd_text) in
  let md_text := convert_to_markdown md cleaned in
  let user := user_msg json_dumps_indent md_text h in
  heuristic_extract cleaned = Ok h ->
  attempt json_dumps_indent json_loads chat_create (ustr "gpt-5") user = Ok (Some answer) ->
  (forall d, answer <> VDict d) ->
  exists msg,
    fst (run md json_dumps_indent json_loads chat_create jd_text)
    = Raise (Exn "TypeError" msg).
Proof.
  intros cleaned md_text user Hh Ha Hd. unfold run. cbv zeta.
  fold cleaned. rewrite Hh. fold md_text.
  rewrite (parse_primary json_dumps_indent json_loads chat_create md_text h answer Ha).
  destruct (merge_heuristics_not_dict answer h Hd) as [msg Hm].
  - pose proof (heuristics_visa _ _ Hh) as Hin. intros ->. destruct Hin.
  - rewrite Hm. exists msg. reflexivity.
Qed.

Lemma run_rejects_non_object_witness :
  let reply : str -> str -> str -> result response :=
    fun _ _ _ => Ok {| choices := [Some (ustr "[]")] |} in
  let loads : str -> result value := fun _ => Ok (VList []) in
  exists msg,
    fst (run (fun t => t) (fun _ => []) loads reply (ustr "Engineer"))
    = Raise (Exn "TypeError" msg).
Proof.
  intros reply loads.
  apply (run_rejects_non_object (fun t => t) (fun _ => []) loads reply (ustr "Engineer")
           [(ustr "visa_sponsorship", VBool true)] (VList [])).
  - vm_compute. reflexivity.
  - reflexivity.
  - intros d. discriminate.
Defined.

(** X16. When the cleaned text holds none of the four visa phrases, the
    record [run] returns has a true [visa_sponsorship], whatever the model
    answered: its [false], like a missing key, is replaced by the
    heuristic's [True]. *)
Theorem run_visa_default (md : str -> str) (json_dumps_indent : value -> str)
    (json_loads : str -> result value)
    (chat_create : str -> str -> str -> result response)
    (jd_text : str) (d : pydict) (m : str) (log : list event) :
  run md json_dumps_indent json_loads chat_create jd_text = (Ok (VDict d, m), log) ->
  existsb (fun p => contains_i (ustr p) (clean_text (Some jd_text)))
          ["no sponsorship"; "not offer sponsorship"; "OPT"; "CPT"]%string = false ->
  exists x, dict_get (ustr "visa_sponsorship") d = Some x /\ truthy x = true.
Proof.
  intros H Hno. apply run_ok_inv in H as (h & d0 & Hh & _ & _ & Hv).
  injection Hv as ->.
  pose proof (heuristics_nodup _ _ Hh) as Hnd.
  pose proof (heuristics_visa _ _ Hh) as Hin.
  unfold visa_phrases in Hin. rewrite Hno in Hin. cbn [negb] in Hin.
  rewrite (fold_merged_entry h _ _ Hnd Hin d0).
  destruct (dict_get _ d0) as [x|]; [destruct (truthy x) eqn:E|].
  - exists x. split; [reflexivity|exact E].
  - exists (VBool true). split; reflexivity.
  - exists (VBool true). split; reflexivity.
Qed.

Lemma run_visa_default_witness :
  let reply : str -> str -> str -> result response :=
    fun _ _ _ => Ok {| choices := [Some (ustr "{}")] |} in
  let loads : str -> result value :=
    fun _ => Ok (VDict [(ustr "visa_sponsorship", VBool false)]) in
  exists x, dict_get (ustr "visa_sponsorship") [(ustr "visa_sponsorship", VBool true)]
            = Some x /\ truthy x = true.
Proof.
  intros reply loads.
  apply (run_visa_default (fun t => t) (fun _ => []) loads reply (ustr "Engineer")
           [(ustr "visa_sponsorship", VBool true)] (ustr "Engineer")
           [EvChat (ustr "gpt-5") (system_msg (fun _ => []))
                   (user_msg (fun _ => []) (ustr "Engineer")
                             [(ustr "visa_sponsorship", VBool true)]);
            EvSt (StInfo ([0x2705; 32] ++ ustr "Parsed using gpt-5"))]).
  - vm_compute. reflexivity.
  - vm_compute. reflexivity.
Defined.



End RunTheorems.

(** ** The protocol of [save_to_notion] *)

Module ProtocolFacts.
Import Uploader UploaderFacts Protocol.

Section Protocol.
Variables NOTION_API_KEY DB_JOBS DB_ROLE_TEMPLATE DB_COMPANIES : str.
Variable py_str : value -> str.
Variable json_dumps : value -> str.
Variable World : Type.
Variable requests_post_query :
  str -> value -> value -> World -> result http_response * World.
Variable pages_update : value -> value -> World -> result unit * World.
Variable pages_create : value -> value -> World -> result value * World.
Variable utcnow_date : World -> str.
Variable utcnow_iso : World -> str.

Local Abbreviation state := (state World).
Local Abbreviation M := (M World).
Local Abbreviation bindM := (bindM World).
Local Abbreviation lift := (lift World).
Local Abbreviation ret := (ret World).
Local Abbreviation emit := (emit World).
Local Abbreviation clock := (clock World).
Local Abbreviation st := (st World).
Local Abbreviation notion_query := (notion_query NOTION_API_KEY World requests_post_query).
Local Abbreviation update_page := (update_page World pages_update).
Local Abbreviation create_page := (create_page World pages_create).
Local Abbreviation build_company_props := (build_company_props json_dumps World utcnow_iso).
Local Abbreviation build_role_props := (build_role_props json_dumps World utcnow_iso).
Local Abbreviation build_job_props := (build_job_props json_dumps World utcnow_date).
Local Abbreviation save_body :=
  (save_body NOTION_API_KEY DB_JOBS DB_ROLE_TEMPLATE DB_COMPANIES py_str json_dumps
             World requests_post_query pages_update pages_create utcnow_date utcnow_iso).
Local Abbreviation save_to_notion :=
  (save_to_notion NOTION_API_KEY DB_JOBS DB_ROLE_TEMPLATE DB_COMPANIES py_str json_dumps
             World requests_post_query pages_update pages_create utcnow_date utcnow_iso).
Local Abbreviation query_headers := (query_headers NOTION_API_KEY).
Local Abbreviation answered := (answered NOTION_API_KEY World requests_post_query).
Local Abbreviation upsert := (upsert World pages_create).
Local Abbreviation appends := (appends World).

Local Abbreviation bindM_ok := (bindM_ok World).
Local Abbreviation lift_ok := (lift_ok World).
Local Abbreviation ret_ok := (ret_ok World).
Local Abbreviation emit_ok := (emit_ok World).
Local Abbreviation clock_ok := (clock_ok World).

Ltac step H :=
  let a := fresh "a" in
  let s := fresh "s" in
  let H1 := fresh "H" in
  apply bindM_ok in H as (a & s & H1 & H);
  first
    [ apply lift_ok in H1 as [H1 ->]
    | apply clock_ok in H1 as [-> ->]
    | apply emit_ok in H1; subst s
    | idtac ].

Lemma build_job_props_inv (parsed v : value) (jd_text source_url job_hash : str)
    (s s1 : state) :
  build_job_props parsed jd_text source_url job_hash s = (Ok v, s1) ->
  s1 = s /\
  exists title company,
    py_get parsed (ustr "position_title") (VStr (ustr "Untitled Job")) = Ok title /\
    py_get parsed (ustr "company") (VStr (ustr "Unknown Company")) = Ok company /\
    v = VDict
      [ (ustr "Job Title", text_prop "title" title);
        (ustr "Company", text_prop "rich_text" company);
        (ustr "Job Description", text_prop "rich_text" (VStr (firstn 1900 jd_text)));
        (ustr "Parsed Snapshot", text_prop "rich_text" (snapshot json_dumps parsed));
        (ustr "Source URL",
          VDict [(ustr "url",
                  if str_truthy source_url then VStr source_url else VNone)]);
        (fingerprint_key, text_prop "rich_text" (VStr job_hash));
        (ustr "Date Collected",
          VDict [(ustr "date", VDict [(ustr "start", VStr (utcnow_date (fst s)))])]);
        (ustr "Status",
          VDict [(ustr "select", VDict [(ustr "name", VStr (ustr "Parsed"))])]) ].
Proof.
  unfold Uploader.build_job_props. intros H.
  repeat step H. apply ret_ok in H as [-> ->].
  match goal with H : Ok _ = Ok _ |- _ => injection H as <- end.
  split; [reflexivity|]. eexists _, _.
  split; [eassumption|split; [eassumption|reflexivity]].
Qed.

Lemma save_body_protocol (parsed : value) (jd_text source_url : str)
    (s s' : state) (id : value) :
  save_body parsed jd_text source_url s = (Ok (Some id), s') ->
  exists company h needle_c title needle_r q_c q_r found_c found_r
         cid rid cprops rprops job_title wc mc wr mr s_r rp0,
    py_get parsed (ustr "company") (VStr (ustr "Unknown Company")) = Ok company /\
    hash_job_text jd_text (format_value py_str company) = Ok h /\
    py_slice company 60 = Ok needle_c /\
    py_get parsed (ustr "position_title") (VStr []) = Ok title /\
    py_slice title 60 = Ok needle_r /\
    py_get parsed (ustr "position_title") (VStr (ustr "Untitled Job")) = Ok job_title /\
    build_role_props parsed s_r = (Ok rp0, s_r) /\
    answered DB_COMPANIES (title_filter "Name" needle_c) q_c /\
    get_first_page_id q_c = Ok found_c /\
    upsert DB_COMPANIES found_c cid cprops wc /\
    answered DB_ROLE_TEMPLATE (title_filter "Role Title" needle_r) q_r /\
    get_first_page_id q_r = Ok found_r /\
    upsert DB_ROLE_TEMPLATE found_r rid (VDict rprops) wr /\
    dict_get (ustr "Parsed Company") rprops = Some (relation cid) /\
    exists today,
    snd s' = snd s ++
      [ EvQuery DB_JOBS (fingerprint_filter h);
        EvQuery DB_COMPANIES (title_filter "Name" needle_c);
        wc; EvSt mc;
        EvQuery DB_ROLE_TEMPLATE (title_filter "Role Title" needle_r);
        wr; EvSt mr;
        EvCreate (parent DB_JOBS)
          (VDict
            [ (ustr "Job Title", text_prop "title" job_title);
              (ustr "Company", text_prop "rich_text" company);
              (ustr "Job Description",
                text_prop "rich_text" (VStr (firstn 1900 jd_text)));
              (ustr "Parsed Snapshot",
                text_prop "rich_text" (snapshot json_dumps parsed));
              (ustr "Source URL",
                VDict [(ustr "url",
                        if str_truthy source_url then VStr source_url else VNone)]);
              (fingerprint_key, text_prop "rich_text" (VStr h));
              (ustr "Date Collected",
                VDict [(ustr "date", VDict [(ustr "start", VStr today)])]);
              (ustr "Status",
                VDict [(ustr "select", VDict [(ustr "name", VStr (ustr "Parsed"))])]);
              (ustr "Parsed Role Template", relation rid);
              (ustr "Parsed Company", relation cid) ]);
        EvSt (StSuccess ([0x1F9E0; 32] ++ ustr "Job successfully saved to Notion.")) ].
Proof.
  unfold Uploader.save_body. intros H.
  step H. rename a into company, H0 into Hcompany.
  step H. rename a into h, H0 into Hh.
  apply bindM_ok in H as (q & s1 & Hq & H).
  apply notion_query_ok in Hq as (_ & _ & _ & _ & T1).
  step H. rename a into results, H0 into Hresults.
  destruct (truthy results) eqn:Etruthy.
  { step H. apply ret_ok in H as [H _]. discriminate H. }
  step H. rename a into needle_c, H0 into Hneedle_c.
  apply bindM_ok in H as (q_company & s2 & Hq2 & H).
  apply notion_query_ok in Hq2 as (res2 & Hres2 & Hst2 & Hjs2 & T2).
  assert (Ac : answered DB_COMPANIES (title_filter "Name" needle_c) q_company)
    by (exists res2, (fst s1), (fst s2); auto).
  apply bindM_ok in H as (cprops & s3 & Hb & H).
  apply build_company_props_ok in Hb as [-> _].
  step H. rename a into found_c, H0 into Hfound_c.
  apply bindM_ok in H as (cid & s3 & Hup & H).
  assert (Hc : exists wc mc, upsert DB_COMPANIES found_c cid cprops wc /\
                             snd s3 = snd s2 ++ [wc; EvSt mc]).
  { destruct (truthy found_c) eqn:Ef.
    - apply bindM_ok in Hup as (u & s4 & Hu & Hup).
      apply update_page_ok in Hu as [_ Tu].
      apply bindM_ok in Hup as (u' & s5 & Hst & Hup).
      unfold Uploader.st in Hst. apply emit_ok in Hst. subst s5.
      apply ret_ok in Hup as [-> ->]. cbn [snd]. rewrite Tu, <- app_assoc.
      eexists _, _. split; [left; repeat split; assumption || reflexivity|reflexivity].
    - apply bindM_ok in Hup as (new & s4 & Hu & Hup).
      apply create_page_ok in Hu as [Hu Tu]. cbv zeta in Hu, Tu.
      step Hup.
      apply bindM_ok in Hup as (u' & s5 & Hst & Hup).
      unfold Uploader.st in Hst. apply emit_ok in Hst. subst s5.
      apply ret_ok in Hup as [-> ->]. cbn [snd]. rewrite Tu, <- app_assoc.
      eexists _, _. split; [|reflexivity].
      right. split; [exact Ef|]. split; [reflexivity|].
      eexists _, _, _. split; eassumption. }
  destruct Hc as (wc & mc & Hwc & T3). clear Hup.
  step H. rename a into title, H0 into Htitle.
  step H. rename a into needle_r, H0 into Hneedle_r.
  apply bindM_ok in H as (q_role & s4 & Hq4 & H).
  apply notion_query_ok in Hq4 as (res4 & Hres4 & Hst4 & Hjs4 & T4).
  assert (Ar : answered DB_ROLE_TEMPLATE (title_filter "Role Title" needle_r) q_role)
    by (exists res4, (fst s3), (fst s4); auto).
  apply bindM_ok in H as (rp0 & s5 & Hb & H).
  pose proof Hb as Hrole.
  apply build_role_props_ok in Hb as [-> (dr & -> & _)].
  step H. match goal with H : py_setitem _ _ _ = Ok _ |- _ =>
                            cbn [py_setitem] in H; injection H as <- end.
  step H. rename a into found_r, H0 into Hfound_r.
  apply bindM_ok in H as (rid & s5 & Hup & H).
  assert (Hr : exists wr mr,
             upsert DB_ROLE_TEMPLATE found_r rid
                    (VDict (dict_set (ustr "Parsed Company") (relation cid) dr)) wr /\
             snd s5 = snd s4 ++ [wr; EvSt mr]).
  { destruct (truthy found_r) eqn:Ef.
    - apply bindM_ok in Hup as (u & s6 & Hu & Hup).
      apply update_page_ok in Hu as [_ Tu].
      step Hup.
      apply bindM_ok in Hup as (u' & s7 & Hst & Hup).
      unfold Uploader.st in Hst. apply emit_ok in Hst. subst s7.
      apply ret_ok in Hup as [-> ->]. cbn [snd]. rewrite Tu, <- app_assoc.
      eexists _, _. split; [left; repeat split; assumption || reflexivity|reflexivity].
    - apply bindM_ok in Hup as (new & s6 & Hu & Hup).
      apply create_page_ok in Hu as [Hu Tu]. cbv zeta in Hu, Tu.
      step Hup. step Hup.
      apply bindM_ok in Hup as (u' & s7 & Hst & Hup).
      unfold Uploader.st in Hst. apply emit_ok in Hst. subst s7.
      apply ret_ok in Hup as [-> ->]. cbn [snd]. rewrite Tu, <- app_assoc.
      eexists _, _. split; [|reflexivity].
      right. split; [exact Ef|]. split; [reflexivity|].
      eexists _, _, _. split; eassumption. }
  destruct Hr as (wr & mr & Hwr & T5). clear Hup.
  apply bindM_ok in H as (jp0 & s6 & Hb & H).
  apply build_job_props_inv in Hb as [-> (job_title & company' & Hjt & Hc' & ->)].
  rewrite Hcompany in Hc'. injection Hc' as <-.
  step H. match goal with H : py_setitem _ _ _ = Ok _ |- _ =>
                            cbn [py_setitem] in H; injection H as <- end.
  step H. match goal with H : py_setitem _ _ _ = Ok _ |- _ =>
                            cbn [py_setitem] in H; injection H as <- end.
  apply bindM_ok in H as (new_job & s6 & Hcreate & H).
  apply create_page_ok in Hcreate as [_ T6]. cbv zeta in T6.
  apply bindM_ok in H as (u & s7 & Hst & H).
  unfold Uploader.st in Hst. apply emit_ok in Hst. subst s7.
  step H. apply ret_ok in H as [_ ->].
  exists company, h, needle_c, title, needle_r, q_company, q_role, found_c, found_r,
    cid, rid, cprops,
    (dict_set (ustr "Parsed Company") (relation cid) dr), job_title, wc, mc, wr, mr.
  eexists _, _.
  repeat (split; [eassumption|]).
  split; [apply dict_get_set_same|].
  eexists. cbn [snd]. rewrite T6, T5, T4, T3, T2, T1.
  rewrite <- !app_assoc. reflexivity.
Qed.

(** X20. A run of [save_to_notion] that returns the id of the new job has
    done this and nothing else, in this order: the fingerprint query of the
    Job collection; the title query of the Company collection, then the
    update of the page it found or, none found, the creation of one, and a
    message; the same for the Role collection; the creation of the Job page
    and a message.  The role page and the job page are linked to the id of
    the company page, the job page to the id of the role page too. *)
Theorem save_to_notion_saved_protocol (parsed : value) (jd_text source_url : str)
    (s s' : state) (id : value) :
  save_to_notion parsed jd_text source_url s = (Saved id, s') ->
  exists h needle_c needle_r q_c q_r found_c found_r cid rid
         cprops rprops jprops wc mc wr mr,
    snd s' = snd s ++
      [ EvQuery DB_JOBS (fingerprint_filter h);
        EvQuery DB_COMPANIES (title_filter "Name" needle_c);
        wc; EvSt mc;
        EvQuery DB_ROLE_TEMPLATE (title_filter "Role Title" needle_r);
        wr; EvSt mr;
        EvCreate (parent DB_JOBS) (VDict jprops);
        EvSt (StSuccess ([0x1F9E0; 32] ++ ustr "Job successfully saved to Notion.")) ] /\
    answered DB_COMPANIES (title_filter "Name" needle_c) q_c /\
    get_first_page_id q_c = Ok found_c /\
    upsert DB_COMPANIES found_c cid cprops wc /\
    answered DB_ROLE_TEMPLATE (title_filter "Role Title" needle_r) q_r /\
    get_first_page_id q_r = Ok found_r /\
    upsert DB_ROLE_TEMPLATE found_r rid (VDict rprops) wr /\
    dict_get (ustr "Parsed Company") rprops = Some (relation cid) /\
    dict_get (ustr "Parsed Company") jprops = Some (relation cid) /\
    dict_get (ustr "Parsed Role Template") jprops = Some (relation rid).
Proof.
  unfold Uploader.save_to_notion.
  destruct (save_body parsed jd_text source_url s) as [[[id'|]|e] s0] eqn:E;
    intros H; try discriminate H. injection H as -> ->.
  apply save_body_protocol in E
    as (company & h & needle_c & title & needle_r & q_c & q_r & found_c & found_r
        & cid & rid & cprops & rprops & job_title & wc & mc & wr & mr & s_r & rp0
        & _ & _ & _ & _ & _ & _ & _ & Ac & Gc & Hwc & Ar & Gr & Hwr & Hrel & today & T).
  exists h, needle_c, needle_r, q_c, q_r, found_c, found_r, cid, rid, cprops, rprops.
  eexists. exists wc, mc, wr, mr.
  split; [exact T|]. repeat (split; [assumption|]).
  split; reflexivity.
Qed.

(** X21. The Job page such a run creates holds the fingerprint of the
    text and the company, the first 1900 characters of the text as its
    description, the source URL or null for an empty one, and the status
    "Parsed". *)
Theorem save_to_notion_saved_job_page (parsed : value) (jd_text source_url : str)
    (s s' : state) (id : value) :
  save_to_notion parsed jd_text source_url s = (Saved id, s') ->
  exists company h jprops before,
    py_get parsed (ustr "company") (VStr (ustr "Unknown Company")) = Ok company /\
    hash_job_text jd_text (format_value py_str company) = Ok h /\
    snd s' = before ++
      [ EvCreate (parent DB_JOBS) (VDict jprops);
        EvSt (StSuccess ([0x1F9E0; 32] ++ ustr "Job successfully saved to Notion.")) ] /\
    dict_get fingerprint_key jprops = Some (text_prop "rich_text" (VStr h)) /\
    dict_get (ustr "Job Description") jprops =
      Some (text_prop "rich_text" (VStr (firstn 1900 jd_text))) /\
    (length (firstn 1900 jd_text) <= 1900)%nat /\
    dict_get (ustr "Source URL") jprops =
      Some (VDict [(ustr "url", if str_truthy source_url then VStr source_url else VNone)]) /\
    dict_get (ustr "Status") jprops =
      Some (VDict [(ustr "select", VDict [(ustr "name", VStr (ustr "Parsed"))])]).
Proof.
  unfold Uploader.save_to_notion.
  destruct (save_body parsed jd_text source_url s) as [[[id'|]|e] s0] eqn:E;
    intros H; try discriminate H. injection H as -> ->.
  apply save_body_protocol in E
    as (company & h & needle_c & title & needle_r & q_c & q_r & found_c & found_r
        & cid & rid & cprops & rprops & job_title & wc & mc & wr & mr & s_r & rp0
        & Hc & Hh & _ & _ & _ & _ & _ & _ & _ & _ & _ & _ & _ & _ & today & T).
  exists company, h. eexists. eexists (snd s ++ [_; _; _; _; _; _; _]).
  split; [exact Hc|]. split; [exact Hh|].
  split; [rewrite T, <- app_assoc; reflexivity|].
  split; [reflexivity|]. split; [reflexivity|].
  split; [apply firstn_le_length|]. split; reflexivity.
Qed.

Lemma build_role_props_location (d : pydict) (v loc : value) (s s1 : state) :
  dict_get (ustr "location") d = Some loc ->
  (forall d', loc <> VDict d') ->
  build_role_props (VDict d) s = (Ok v, s1) -> False.
Proof.
  intros Hd Hloc H. unfold Uploader.build_role_props in H.
  do 9 step H. step H.
  cbn [py_get] in H9. rewrite Hd in H9. cbn [bind] in H9.
  destruct loc; try discriminate H9. apply (Hloc d0). reflexivity.
Qed.

(** X22. A record whose [location] is not an object (a string, as the
    location heuristic of the parser gives, a list or null) is never saved:
    [save_to_notion] ends as a duplicate or raises. *)
Theorem save_to_notion_location_not_object (d : pydict) (loc : value)
    (jd_text source_url : str) (s : state) :
  dict_get (ustr "location") d = Some loc ->
  (forall d', loc <> VDict d') ->
  fst (save_to_notion (VDict d) jd_text source_url s) = Duplicate \/
  exists e, fst (save_to_notion (VDict d) jd_text source_url s) = Failed e.
Proof.
  intros Hd Hloc. unfold Uploader.save_to_notion.
  destruct (save_body (VDict d) jd_text source_url s) as [[[id'|]|e] s0] eqn:E;
    cbn [fst]; [|left; reflexivity|right; eexists; reflexivity].
  exfalso.
  apply save_body_protocol in E
    as (company & h & needle_c & title & needle_r & q_c & q_r & found_c & found_r
        & cid & rid & cprops & rprops & job_title & wc & mc & wr & mr & s_r & rp0
        & _ & _ & _ & _ & _ & _ & Hrole & _).
  exact (build_role_props_location d rp0 loc s_r s_r Hd Hloc Hrole).
Qed.

(** X23. When the fingerprint query is answered with a status other than
    200, [save_to_notion] raises [RuntimeError] with the status and the
    body of the answer in its message, after that one request and the
    "Save failed" message: nothing is written. *)
Theorem save_to_notion_query_rejected (parsed : value) (jd_text source_url : str)
    (s : state) (company : value) (h : str) (res : http_response) (w : World) :
  py_get parsed (ustr "company") (VStr (ustr "Unknown Company")) = Ok company ->
  hash_job_text jd_text (format_value py_str company) = Ok h ->
  requests_post_query DB_JOBS query_headers (query_body (fingerprint_filter h)) (fst s)
    = (Ok res, w) ->
  status_code res <> 200%Z ->
  let msg := [0x274C; 32] ++ ustr "Notion query failed: "
             ++ str_of_Z (status_code res) ++ [32; 0x2014; 32] ++ text res in
  save_to_notion parsed jd_text source_url s =
  (Failed (Exn "RuntimeError" msg),
   (w, snd s ++ [EvQuery DB_JOBS (fingerprint_filter h);
                 EvSt (StError ([0x274C; 32] ++ ustr "Save failed: " ++ msg))])).
Proof.
  intros Hc Hh Hq Hs msg.
  unfold Uploader.save_to_notion, Uploader.save_body.
  unfold Uploader.bindM at 1. unfold Uploader.lift at 1. rewrite Hc.
  unfold Uploader.bindM at 1. unfold Uploader.lift at 1. rewrite Hh.
  unfold Uploader.bindM at 1. unfold Uploader.notion_query.
  unfold Uploader.bindM at 1. unfold Uploader.emit at 1.
  unfold Uploader.bindM at 1. cbn [fst snd]. rewrite Hq.
  apply Z.eqb_neq in Hs. rewrite Hs. cbn [negb]. unfold Uploader.lift at 1.
  cbn [fst snd exn_str]. rewrite <- app_assoc. reflexivity.
Qed.

(** *** The trace only grows *)

Lemma appends_ret {A} (a : A) : appends (ret a).
Proof. intros s. exists []. symmetry. apply app_nil_r. Qed.

Lemma appends_lift {A} (r : result A) : appends (lift r).
Proof. intros s. exists []. symmetry. apply app_nil_r. Qed.

Lemma appends_clock (read : World -> str) : appends (clock read).
Proof. intros s. exists []. symmetry. apply app_nil_r. Qed.

Lemma appends_emit (ev : event) : appends (emit ev).
Proof. intros s. exists [ev]. reflexivity. Qed.

Lemma appends_bind {A B} (m : M A) (k : A -> M B) :
  appends m -> (forall a, appends (k a)) -> appends (bindM m k).
Proof.
  intros Hm Hk s. unfold Uploader.bindM. destruct (Hm s) as [l Hl].
  destruct (m s) as [[a|e] s1]; cbn [snd] in Hl.
  - destruct (Hk a s1) as [l' Hl']. exists (l ++ l'). rewrite Hl', Hl, app_assoc. reflexivity.
  - exists l. exact Hl.
Qed.

Lemma notion_query_trace (db_id : str) (filter_obj : value) (s : state) :
  snd (snd (notion_query db_id filter_obj s)) = snd s ++ [EvQuery db_id filter_obj].
Proof.
  unfold Uploader.notion_query, Uploader.bindM, Uploader.emit, Uploader.lift.
  cbn [fst snd].
  destruct (requests_post_query db_id query_headers (query_body filter_obj) (fst s))
    as [[res|e] w]; [|reflexivity].
  destruct (negb (status_code res =? 200)%Z); reflexivity.
Qed.

Lemma appends_query (db_id : str) (filter_obj : value) :
  appends (notion_query db_id filter_obj).
Proof. intros s. eexists. apply notion_query_trace. Qed.

Lemma appends_update (page_id properties : value) :
  appends (update_page page_id properties).
Proof.
  intros s. unfold Uploader.update_page, Uploader.bindM, Uploader.emit. cbn [fst snd].
  destruct (pages_update page_id properties (fst s)) as [r w]. eexists. reflexivity.
Qed.

Lemma appends_create (db : str) (properties : value) :
  appends (create_page db properties).
Proof.
  intros s. unfold Uploader.create_page, Uploader.bindM, Uploader.emit. cbn [fst snd].
  destruct (pages_create _ properties (fst s)) as [r w]. eexists. reflexivity.
Qed.

Ltac grow :=
  repeat first
    [ apply appends_ret | apply appends_lift | apply appends_clock
    | apply appends_emit | apply appends_query | apply appends_update
    | apply appends_create
    | apply appends_bind; [|intros ?]
    | match goal with |- appends (if ?b then _ else _) => destruct b end
    | progress unfold Uploader.st, Uploader.build_company_props,
                      Uploader.build_role_props, Uploader.build_job_props ].

(** X24. Whatever the outcome, [save_to_notion] only adds to the trace, and
    what it adds holds an update or a creation only if it starts with the
    fingerprint query of the Job collection and that query was answered 200
    with no result. *)
Theorem save_to_notion_checks_first (parsed : value) (jd_text source_url : str)
    (s : state) :
  exists added,
    snd (snd (save_to_notion parsed jd_text source_url s)) = snd s ++ added /\
    (filter is_write added = [] \/
     exists h res w q results rest,
       added = EvQuery DB_JOBS (fingerprint_filter h) :: rest /\
       requests_post_query DB_JOBS query_headers (query_body (fingerprint_filter h)) (fst s)
         = (Ok res, w) /\
       status_code res = 200%Z /\ json res = Ok q /\
       py_get q (ustr "results") VNone = Ok results /\ truthy results = false).
Proof.
  unfold Uploader.save_to_notion, Uploader.save_body.
  unfold Uploader.bindM at 1. unfold Uploader.lift at 1.
  destruct (py_get parsed (ustr "company") (VStr (ustr "Unknown Company"))) as [company|e].
  2:{ eexists [_]. split; [reflexivity|left; reflexivity]. }
  unfold Uploader.bindM at 1. unfold Uploader.lift at 1.
  destruct (hash_job_text jd_text (format_value py_str company)) as [h|e].
  2:{ eexists [_]. split; [reflexivity|left; reflexivity]. }
  unfold Uploader.bindM at 1.
  pose proof (notion_query_trace DB_JOBS (fingerprint_filter h) s) as T1.
  destruct (notion_query DB_JOBS (fingerprint_filter h) s) as [[q|e] s1] eqn:Eq;
    cbn [snd] in T1.
  2:{ eexists [_; _]. cbn [snd]. rewrite T1, <- app_assoc.
      split; [reflexivity|left; reflexivity]. }
  apply notion_query_ok in Eq as (res & Hres & H200 & Hjson & _).
  unfold Uploader.bindM at 1. unfold Uploader.lift at 1.
  destruct (py_get q (ustr "results") VNone) as [results|e] eqn:Er.
  2:{ eexists [_; _]. cbn [snd]. rewrite T1, <- app_assoc.
      split; [reflexivity|left; reflexivity]. }
  destruct (truthy results) eqn:Et.
  { unfold Uploader.bindM, Uploader.st, Uploader.emit, Uploader.ret.
    eexists [_; _]. cbn [snd fst]. rewrite T1, <- app_assoc.
    split; [reflexivity|left; reflexivity]. }
  match goal with
  | |- context [Uploader.bindM World ?a ?k s1] =>
      assert (Happ : appends (Uploader.bindM World a k)) by grow;
      destruct (Happ s1) as [l Hl];
      destruct (Uploader.bindM World a k s1) as [[[id|]|e] s2]
  end; cbn [snd] in Hl |- *.
  - exists (EvQuery DB_JOBS (fingerprint_filter h) :: l).
    split; [rewrite Hl, T1, <- app_assoc; reflexivity|].
    right. exists h, res, (fst s1), q, results, l. repeat split; assumption.
  - exists (EvQuery DB_JOBS (fingerprint_filter h) :: l).
    split; [rewrite Hl, T1, <- app_assoc; reflexivity|].
    right. exists h, res, (fst s1), q, results, l. repeat split; assumption.
  - eexists (EvQuery DB_JOBS (fingerprint_filter h) :: l ++ [_]).
    split; [rewrite Hl, T1, <- !app_assoc; reflexivity|].
    right. exists h, res, (fst s1), q, results. eexists. repeat split; assumption.
Qed.

(** *** Region names *)

Lemma drop_commas_all (l out : list value) :
  mapM py_drop_commas l = Ok out ->
  exists rs, out = map VStr rs /\ Forall (fun r => ~ In 44 r) rs.
Proof.
  revert out. induction l as [|x l IH]; intros out H; cbn [mapM] in H.
  - injection H as <-. exists []. split; [reflexivity|constructor].
  - destruct x as [| | | |r| |]; cbn [py_drop_commas] in H; try discriminate H.
    destruct (mapM py_drop_commas l) as [bs|e]; [|discriminate H].
    injection H as <-. destruct (IH bs eq_refl) as (rs & -> & Hrs).
    exists (str_replace (ustr ",") [] r :: rs). split; [reflexivity|].
    constructor; [|exact Hrs].
    change (ustr ",") with [44]. rewrite (ParserFacts.replace_one_char 44 [] r). intros Hin.
    apply in_flat_map in Hin as (c & _ & Hc).
    destruct (c =? 44) eqn:E; [destruct Hc|].
    destruct Hc as [Hc|[]]. apply N.eqb_neq in E. congruence.
Qed.

(** X25. The region names [build_role_props] puts under "Regions" are
    strings without a comma; a record without [location] gets the one
    region "Global". *)
Theorem build_role_props_regions (parsed : value) (props : pydict) (s s1 : state) :
  build_role_props parsed s = (Ok (VDict props), s1) ->
  exists rs : list str,
    dict_get (ustr "Regions") props = Some (multi_select (map VStr rs)) /\
    Forall (fun r => ~ In 44 r) rs /\
    (forall d, parsed = VDict d -> dict_get (ustr "location") d = None ->
               rs = [ustr "Global"]).
Proof.
  intros H. unfold Uploader.build_role_props in H.
  do 9 step H. step H. rename H9 into Hreg, a8 into regions.
  repeat step H. apply ret_ok in H as [H _]. injection H as ->.
  destruct (py_get parsed (ustr "location") (VDict [])) as [loc|e] eqn:El;
    [|discriminate Hreg].
  cbn [bind] in Hreg.
  destruct (py_get loc (ustr "regions") (VList [VStr (ustr "Global")])) as [x|e] eqn:Ex;
    [|discriminate Hreg].
  cbn [bind] in Hreg.
  destruct (py_iter x) as [items|e] eqn:Ei; [|discriminate Hreg].
  cbn [bind] in Hreg.
  destruct (drop_commas_all _ _ Hreg) as (rs & -> & Hrs).
  exists rs. split; [reflexivity|]. split; [exact Hrs|].
  intros d -> Hd. cbn [py_get] in El. rewrite Hd in El. injection El as <-.
  cbn [py_get dict_get] in Ex. injection Ex as <-.
  cbn [py_iter] in Ei. injection Ei as <-.
  cbn in Hreg. injection Hreg as Hreg.
  destruct rs as [|r [|r' rs]]; try discriminate Hreg.
  cbn [map] in Hreg. injection Hreg as <-. reflexivity.
Qed.

End Protocol.
End ProtocolFacts.

(** ** The characters of the fingerprint *)

Module DigestFacts.
Import Uploader FingerprintFacts Fields.

Lemma hex_digit_hex (n : N) : n < 16 -> is_hex (Sha256.hex_digit n) = true.
Proof.
  intros H. unfold Sha256.hex_digit, is_hex.
  destruct (n <? 10) eqn:E.
  - apply N.ltb_lt in E. apply orb_true_iff. left.
    apply andb_true_iff. split; apply N.leb_le; lia.
  - apply N.ltb_ge in E. apply orb_true_iff. right.
    apply andb_true_iff. split; apply N.leb_le; lia.
Qed.

Lemma nibble_lt (x : N) : N.land x 0xF < 16.
Proof.
  change 0xF with (N.ones 4). rewrite N.land_ones.
  apply N.mod_lt. discriminate.
Qed.

Lemma hex_word_hex (x : N) : forallb is_hex (Sha256.hex_word x) = true.
Proof.
  unfold Sha256.hex_word. cbn [map forallb].
  rewrite !hex_digit_hex by apply nibble_lt. reflexivity.
Qed.

Lemma hexdigest_hex (msg : list N) : forallb is_hex (Sha256.hexdigest msg) = true.
Proof.
  unfold Sha256.hexdigest. generalize (Sha256.digest msg). intros st.
  cbn [flat_map]. rewrite !forallb_app, !hex_word_hex. reflexivity.
Qed.

Lemma forallb_firstn {A} (f : A -> bool) (n : nat) (l : list A) :
  forallb f l = true -> forallb f (firstn n l) = true.
Proof.
  revert n. induction l as [|a l IH]; intros [|n] H; try reflexivity.
  cbn [forallb firstn] in *. apply andb_true_iff in H as [Ha Hl].
  rewrite Ha, (IH n Hl). reflexivity.
Qed.

(** X18. A fingerprint is made of the characters [0]..[9] and
    [a]..[f]. *)
Theorem hash_job_text_hex (text company h : str) :
  hash_job_text text company = Ok h -> forallb is_hex h = true.
Proof.
  unfold hash_job_text.
  destruct (Utf8.encode (company ++ ustr "_" ++ text)) as [bs|e]; [|discriminate].
  unfold bind. generalize (Sha256.hexdigest bs) (hexdigest_hex bs).
  intros digest Hd H. assert (E : h = firstn 16 digest) by congruence.
  rewrite E. apply forallb_firstn, Hd.
Qed.

Lemma hash_job_text_hex_witness :
  forallb is_hex (ustr "580a0fccab5f9a17") = true.
Proof.
  apply (hash_job_text_hex (ustr "X") (ustr "Acme")). vm_compute. reflexivity.
Defined.

Lemma encode_raises (s : str) (e : exn) :
  Utf8.encode s = Raise e ->
  e = Exn "UnicodeEncodeError" (ustr "surrogates not allowed") /\
  forallb Utf8.encodable s = false.
Proof.
  induction s as [|c s IH]; cbn [Utf8.encode forallb]; [discriminate|].
  destruct (Utf8.encodable c).
  - destruct (Utf8.encode s) as [bs|e']; [discriminate|].
    intros H. injection H as <-. destruct (IH eq_refl) as [He Hs].
    split; [exact He|exact Hs].
  - intros H. injection H as <-. split; reflexivity.
Qed.

(** X19. [hash_job_text] raises exactly when the company or the text
    holds a code point UTF-8 does not encode (a lone surrogate), and what it
    raises is [UnicodeEncodeError]. *)
Theorem hash_job_text_raises_iff (text company : str) :
  ((exists e, hash_job_text text company = Raise e) <->
   forallb Utf8.encodable (company ++ text) = false) /\
  (forall e, hash_job_text text company = Raise e ->
             exists msg, e = Exn "UnicodeEncodeError" msg).
Proof.
  assert (Hall : forallb Utf8.encodable (company ++ ustr "_" ++ text)
                 = forallb Utf8.encodable (company ++ text)).
  { rewrite !forallb_app. reflexivity. }
  unfold hash_job_text. split; [split|].
  - intros [e H].
    destruct (Utf8.encode (company ++ ustr "_" ++ text)) as [bs|e'] eqn:E;
      [discriminate H|].
    apply encode_raises in E as [_ E]. rewrite <- Hall. exact E.
  - intros H. rewrite <- Hall in H.
    destruct (Utf8.encode (company ++ ustr "_" ++ text)) as [bs|e'] eqn:E.
    + exfalso.
      assert (G : forall s bs, Utf8.encode s = Ok bs -> forallb Utf8.encodable s = true).
      { induction s as [|c s IH]; intros bs' G; [reflexivity|].
        cbn [Utf8.encode forallb] in *. destruct (Utf8.encodable c); [|discriminate G].
        destruct (Utf8.encode s) as [bs''|]; [|discriminate G].
        exact (IH bs'' eq_refl). }
      rewrite (G _ _ E) in H. discriminate H.
    + exists e'. reflexivity.
  - intros e H.
    destruct (Utf8.encode (company ++ ustr "_" ++ text)) as [bs|e'] eqn:E;
      [discriminate H|].
    cbn [bind] in H. injection H as <-. apply encode_raises in E as [-> _].
    eexists. reflexivity.
Qed.

End DigestFacts.

Module ProtocolWitnesses.
Import Uploader RefStore Protocol ProtocolFacts.

Lemma save_to_notion_saved_protocol_witness :
  let record := VDict [(ustr "company", VStr (ustr "Acme"));
                       (ustr "position_title", VStr (ustr "Engineer"))] in
  let empty : Uploader.state store := ({| pages := []; next_id := 0 |}, []) in
  let out := save (ustr "secret") (ustr "jobs") (ustr "roles") (ustr "companies")
                  (fun _ => ustr "None") (fun _ => ustr "{}") record (ustr "X") [] empty in
  fst out = Saved (VStr (ustr "page-2")) /\ length (snd (snd out)) = 9%nat.
Proof.
  intros record empty out.
  assert (H1 : out = (Saved (VStr (ustr "page-2")), snd out)) by (vm_compute; reflexivity).
  destruct (save_to_notion_saved_protocol
              (ustr "secret") (ustr "jobs") (ustr "roles") (ustr "companies")
              (fun _ => ustr "None") (fun _ => ustr "{}") store
              requests_post_query pages_update pages_create utcnow_date utcnow_iso
              record (ustr "X") [] empty (snd out) (VStr (ustr "page-2")) H1)
    as (h & nc & nr & qc & qr & fc & fr & cid & rid & cp & rp & jp & wc & mc & wr & mr
        & T & _).
  split; [rewrite H1; reflexivity|]. rewrite T. reflexivity.
Defined.

Lemma save_to_notion_saved_job_page_witness :
  let record := VDict [(ustr "company", VStr (ustr "Acme"));
                       (ustr "position_title", VStr (ustr "Engineer"))] in
  let empty : Uploader.state store := ({| pages := []; next_id := 0 |}, []) in
  let out := save (ustr "secret") (ustr "jobs") (ustr "roles") (ustr "companies")
                  (fun _ => ustr "None") (fun _ => ustr "{}") record (ustr "X") [] empty in
  exists h jprops before,
    hash_job_text (ustr "X") (ustr "Acme") = Ok h /\
    snd (snd out) = before ++
      [ EvCreate (parent (ustr "jobs")) (VDict jprops);
        EvSt (StSuccess ([0x1F9E0; 32] ++ ustr "Job successfully saved to Notion.")) ] /\
    dict_get fingerprint_key jprops = Some (text_prop "rich_text" (VStr h)) /\
    dict_get (ustr "Source URL") jprops = Some (VDict [(ustr "url", VNone)]).
Proof.
  intros record empty out.
  assert (H1 : out = (Saved (VStr (ustr "page-2")), snd out)) by (vm_compute; reflexivity).
  destruct (save_to_notion_saved_job_page
              (ustr "secret") (ustr "jobs") (ustr "roles") (ustr "companies")
              (fun _ => ustr "None") (fun _ => ustr "{}") store
              requests_post_query pages_update pages_create utcnow_date utcnow_iso
              record (ustr "X") [] empty (snd out) (VStr (ustr "page-2")) H1)
    as (company & h & jp & before & Hc & Hh & T & Hf & _ & _ & Hu & _).
  injection Hc as <-.
  exists h, jp, before. repeat split; assumption.
Defined.

Lemma save_to_notion_location_not_object_witness :
  let d := [(ustr "company", VStr (ustr "Acme"));
            (ustr "location", VStr (ustr "Austin, TX"))] in
  let empty : Uploader.state store := ({| pages := []; next_id := 0 |}, []) in
  let out := save (ustr "secret") (ustr "jobs") (ustr "roles") (ustr "companies")
                  (fun _ => ustr "None") (fun _ => ustr "{}") (VDict d) (ustr "X") [] empty in
  fst out = Duplicate \/ exists e, fst out = Failed e.
Proof.
  intros d empty out.
  apply (save_to_notion_location_not_object
           (ustr "secret") (ustr "jobs") (ustr "roles") (ustr "companies")
           (fun _ => ustr "None") (fun _ => ustr "{}") store
           requests_post_query pages_update pages_create utcnow_date utcnow_iso
           d (VStr (ustr "Austin, TX")) (ustr "X") [] empty).
  - reflexivity.
  - intros d'. discriminate.
Defined.

Lemma save_to_notion_query_rejected_witness :
  let refuse : str -> value -> value -> unit -> result http_response * unit :=
    fun _ _ _ w =>
      (Ok {| status_code := 401; text := ustr "unauthorized";
             json := Ok (VDict []) |}, w) in
  let out :=
    save_to_notion (ustr "secret") (ustr "jobs") (ustr "roles") (ustr "companies")
      (fun _ => ustr "None") (fun _ => ustr "{}") unit refuse
      (fun _ _ w => (Ok tt, w)) (fun _ _ w => (Ok (VDict []), w))
      (fun _ => []) (fun _ => [])
      (VDict [(ustr "company", VStr (ustr "Acme"))]) (ustr "X") [] (tt, []) in
  exists msg, fst out = Failed (Exn "RuntimeError" msg) /\ length (snd (snd out)) = 2%nat.
Proof.
  intros refuse out. unfold out.
  rewrite (save_to_notion_query_rejected
             (ustr "secret") (ustr "jobs") (ustr "roles") (ustr "companies")
             (fun _ => ustr "None") (fun _ => ustr "{}") unit refuse
             (fun _ _ w => (Ok tt, w)) (fun _ _ w => (Ok (VDict []), w))
             (fun _ => []) (fun _ => [])
             (VDict [(ustr "company", VStr (ustr "Acme"))]) (ustr "X") [] (tt, [])
             (VStr (ustr "Acme")) (ustr "580a0fccab5f9a17")
             {| status_code := 401; text := ustr "unauthorized"; json := Ok (VDict []) |}
             tt eq_refl ltac:(vm_compute; reflexivity) eq_refl ltac:(discriminate)).
  eexists. split; reflexivity.
Defined.

Lemma build_role_props_regions_witness :
  exists rs : list str,
    multi_select [VStr (ustr "Austin TX")] = multi_select (map VStr rs) /\
    Forall (fun r => ~ In 44 r) rs.
Proof.
  destruct (build_role_props_regions (fun _ => ustr "{}") unit (fun _ => [])
              (VDict [(ustr "location",
                       VDict [(ustr "regions", VList [VStr (ustr "Austin, TX")])])])
              _ (tt, []) (tt, []) eq_refl) as (rs & Hget & Hrs & _).
  exists rs. split; [|exact Hrs].
  cbn in Hget. injection Hget as Hget. unfold multi_select. rewrite <- Hget. reflexivity.
Defined.

End ProtocolWitnesses.

(** ** The heading of the first entry of [mapping] *)

Module HeadingFacts.
Import Re Parser Canon Keywords Outcomes ParserFacts.

(** A heading that starts with [#] survives a substitution none of whose
    keywords matches inside it. *)
Lemma heading_kept_any (kws : list string) (repl z : str) :
  forallb nonempty (keywords kws) = true ->
  forallb (forallb (fun p => negb (ci_eq p 35))) (keywords kws) = true ->
  (forall v, no_match_from (keyword_re kws) (Some 35) z v) ->
  forall t, contains (35 :: z) t = true ->
            contains (35 :: z) (sub (keyword_re kws) repl t) = true.
Proof.
  intros Hne Hhash Hin t Ht.
  apply contains_split in Ht as (u & v & ->).
  destruct (sub_from_frame (keyword_re kws) repl 35 z v u
              (heading_no_cross kws u _ v Hne Hhash) (Hin v) None 0%nat ltac:(lia))
    as [u' Hu'].
  unfold sub. rewrite Hu'. apply contains_app.
Qed.

Lemma find_kw_in (kws : list str) (kw : str) (prev : option N) (s : str) :
  In kw kws -> ci_prefix kw s = true ->
  boundary (last_opt prev (firstn (length kw) s)) (skipn (length kw) s) = true ->
  find_kw kws prev s <> None.
Proof.
  induction kws as [|k kws IH]; intros Hin Hp Hb; [destruct Hin|].
  cbn [find_kw]. destruct (ci_prefix k s && boundary _ _) eqn:E; [discriminate|].
  destruct Hin as [->|Hin]; [rewrite Hp, Hb in E; discriminate E|].
  exact (IH Hin Hp Hb).
Qed.

(** A substitution writes its heading when one of its keywords stands in
    the text as a word. *)
Lemma word_writes (kws : list string) (kw repl : str) :
  In kw (keywords kws) -> kw <> [] ->
  forall s prev,
    has_word_i kw prev s = true ->
    contains repl (sub_from (keyword_re kws) repl prev 0 s) = true.
Proof.
  intros Hin Hne. induction s as [|c s IH]; intros prev H.
  - cbn [has_word_i] in H. unfold word_at_i in H.
    destruct kw as [|p kw]; [congruence|]. cbn [ci_prefix] in H.
    rewrite andb_false_r in H. discriminate H.
  - rewrite sub_from_cons.
    destruct (match_len _ prev (c :: s)) as [[|n]|] eqn:E.
    + apply (contains_app repl []).
    + apply (contains_app repl []).
    + cbn [has_word_i] in H. apply orb_true_iff in H as [H|H].
      * exfalso. rewrite match_len_keywords in E. unfold kw_len in E.
        unfold word_at_i in H. apply andb_true_iff in H as [H H3].
        apply andb_true_iff in H as [H1 H2]. rewrite H1 in E.
        exact (find_kw_in _ kw prev (c :: s) Hin H2 H3 E).
      * cbn [contains]. rewrite (IH _ H). apply orb_true_r.
Qed.

Ltac no_match_in_heading :=
  intros v;
  cbv [no_match_from ustr list_ascii_of_string map N_of_ascii N_of_digits];
  repeat split; vm_compute; reflexivity.

Lemma first_heading_kept (t : str) :
  contains (ustr "## Job Description") t = true ->
  contains (ustr "## Job Description")
    (fold_left (fun t pr => sub (keyword_re (fst pr)) (snd pr) t)
               (skipn 1 mapping) t) = true.
Proof.
  intros H. cbn [skipn mapping fold_left fst snd].
  change (ustr "## Job Description") with (35 :: ustr "# Job Description") in *.
  repeat (apply heading_kept_any; [reflexivity|reflexivity|no_match_in_heading|]).
  exact H.
Qed.

(** X26. When the text the substitutions are applied to (the document, or
    what the HTML conversion makes of it) holds "job description",
    "overview" or "summary", in any letter case, between two word
    boundaries, the output of [convert_to_markdown] contains the heading
    "## Job Description". *)
Theorem convert_to_markdown_first_heading (md : str -> str) (text : str) (kw : string) :
  In kw first_keywords ->
  has_word_i (ustr kw) None (converted md text) = true ->
  contains (ustr "## Job Description") (convert_to_markdown md text) = true.
Proof.
  intros Hkw H. unfold convert_to_markdown. fold (converted md text).
  apply (strip_keeps (ustr "# Job Descriptio") 35 110); [reflexivity|reflexivity|].
  change (35 :: ustr "# Job Descriptio" ++ [110]) with (ustr "## Job Description").
  change mapping with (firstn 1 mapping ++ skipn 1 mapping).
  rewrite fold_left_app. apply first_heading_kept.
  cbn [firstn mapping fold_left fst snd]. unfold sub.
  apply (word_writes _ (ustr kw)); [|
    |exact H].
  - apply (in_map ustr) in Hkw. exact Hkw.
  - cbn [first_keywords In] in Hkw.
    destruct Hkw as [<-|[<-|[<-|[]]]]; discriminate.
Qed.

Lemma convert_to_markdown_first_heading_witness :
  contains (ustr "## Job Description")
    (convert_to_markdown (fun s => s) (ustr "Role overview: build things")) = true.
Proof.
  apply (convert_to_markdown_first_heading (fun s => s)
           (ustr "Role overview: build things") "overview").
  - right. left. reflexivity.
  - reflexivity.
Defined.

End HeadingFacts.

(** ** The button of the parser page *)

Module PageFacts.
Import Re Parser Keywords Outcomes ParserFacts Fields HeuristicFacts RunFacts CleanFacts Page.

Lemma rstrip_empty (s : str) : rstrip s = [] <-> forallb py_isspace s = true.
Proof.
  induction s as [|c s IH]; [split; reflexivity|].
  cbn [rstrip forallb]. destruct (rstrip s) as [|d r] eqn:E.
  - destruct (py_isspace c); cbn [andb].
    + split; [intros _; apply IH; reflexivity|reflexivity].
    + split; discriminate.
  - split; [discriminate|]. intros H. apply andb_true_iff in H as [_ H].
    apply IH in H. discriminate H.
Qed.

Lemma lstrip_spaces (s : str) :
  forallb py_isspace (lstrip s) = forallb py_isspace s.
Proof.
  induction s as [|c s IH]; [reflexivity|]. cbn [lstrip].
  destruct (py_isspace c) eqn:E; [|reflexivity].
  cbn [forallb]. rewrite E. exact IH.
Qed.

(** The blank test of the page: [not jd_text.strip()]. *)
Lemma strip_blank (s : str) :
  negb (str_truthy (strip s)) = forallb py_isspace s.
Proof.
  pose proof (rstrip_empty (lstrip s)) as H. rewrite lstrip_spaces in H.
  unfold strip. destruct (rstrip (lstrip s)) as [|a x]; cbn [str_truthy negb].
  - symmetry. apply H. reflexivity.
  - destruct (forallb py_isspace s); [|reflexivity].
    destruct H as [_ H]. discriminate (H eq_refl).
Qed.

Section PageSection.
Variable md : str -> str.
Variable json_dumps_indent : value -> str.
Variable json_loads : str -> result value.
Variable chat_create : str -> str -> str -> result response.
Variable json_dump_text : value -> str.
Variable write_file : str -> str -> result unit.

Let run := run md json_dumps_indent json_loads chat_create.
Let parse_clicked :=
  parse_clicked md json_dumps_indent json_loads chat_create json_dump_text write_file.

(** A record [run] returns is true as a condition. *)
Lemma run_ok_truthy (jd_text : str) (v : value) (m : str) (log : list event) :
  run jd_text = (Ok (v, m), log) -> truthy v = true.
Proof.
  intros H. apply run_ok_inv in H as (h & d & Hh & _ & _ & ->).
  pose proof (heuristics_nodup _ _ Hh) as Hnd.
  pose proof (heuristics_visa _ _ Hh) as Hin.
  pose proof (fold_merged_entry h _ _ Hnd Hin d) as Hget.
  cbn [truthy].
  destruct (fold_left (fun d e => merged e d) h d); [|reflexivity].
  cbn [dict_get] in Hget. destruct (dict_get _ d) as [x|]; [destruct (truthy x)|];
    discriminate Hget.
Qed.

Lemma existsb_parser (f : ui_event -> bool) (log : list event) :
  (forall e, f (UiParser e) = false) -> existsb f (map UiParser log) = false.
Proof.
  intros Hf. induction log as [|e log IH]; [reflexivity|].
  cbn [map existsb]. rewrite Hf. exact IH.
Qed.

(** The trace of a click on a text that is not blank and for which [run]
    returns. *)
Lemma parse_clicked_returned (jd_text : str) (v : value) (m : str) (log : list event) :
  forallb py_isspace jd_text = false ->
  run jd_text = (Ok (v, m), log) ->
  parse_clicked jd_text =
  (match write_file output_path (json_dump_text v) with
   | Ok _ => Ok tt
   | Raise e => Raise e
   end,
   UiSpinner (ustr "Parsing via GPT-5 / GPT-4o...") :: map UiParser log
   ++ [UiSubheader ([0x1F9E9; 32] ++ ustr "Normalized Markdown"); UiMarkdown m;
       UiSt (StSuccess ([0x2705; 32] ++ ustr "Parsed successfully!"));
       UiJson v; UiWrite output_path (json_dump_text v)]
   ++ match write_file output_path (json_dump_text v) with
      | Ok _ => [UiSt (StInfo ([0x1F4BE; 32] ++ ustr "Saved as parsed_output.json"))]
      | Raise _ => []
      end).
Proof.
  intros Hb Hr. unfold parse_clicked, Page.parse_clicked.
  rewrite strip_blank, Hb. cbv zeta. fold run. rewrite Hr.
  rewrite (run_ok_truthy _ _ _ _ Hr).
  destruct (write_file output_path (json_dump_text v)) as [u|e].
  - f_equal. cbn [app]. f_equal. rewrite <- !app_assoc. reflexivity.
  - f_equal. rewrite app_nil_r. cbn [app]. f_equal. rewrite <- !app_assoc. reflexivity.
Qed.

End PageSection.

(** X27. Pressing the button of the parser page never shows "No valid JSON
    extracted."; on a text of white space only it shows the request for a
    job description and nothing else; and it opens [parsed_output.json] for
    writing exactly when the text is not blank and [run] returns, whatever
    the models answered: the record [run] returned is then displayed and is
    what goes to the file. *)
Theorem parse_clicked_outcomes (md : str -> str) (json_dumps_indent : value -> str)
    (json_loads : str -> result value)
    (chat_create : str -> str -> str -> result response)
    (json_dump_text : value -> str) (write_file : str -> str -> result unit)
    (jd_text : str) :
  let out := parse_clicked md json_dumps_indent json_loads chat_create
                           json_dump_text write_file jd_text in
  let r := run md json_dumps_indent json_loads chat_create jd_text in
  existsb shows_no_json (snd out) = false /\
  (forallb py_isspace jd_text = true ->
     out = (Ok tt, [UiSt (StError (ustr "Please provide a job description first."))])) /\
  (existsb is_file_write (snd out) = true <->
     forallb py_isspace jd_text = false /\ exists v m, fst r = Ok (v, m)) /\
  (forall v m, forallb py_isspace jd_text = false -> fst r = Ok (v, m) ->
     In (UiJson v) (snd out) /\
     In (UiWrite output_path (json_dump_text v)) (snd out)).
Proof.
  cbv zeta.
  destruct (forallb py_isspace jd_text) eqn:Hb.
  - assert (E : parse_clicked md json_dumps_indent json_loads chat_create
                              json_dump_text write_file jd_text
                = (Ok tt, [UiSt (StError (ustr "Please provide a job description first."))])).
    { unfold parse_clicked. rewrite strip_blank, Hb. reflexivity. }
    rewrite E. cbn [snd]. split; [vm_compute; reflexivity|]. split; [reflexivity|].
    split; [|intros v m H; discriminate H].
    split; [intros H; vm_compute in H; discriminate H|intros [H _]; discriminate H].
  - destruct (run md json_dumps_indent json_loads chat_create jd_text)
      as [[[v m]|e] log] eqn:Hr.
    + rewrite (parse_clicked_returned md json_dumps_indent json_loads chat_create
                 json_dump_text write_file jd_text v m log Hb Hr).
      cbn [snd fst]. split; [|split; [intros H; discriminate H|split]].
      * cbn [existsb shows_no_json]. rewrite !existsb_app.
        rewrite existsb_parser by reflexivity.
        destruct (write_file output_path (json_dump_text v)); vm_compute; reflexivity.
      * split; [intros _; split; [reflexivity|exists v, m; reflexivity]|].
        intros _. cbn [existsb is_file_write]. rewrite !existsb_app.
        cbn [existsb is_file_write]. rewrite !orb_true_r. reflexivity.
      * intros v' m' _ H. injection H as <- <-.
        split; right; apply in_or_app; right; apply in_or_app; left; cbn [In]; auto 10.
    + assert (E : parse_clicked md json_dumps_indent json_loads chat_create
                                json_dump_text write_file jd_text
                  = (Raise e, UiSpinner (ustr "Parsing via GPT-5 / GPT-4o...")
                              :: map UiParser log)).
      { unfold parse_clicked. rewrite strip_blank, Hb. cbv zeta. rewrite Hr. reflexivity. }
      rewrite E. cbn [snd fst]. split; [|split; [intros H; discriminate H|split]].
      * cbn [existsb shows_no_json]. apply existsb_parser. reflexivity.
      * cbn [existsb is_file_write]. rewrite existsb_parser by reflexivity.
        split; [intros H; discriminate H|intros [_ (v & m & H)]; discriminate H].
      * intros v m _ H. discriminate H.
Qed.

(** X28. When the text is not blank and the attempts with both models
    fail, the page still reports success: after the error "No valid
    response from GPT models." it shows "Parsed successfully!", displays the
    heuristics as the record and writes them to [parsed_output.json]. *)
Theorem parse_clicked_models_failed (md : str -> str) (json_dumps_indent : value -> str)
    (json_loads : str -> result value)
    (chat_create : str -> str -> str -> result response)
    (json_dump_text : value -> str) (write_file : str -> str -> result unit)
    (jd_text : str) (h : pydict) :
  let cleaned := clean_text (Some jd_text) in
  let md_text := convert_to_markdown md cleaned in
  let user := user_msg json_dumps_indent md_text h in
  let attempt := attempt json_dumps_indent json_loads chat_create in
  let content := json_dump_text (VDict h) in
  forallb py_isspace jd_text = false ->
  heuristic_extract cleaned = Ok h ->
  attempt_fails (attempt (ustr "gpt-5") user) ->
  attempt_fails (attempt (ustr "gpt-4o") user) ->
  write_file output_path content = Ok tt ->
  exists log,
    calls log = [ustr "gpt-5"; ustr "gpt-4o"] /\
    parse_clicked md json_dumps_indent json_loads chat_create
                  json_dump_text write_file jd_text =
    (Ok tt,
     UiSpinner (ustr "Parsing via GPT-5 / GPT-4o...") :: map UiParser log
     ++ [UiParser (EvSt (StError ([0x274C; 32] ++ ustr "No valid response from GPT models.")));
         UiSubheader ([0x1F9E9; 32] ++ ustr "Normalized Markdown"); UiMarkdown md_text;
         UiSt (StSuccess ([0x2705; 32] ++ ustr "Parsed successfully!"));
         UiJson (VDict h); UiWrite output_path content;
         UiSt (StInfo ([0x1F4BE; 32] ++ ustr "Saved as parsed_output.json"))]).
Proof.
  intros cleaned md_text user attempt content Hb Hh H1 H2 Hw.
  assert (Hp : exists log,
             calls log = [ustr "gpt-5"; ustr "gpt-4o"] /\
             parse_with_gpt5 json_dumps_indent json_loads chat_create md_text h =
             (VDict [],
              log ++ [EvSt (StError ([0x274C; 32]
                                     ++ ustr "No valid response from GPT models."))])).
  { unfold parse_with_gpt5, models. cbn [try_models].
    fold user. fold attempt.
    destruct (attempt (ustr "gpt-5") user) as [[p|]|e1]; [destruct H1| |];
      (destruct (attempt (ustr "gpt-4o") user) as [[p|]|e2]; [destruct H2| |]);
      match goal with
      | |- exists log, _ /\ (_, ?l) = _ => exists (removelast l)
      end; split; reflexivity. }
  destruct Hp as (log & Hc & Hp). exists log. split; [exact Hc|].
  rewrite (parse_clicked_returned md json_dumps_indent json_loads chat_create
             json_dump_text write_file jd_text (VDict h) md_text
             (log ++ [EvSt (StError ([0x274C; 32]
                                     ++ ustr "No valid response from GPT models."))]) Hb).
  - fold content. rewrite Hw. f_equal. f_equal.
    rewrite map_app, <- !app_assoc. reflexivity.
  - unfold run. cbv zeta. fold cleaned. rewrite Hh. fold md_text. rewrite Hp.
    rewrite merge_heuristics_dict.
    rewrite fold_merged_fresh; [reflexivity|exact (heuristics_nodup _ _ Hh)|reflexivity].
Qed.

Lemma parse_clicked_models_failed_witness :
  let down : str -> str -> str -> result response :=
    fun _ _ _ => Raise (Exn "APIConnectionError" (ustr "Connection error.")) in
  let loads : str -> result value :=
    fun _ => Raise (Exn "JSONDecodeError" (ustr "Expecting value")) in
  let h := [(ustr "visa_sponsorship", VBool true)] in
  exists log,
    calls log = [ustr "gpt-5"; ustr "gpt-4o"] /\
    parse_clicked (fun t => t) (fun _ => []) loads down (fun _ => ustr "{}")
                  (fun _ _ => Ok tt) (ustr "Engineer") =
    (Ok tt,
     UiSpinner (ustr "Parsing via GPT-5 / GPT-4o...") :: map UiParser log
     ++ [UiParser (EvSt (StError ([0x274C; 32] ++ ustr "No valid response from GPT models.")));
         UiSubheader ([0x1F9E9; 32] ++ ustr "Normalized Markdown");
         UiMarkdown (ustr "Engineer");
         UiSt (StSuccess ([0x2705; 32] ++ ustr "Parsed successfully!"));
         UiJson (VDict h); UiWrite output_path (ustr "{}");
         UiSt (StInfo ([0x1F4BE; 32] ++ ustr "Saved as parsed_output.json"))]).
Proof.
  intros down loads h.
  apply (parse_clicked_models_failed (fun t => t) (fun _ => []) loads down
           (fun _ => ustr "{}") (fun _ _ => Ok tt) (ustr "Engineer") h).
  - vm_compute. reflexivity.
  - vm_compute. reflexivity.
  - exact I.
  - exact I.
  - reflexivity.
Defined.

End PageFacts.
